(** * Safepoint pages and signal coordination of the Julia runtime

    A shallow embedding of [src/safepoint.c] and of the fault router, the
    per-thread signal rendezvous, the profile sampler, the listener's
    dispatch and the delivery of interrupts and exit requests to thread 0
    of [src/signals-unix.c] (generic Linux configuration: [HAVE_TIMER], no
    [SIGINFO], no [SEGV_EXCEPTION], libunwind enabled), together with the
    properties of the runtime's specification that concern them.

    Conventions.
    - C integers are [Z]; the [uint8_t] enable counters wrap modulo 256.
    - [assert] is executed: a failing assertion ends the run with
      [AssertFail].
    - Code that runs under one lock and touches only the safepoint globals
      is a function in the state-and-error monad [M]; lock operations and
      page protection changes are logged in the state's event trace so that
      ordering can be stated.
    - Code whose behaviour depends on other threads is a step function over
      program counters, one atomic action per step, run along a schedule. *)

From Stdlib Require Import ZArith Lia List Bool.
From stdpp Require Import base numbers list.
Import ListNotations.
Local Open Scope Z_scope.

(** ** Results and the state-and-error monad *)

Inductive result (A : Type) : Type :=
| Ok (a : A)
| AssertFail.
Arguments Ok {A} a.
Arguments AssertFail {A}.

(** ** src/safepoint.c *)

Module Safepoint.

(** Page protections set by [mprotect]: [PROT_READ] and [PROT_NONE]. *)
Inductive prot : Type := PROT_READ | PROT_NONE.

(** What a thread running the safepoint code does to the outside world. *)
Inductive event : Type :=
| EvLock                              (* uv_mutex_lock(&safepoint_lock) *)
| EvUnlock                            (* uv_mutex_unlock(&safepoint_lock) *)
| EvBroadcast                         (* uv_cond_broadcast(&safepoint_cond) *)
| EvEnable (idx : Z)                  (* entry of jl_safepoint_enable *)
| EvDisable (idx : Z)                 (* entry of jl_safepoint_disable *)
| EvMprotect (idx : Z) (p : prot)     (* mprotect(pages + pagesz*idx, ..) *)
| EvStoreRelaxed (v : Z)              (* relaxed store to jl_gc_running *)
| EvStoreRelease (v : Z).             (* release store to jl_gc_running *)

(** The globals of safepoint.c and the protection of the three pages. *)
Record state : Type := mkState {
  jl_signal_pending : Z;              (* sig_atomic_t *)
  jl_gc_running : Z;                  (* _Atomic(uint32_t) *)
  jl_safepoint_enable_cnt : list Z;   (* uint8_t [3] *)
  page_prot : list prot;              (* protection of slot 0, 1, 2 *)
  trace : list event                  (* oldest first *)
}.

(** The state after [jl_safepoint_init]: counters zero, pages mapped
    [PROT_READ], nothing pending. *)
Definition init : state :=
  mkState 0 0 [0; 0; 0] [PROT_READ; PROT_READ; PROT_READ] [].

Definition M (A : Type) : Type := state -> result (A * state).

Definition ret {A} (a : A) : M A := fun s => Ok (a, s).

Definition bind {A B} (m : M A) (k : A -> M B) : M B := fun s =>
  match m s with
  | Ok (a, s') => k a s'
  | AssertFail => AssertFail
  end.

#[global] Instance M_ret : MRet M := @ret.
#[global] Instance M_bind : MBind M := fun A B k m => bind m k.

Definition assert (b : bool) : M unit := fun s =>
  if b then Ok (tt, s) else AssertFail.

Definition emit (e : event) : M unit := fun s =>
  Ok (tt, mkState (jl_signal_pending s) (jl_gc_running s)
                  (jl_safepoint_enable_cnt s) (page_prot s) (trace s ++ [e])).

(** [uint8_t] arithmetic. *)
Definition wrap8 (x : Z) : Z := x mod 256.

Definition cnt_at (s : state) (idx : Z) : Z :=
  default 0 (jl_safepoint_enable_cnt s !! Z.to_nat idx).

Definition prot_at (s : state) (idx : Z) : prot :=
  default PROT_READ (page_prot s !! Z.to_nat idx).

Definition get_cnt (idx : Z) : M Z := fun s => Ok (cnt_at s idx, s).

Definition set_cnt (idx v : Z) : M unit := fun s =>
  Ok (tt, mkState (jl_signal_pending s) (jl_gc_running s)
                  (<[Z.to_nat idx := v]> (jl_safepoint_enable_cnt s))
                  (page_prot s) (trace s)).

Definition mprotect (idx : Z) (p : prot) : M unit := fun s =>
  Ok (tt, mkState (jl_signal_pending s) (jl_gc_running s)
                  (jl_safepoint_enable_cnt s)
                  (<[Z.to_nat idx := p]> (page_prot s))
                  (trace s ++ [EvMprotect idx p])).

Definition get_pending : M Z := fun s => Ok (jl_signal_pending s, s).

Definition set_pending (v : Z) : M unit := fun s =>
  Ok (tt, mkState v (jl_gc_running s) (jl_safepoint_enable_cnt s)
                  (page_prot s) (trace s)).

Definition get_gc_running : M Z := fun s => Ok (jl_gc_running s, s).

Definition set_gc_running (v : Z) : M unit := fun s =>
  Ok (tt, mkState (jl_signal_pending s) v (jl_safepoint_enable_cnt s)
                  (page_prot s) (trace s)).

(** [static void jl_safepoint_enable(int idx)]:
    [cnt[idx]++ != 0] compares the old value; the new value is stored
    as a [uint8_t]. *)
Definition jl_safepoint_enable (idx : Z) : M unit :=
  emit (EvEnable idx) ;;
  assert ((0 <=? idx) && (idx <? 3)) ;;
  old ← get_cnt idx;
  set_cnt idx (wrap8 (old + 1)) ;;
  if negb (old =? 0) then
    (now ← get_cnt idx;
     assert (now <=? 2))
  else
    mprotect idx PROT_NONE.

(** [static void jl_safepoint_disable(int idx)]:
    [--cnt[idx] != 0] compares the new value, a [uint8_t]. *)
Definition jl_safepoint_disable (idx : Z) : M unit :=
  emit (EvDisable idx) ;;
  assert ((0 <=? idx) && (idx <? 3)) ;;
  old ← get_cnt idx;
  set_cnt idx (wrap8 (old - 1)) ;;
  now ← get_cnt idx;
  if negb (now =? 0) then
    (now' ← get_cnt idx;
     assert (0 <? now'))
  else
    mprotect idx PROT_READ.

(** [void jl_safepoint_end_gc(void)], for [jl_n_threads] threads, on a
    platform other than macOS. *)
Definition jl_safepoint_end_gc (jl_n_threads : Z) : M unit :=
  running ← get_gc_running;
  assert (negb (running =? 0)) ;;
  if jl_n_threads =? 1 then
    (emit (EvStoreRelaxed 0) ;;
     set_gc_running 0)
  else
    (emit EvLock ;;
     jl_safepoint_disable 2 ;;
     jl_safepoint_disable 1 ;;
     emit (EvStoreRelease 0) ;;
     set_gc_running 0 ;;
     emit EvUnlock ;;
     emit EvBroadcast).

(** [void jl_safepoint_enable_sigint(void)]: a [switch] whose cases fall
    through; the [default] label asserts and then falls into [case 0]. *)
Definition jl_safepoint_enable_sigint : M unit :=
  emit EvLock ;;
  pending ← get_pending;
  assert ((pending =? 0) || (pending =? 1) || (pending =? 2)) ;;
  (if pending =? 0 then jl_safepoint_enable 0 else ret tt) ;;
  (if (pending =? 0) || (pending =? 1) then jl_safepoint_enable 1
   else ret tt) ;;
  set_pending 2 ;;
  emit EvUnlock.

(** [void jl_safepoint_defer_sigint(void)] *)
Definition jl_safepoint_defer_sigint : M unit :=
  emit EvLock ;;
  pending ← get_pending;
  (if pending =? 2 then
     (jl_safepoint_disable 1 ;;
      set_pending 1)
   else ret tt) ;;
  emit EvUnlock.

(** [int jl_safepoint_consume_sigint(void)] *)
Definition jl_safepoint_consume_sigint : M Z :=
  emit EvLock ;;
  pending ← get_pending;
  assert ((pending =? 0) || (pending =? 1) || (pending =? 2)) ;;
  (if pending =? 2 then jl_safepoint_disable 1 else ret tt) ;;
  has_signal ←
    (if (pending =? 2) || (pending =? 1) then
       (jl_safepoint_disable 0 ;; ret 1)
     else ret 0);
  set_pending 0 ;;
  emit EvUnlock ;;
  ret has_signal.

(** Running a list of calls one after the other. *)
Inductive call : Type := Enable (idx : Z) | Disable (idx : Z).

Definition do_call (c : call) : M unit :=
  match c with
  | Enable idx => jl_safepoint_enable idx
  | Disable idx => jl_safepoint_disable idx
  end.

Fixpoint do_calls (cs : list call) : M unit :=
  match cs with
  | [] => ret tt
  | c :: cs' => do_call c ;; do_calls cs'
  end.

End Safepoint.

(** ** src/signals-unix.c: the fault router *)

Module Signals.

(** Linux values of the constants the handlers compare against. *)
Definition SIGILL : Z := 4.
Definition SIGBUS : Z := 7.
Definition SIGSEGV : Z := 11.
Definition SEGV_ACCERR : Z := 2.
Definition sig_stack_size : Z := 8 * 1024 * 1024.
Definition WRITE_FAULT : Z := 2.      (* enum x86_trap_flags *)

(** [uintptr_t] arithmetic on a 64-bit target. *)
Definition wrap64 (x : Z) : Z := x mod 2 ^ 64.

(** The fields of the thread-local block and of a task that the
    handlers read.  Addresses are numbers; 0 is [NULL]. *)
Record jl_tls_states : Type := mkTls {
  ptls_tid : Z;
  defer_signal : Z;
  io_wait : Z;
  sleep_check_state : Z;
  current_task : Z;
  signal_stack : Z;
  stackbase : Z;
  stacksize : Z
}.

Record jl_task : Type := mkTask {
  tid : Z;
  ptls : jl_tls_states;
  copy_stack : Z;
  stkbuf : Z;
  bufsz : Z
}.

Record siginfo : Type := mkSiginfo { si_addr : Z; si_code : Z }.

(** The registers of the trapped [ucontext_t] that are read or written
    (Linux x86-64: [gregs[REG_RSP]], [gregs[REG_RIP]], [gregs[REG_ERR]]). *)
Record ucontext : Type := mkUcontext { REG_RSP : Z; REG_RIP : Z; REG_ERR : Z }.

Inductive fn : Type := jl_sig_throw | jl_exit_thread0_cb.

Inductive exn : Type :=
| jl_interrupt_exception
| jl_stackovf_exception
| jl_readonlymemory_exception
| jl_segv_exception.

Inductive message : Type :=
| MsgSignalStackOverflow      (* "ERROR: Signal stack overflow, exit\n" *)
| MsgForceSigint              (* "WARNING: Force throwing a SIGINT\n" *)
| MsgProfilerInvalidAccess.   (* "WARNING: profiler attempt to access ..." *)

(** Calls that leave the handler's own data. *)
Inductive action : Type :=
| ASigprocmaskUnblock (sig : Z)
| ACall (f : fn)                      (* fptr() called directly *)
| ASignalDefault (sig : Z)            (* signal(sig, SIG_DFL) *)
| ATtyResetMode
| AShowSigill
| ACriticalError (sig : Z)
| ARaise (sig : Z)
| ASetGcAndWait
| ADeferSigint
| AConsumeSigint (has_signal : Z)
| AClearForceSigint
| ARecordBacktrace                    (* ptls->bt_size = rec_backtrace_ctx(..) *)
| ASetSigException (e : exn)          (* ptls->sig_exception = e *)
| ASetContext (rsp rip : Z)           (* registers written into the context *)
| APrintf (m : message)
| AExit (status : Z).                 (* _exit(status) *)

(** How a handler ends: it returns to the kernel, the process is gone,
    or a function that does not return was called directly. *)
Inductive outcome : Type := Returned | Exited (status : Z) | Escaped.

Record hstate : Type := mkH {
  sp : Safepoint.state;
  uctx : ucontext;
  log : list action                   (* oldest first *)
}.

Definition H (A : Type) : Type := hstate -> result (A * hstate).

#[global] Instance H_ret : MRet H := fun A a h => Ok (a, h).
#[global] Instance H_bind : MBind H := fun A B k m h =>
  match m h with
  | Ok (a, h') => k a h'
  | AssertFail => AssertFail
  end.

Definition hassert (b : bool) : H unit := fun h =>
  if b then Ok (tt, h) else AssertFail.

Definition act (a : action) : H unit := fun h =>
  Ok (tt, mkH (sp h) (uctx h) (log h ++ [a])).

Definition get_uctx : H ucontext := fun h => Ok (uctx h, h).

Definition set_uctx (u : ucontext) : H unit := fun h =>
  Ok (tt, mkH (sp h) u (log h)).

(** Running a function of safepoint.c inside a handler. *)
Definition lift {A} (m : Safepoint.M A) : H A := fun h =>
  match m (sp h) with
  | Ok (a, s') => Ok (a, mkH s' (uctx h) (log h))
  | AssertFail => AssertFail
  end.

Section FaultRouter.

(** Globals set at start-up. *)
Variable jl_page_size : Z.
Variable jl_safepoint_pages : Z.

(** Modelled from the spec: [jl_addr_is_safepoint] is declared in
    julia_internal.h, which is not part of the sources at hand; it
    returns true iff the address lies within [P, P + 3*S). *)
Definition jl_addr_is_safepoint (addr : Z) : bool :=
  (jl_safepoint_pages <=? addr) && (addr <? jl_safepoint_pages + 3 * jl_page_size).

(** Modelled from the spec: [jl_set_gc_and_wait] is defined in
    signal-handling.c, which is not part of the sources at hand; it
    enters the WAITING state and calls [jl_safepoint_wait_gc], which
    returns once no collection is running. *)
Definition jl_set_gc_and_wait : H unit := act ASetGcAndWait.

(** Modelled from the spec: [jl_clear_force_sigint] is defined in
    signal-handling.c; it clears the force-sigint latch. *)
Definition jl_clear_force_sigint : H unit := act AClearForceSigint.

Definition jl_get_rsp_from_ctx (u : ucontext) : Z := REG_RSP u.

(** [static int is_addr_on_sigstack(jl_ptls_t ptls, void *ptr)] *)
Definition is_addr_on_sigstack (p : jl_tls_states) (ptr : Z) : bool :=
  negb ((ptr <? signal_stack p - jl_page_size) ||
        (signal_stack p + sig_stack_size <? ptr)).

(** [static void jl_call_in_ctx(ptls, fptr, sig, _ctx)], Linux x86-64
    branch; [fptr_addr] is the address of [fptr].  The result tells
    whether [fptr] was called directly, which does not return. *)
Definition jl_call_in_ctx (p : option jl_tls_states) (fptr : fn) (fptr_addr : Z)
    (sig : Z) : H outcome :=
  match p with
  | Some p' =>
      if signal_stack p' =? 0 then
        act (ASigprocmaskUnblock sig) ;; act (ACall fptr) ;; mret Escaped
      else
        u ← get_uctx;
        let rsp := jl_get_rsp_from_ctx u in
        let rsp :=
          if is_addr_on_sigstack p' rsp
          then Z.land (wrap64 (rsp - 256)) (wrap64 (Z.lnot 15))
          else wrap64 (signal_stack p' + sig_stack_size) in
        hassert (rsp mod 16 =? 0) ;;
        let rsp := wrap64 (rsp - 8) in
        set_uctx (mkUcontext rsp fptr_addr (REG_ERR u)) ;;
        act (ASetContext rsp fptr_addr) ;;
        mret Returned
  | None =>
      act (ASigprocmaskUnblock sig) ;; act (ACall fptr) ;; mret Escaped
  end.

Variable jl_sig_throw_addr : Z.

(** [static void jl_throw_in_ctx(jl_task_t *ct, jl_value_t *e, int sig,
    void *sigctx)] *)
Definition jl_throw_in_ctx (safe_restore : bool) (ct : jl_task) (e : exn)
    (sig : Z) : H outcome :=
  (if negb safe_restore then
     act ARecordBacktrace ;; act (ASetSigException e)
   else mret tt) ;;
  jl_call_in_ctx (Some (ptls ct)) jl_sig_throw jl_sig_throw_addr sig.

(** [static int is_addr_on_stack(jl_task_t *ct, void *addr)] *)
Definition is_addr_on_stack (ct : jl_task) (addr : Z) : bool :=
  if negb (copy_stack ct =? 0) then
    (stackbase (ptls ct) - stacksize (ptls ct) <? addr) &&
    (addr <? stackbase (ptls ct))
  else
    (stkbuf ct <? addr) && (addr <? stkbuf ct + bufsz ct).

(** [static void sigdie_handler(int sig, siginfo_t *info, void *context)] *)
Definition sigdie_handler (sig : Z) : H unit :=
  act (ASignalDefault sig) ;;
  act ATtyResetMode ;;
  (if sig =? SIGILL then act AShowSigill else mret tt) ;;
  act (ACriticalError sig) ;;
  (if negb (sig =? SIGSEGV) && negb (sig =? SIGBUS) && negb (sig =? SIGILL)
   then act (ARaise sig) else mret tt).

(** [int exc_reg_is_write_fault(uintptr_t err)], x86. *)
Definition exc_reg_is_write_fault (err : Z) : Z := Z.land err WRITE_FAULT.

(** [int is_write_fault(void *context)], Linux x86. *)
Definition is_write_fault (u : ucontext) : Z :=
  exc_reg_is_write_fault (REG_ERR u).

(** [static int jl_is_on_sigstack(jl_ptls_t ptls, void *ptr, void *context)] *)
Definition jl_is_on_sigstack (p : jl_tls_states) (ptr : Z) (u : ucontext) : bool :=
  is_addr_on_sigstack p ptr && is_addr_on_sigstack p (jl_get_rsp_from_ctx u).

(** [static void segv_handler(int sig, siginfo_t *info, void *context)].
    [safe_restore] is [jl_get_safe_restore() != NULL] and [current] is
    [jl_get_current_task()], [None] for [NULL]. *)
Definition segv_handler (safe_restore : bool) (current : option jl_task)
    (sig : Z) (info : siginfo) : H outcome :=
  if safe_restore then
    jl_call_in_ctx None jl_sig_throw jl_sig_throw_addr sig
  else
    match current with
    | None => sigdie_handler sig ;; mret Returned
    | Some ct =>
        hassert ((sig =? SIGSEGV) || (sig =? SIGBUS)) ;;
        if jl_addr_is_safepoint (si_addr info) then
          jl_set_gc_and_wait ;;
          if negb (tid ct =? 0) then mret Returned
          else if negb (defer_signal (ptls ct) =? 0) then
            act ADeferSigint ;;
            lift Safepoint.jl_safepoint_defer_sigint ;;
            mret Returned
          else
            has_signal ← lift Safepoint.jl_safepoint_consume_sigint;
            act (AConsumeSigint has_signal) ;;
            if negb (has_signal =? 0) then
              jl_clear_force_sigint ;;
              jl_throw_in_ctx safe_restore ct jl_interrupt_exception sig
            else mret Returned
        else
          u ← get_uctx;
          if is_addr_on_stack ct (si_addr info) then
            jl_throw_in_ctx safe_restore ct jl_stackovf_exception sig
          else if jl_is_on_sigstack (ptls ct) (si_addr info) u then
            act (APrintf MsgSignalStackOverflow) ;;
            act (AExit (sig + 128)) ;;
            mret (Exited (sig + 128))
          else if (sig =? SIGSEGV) && (si_code info =? SEGV_ACCERR)
                  && negb (is_write_fault u =? 0) then
            jl_throw_in_ctx safe_restore ct jl_readonlymemory_exception sig
          else
            sigdie_handler sig ;; mret Returned
    end.

End FaultRouter.

End Signals.

(** ** src/signals-unix.c: the sampling loop of [signal_listener] *)

Module Listener.
Import Signals.

Inductive paction : Type :=
| PLockProfile
| PUnlockProfile
| PSuspend (i : Z)                    (* jl_thread_suspend_and_get_state *)
| PResume (i sig : Z)                 (* jl_thread_resume *)
| PTimerDelete                        (* timer_delete(timerprof) *)
| PSetSafeRestore
| PRestoreSafeRestore
| PPrintf (m : message)
| PUnwinderFault.                     (* SIGSEGV in the listener, no safe restore *)

(** The profiler's globals and the listener's static backtrace buffer. *)
Record pstate : Type := mkP {
  running : Z;
  bt_size_cur : Z;
  bt_size_max : Z;
  bt_data_prof : list Z;              (* bt_size_max entries *)
  bt_data : list Z;                   (* JL_MAX_BT_SIZE + 1 entries *)
  bt_size : Z;
  last_timer_delete_time : Z;
  plog : list paction                 (* oldest first *)
}.

(** What the outside world answers while one thread is sampled: the
    context handed over by the suspended thread ([None] for [NULL]), the
    entries [rec_backtrace_ctx] finds for a given size limit ([None] when
    the unwinder faults), and the clocks. *)
Record sample_env : Type := mkEnv {
  signal_context : option Z;
  rec_backtrace_ctx : Z -> option (list Z);
  cycleclock : Z;
  jl_hrtime : Z
}.

Definition P (A : Type) : Type := pstate -> result (A * pstate).

#[global] Instance P_ret : MRet P := fun A a p => Ok (a, p).
#[global] Instance P_bind : MBind P := fun A B k m p =>
  match m p with
  | Ok (a, p') => k a p'
  | AssertFail => AssertFail
  end.

Definition pact (a : paction) : P unit := fun p =>
  Ok (tt, mkP (running p) (bt_size_cur p) (bt_size_max p) (bt_data_prof p)
              (bt_data p) (bt_size p) (last_timer_delete_time p)
              (plog p ++ [a])).

Definition get {A} (f : pstate -> A) : P A := fun p => Ok (f p, p).

(** [bt_data_prof[bt_size_cur++] = v]; a write past the end of the
    buffer is undefined in C and lost here. *)
Definition put_prof (v : Z) : P unit := fun p =>
  Ok (tt, mkP (running p) (bt_size_cur p + 1) (bt_size_max p)
              (<[Z.to_nat (bt_size_cur p) := v]> (bt_data_prof p))
              (bt_data p) (bt_size p) (last_timer_delete_time p) (plog p)).

(** [bt_data[bt_size++] = v] *)
Definition put_bt (v : Z) : P unit := fun p =>
  Ok (tt, mkP (running p) (bt_size_cur p) (bt_size_max p) (bt_data_prof p)
              (<[Z.to_nat (bt_size p) := v]> (bt_data p))
              (bt_size p + 1) (last_timer_delete_time p) (plog p)).

Fixpoint put_all (put : Z -> P unit) (vs : list Z) : P unit :=
  match vs with
  | [] => mret tt
  | v :: vs' => put v ;; put_all put vs'
  end.

(** [void jl_profile_stop_timer(void)], [HAVE_TIMER] version. *)
Definition jl_profile_stop_timer (now : Z) : P unit := fun p =>
  if negb (running p =? 0) then
    Ok (tt, mkP 0 (bt_size_cur p) (bt_size_max p) (bt_data_prof p)
                (bt_data p) (bt_size p) now (plog p ++ [PTimerDelete]))
  else Ok (tt, p).

Section Sampling.

Variable JL_MAX_BT_SIZE : Z.
Variable jl_n_threads : Z.

(** [jl_profile_is_buffer_full] is defined in signal-handling.c, which
    is not part of the sources at hand; it is a test on the profile
    buffer's fill level and is kept abstract. *)
Variable jl_profile_is_buffer_full : Z -> Z -> bool.

(** The body of the loop over the threads in [signal_listener], for the
    thread [i] whose thread-local block is [ptls2].  The profile branch
    calls the unwinder under a safe-restore buffer: a fault there comes
    back through [jl_setjmp] and a warning is printed.  The critical
    branch sets no such buffer: a fault there is a SIGSEGV in the
    listener, which has no current task, so that [segv_handler] ends in
    [sigdie_handler] and the process ends with the thread still
    suspended.  The result tells whether the listener goes on. *)
Definition sample_thread (critical profile : bool) (sig i : Z)
    (ptls2 : jl_tls_states) (env : sample_env) : P bool :=
  pact (PSuspend i) ;;
  match signal_context env with
  | None => mret true                                 (* continue *)
  | Some _ =>
      alive ←
        (if critical then
           match rec_backtrace_ctx env (JL_MAX_BT_SIZE `quot` jl_n_threads - 1) with
           | Some bt => put_all put_bt bt ;; put_bt 0 ;; mret true
           | None => pact PUnwinderFault ;; mret false
           end
         else mret true);
      if alive : bool then
        r ← get running;
        (if profile && negb (r =? 0) then
           cur ← get bt_size_cur;
           max ← get bt_size_max;
           if jl_profile_is_buffer_full cur max then
             jl_profile_stop_timer (jl_hrtime env)
           else
             pact PSetSafeRestore ;;
             match rec_backtrace_ctx env (max - cur - 1) with
             | None => pact (PPrintf MsgProfilerInvalidAccess)
             | Some bt => put_all put_prof bt
             end ;;
             pact PRestoreSafeRestore ;;
             put_prof (wrap64 (ptls_tid ptls2 + 1)) ;;
             put_prof (current_task ptls2) ;;
             put_prof (cycleclock env) ;;
             put_prof (wrap64 (sleep_check_state ptls2 + 1)) ;;
             put_prof 0 ;;
             put_prof 0
         else mret tt) ;;
        pact (PResume i sig) ;;
        mret true
      else mret false
  end.

(** The order in which [for (int idx = jl_n_threads; idx-- > 0; )]
    visits the threads: [randperm[idx]] when profiling, [idx] otherwise. *)
Definition visit_order (profile : bool) (randperm : list Z) : list Z :=
  (fun idx : nat =>
     if profile then default 0 (randperm !! idx) else Z.of_nat idx)
  <$> rev (seq 0 (Z.to_nat jl_n_threads)).

Fixpoint sample_threads (critical profile : bool) (sig : Z)
    (jl_all_tls_states : list jl_tls_states) (envs : Z -> sample_env)
    (order : list Z) : P bool :=
  match order with
  | [] => mret true
  | i :: order' =>
      match jl_all_tls_states !! Z.to_nat i with
      | Some ptls2 =>
          alive ← sample_thread critical profile sig i ptls2 (envs i);
          if alive : bool then
            sample_threads critical profile sig jl_all_tls_states envs order'
          else mret false
      | None => fun _ => AssertFail   (* index out of range: undefined in C *)
      end
  end.

(** The block guarded by [if (critical || profile)]; the profile lock
    is released if the listener got through the loop. *)
Definition sample_pass (critical profile : bool) (sig : Z)
    (jl_all_tls_states : list jl_tls_states) (randperm : list Z)
    (envs : Z -> sample_env) : P unit :=
  if critical || profile then
    pact PLockProfile ;;
    alive ← sample_threads critical profile sig jl_all_tls_states envs
                           (visit_order profile randperm);
    if alive : bool then pact PUnlockProfile else mret tt
  else mret tt.

End Sampling.

End Listener.

(** ** src/safepoint.c: the GC rendezvous under interleaving

    [jl_safepoint_start_gc], [jl_safepoint_wait_gc] and
    [jl_safepoint_end_gc] as run by several threads at once.  Each thread
    has a program counter; a step performs one statement of the source
    atomically (memory is sequentially consistent, so a relaxed and an
    acquire load read the same value).  A thread calls
    [jl_safepoint_start_gc] once and, if that returns 1, calls
    [jl_safepoint_end_gc] when its collection is over. *)

Module GC.
Import Safepoint.

(** Modelled from the spec: the WAITING value of [gc_state] is defined
    in a header that is not part of the sources at hand; the assertions
    of safepoint.c need it to be different from 0. *)
Definition JL_GC_STATE_WAITING : Z := 1.

Inductive pc : Type :=
(* jl_safepoint_start_gc *)
| StartEntry          (* if (jl_n_threads == 1) .. ; assert(gc_state == WAITING) *)
| StartLock           (* uv_mutex_lock(&safepoint_lock) *)
| StartCas            (* jl_atomic_cmpswap(&jl_gc_running, &running, 1) *)
| StartLoseUnlock     (* uv_mutex_unlock(&safepoint_lock), CAS failed *)
| StartEnable1        (* jl_safepoint_enable(1) *)
| StartEnable2        (* jl_safepoint_enable(2) *)
| StartWinUnlock      (* uv_mutex_unlock(&safepoint_lock); return 1 *)
(* jl_safepoint_wait_gc, called from jl_safepoint_start_gc *)
| WaitEntry           (* assert(gc_state != 0) *)
| WaitLoadRelaxed     (* while (jl_atomic_load_relaxed(&jl_gc_running) || *)
| WaitLoadAcquire     (*        jl_atomic_load_acquire(&jl_gc_running)) *)
| WaitLock            (* uv_mutex_lock(&safepoint_lock) *)
| WaitCheck           (* if (jl_atomic_load_relaxed(&jl_gc_running)) *)
| WaitCond            (* asleep inside uv_cond_wait, lock released *)
| WaitWoken           (* uv_cond_wait taking the lock again *)
| WaitUnlock          (* uv_mutex_unlock(&safepoint_lock) *)
(* between the calls *)
| Returned            (* jl_safepoint_start_gc has returned [retval] *)
(* jl_safepoint_end_gc *)
| EndEntry            (* assert(jl_gc_running); if (jl_n_threads == 1) .. *)
| EndLock             (* uv_mutex_lock(&safepoint_lock) *)
| EndDisable2         (* jl_safepoint_disable(2) *)
| EndDisable1         (* jl_safepoint_disable(1) *)
| EndStore            (* jl_atomic_store_release(&jl_gc_running, 0) *)
| EndUnlock           (* uv_mutex_unlock(&safepoint_lock) *)
| EndBroadcast        (* uv_cond_broadcast(&safepoint_cond) *)
| Finished.

Record thread : Type := mkThread {
  at_pc : pc;
  gc_state : Z;                       (* ptls->gc_state *)
  retval : option Z                   (* result of jl_safepoint_start_gc *)
}.

(** What the threads share: the globals of safepoint.c and the owner of
    [safepoint_lock]. *)
Record shared : Type := mkShared {
  sp : Safepoint.state;
  safepoint_lock : option nat
}.

Record gstate : Type := mkG {
  sh : shared;
  threads : list thread
}.

(** The result of one thread's step: its new local state, the new shared
    state and whether the sleepers on [safepoint_cond] are woken. *)
Inductive tstep_result : Type :=
| TNext (th : thread) (s : shared) (wake : bool)
| TStuck
| TFail.

Definition goto (th : thread) (p : pc) : thread :=
  mkThread p (gc_state th) (retval th).

Definition return_ (th : thread) (r : Z) : thread :=
  mkThread Returned (gc_state th) (Some r).

Definition lock (t : nat) (th : thread) (s : shared) (next : pc) : tstep_result :=
  match safepoint_lock s with
  | None =>
      match emit EvLock (sp s) with
      | Ok (_, sp') => TNext (goto th next) (mkShared sp' (Some t)) false
      | AssertFail => TFail
      end
  | Some _ => TStuck
  end.

Definition unlock (t : nat) (th' : thread) (s : shared) : tstep_result :=
  match safepoint_lock s with
  | Some owner =>
      if Nat.eqb owner t then
        match emit EvUnlock (sp s) with
        | Ok (_, sp') => TNext th' (mkShared sp' None) false
        | AssertFail => TFail
        end
      else TFail
  | None => TFail
  end.

(** Running a function of safepoint.c as one step. *)
Definition exec (m : M unit) (th' : thread) (s : shared) : tstep_result :=
  match m (sp s) with
  | Ok (_, sp') => TNext th' (mkShared sp' (safepoint_lock s)) false
  | AssertFail => TFail
  end.

Definition tstep (jl_n_threads : Z) (t : nat) (th : thread) (s : shared)
    : tstep_result :=
  let running := jl_gc_running (sp s) in
  match at_pc th with
  | StartEntry =>
      if jl_n_threads =? 1 then
        exec (emit (EvStoreRelaxed 1) ;; set_gc_running 1) (return_ th 1) s
      else if gc_state th =? JL_GC_STATE_WAITING then
        TNext (goto th StartLock) s false
      else TFail
  | StartLock => lock t th s StartCas
  | StartCas =>
      if running =? 0 then exec (set_gc_running 1) (goto th StartEnable1) s
      else TNext (goto th StartLoseUnlock) s false
  | StartLoseUnlock => unlock t (goto th WaitEntry) s
  | StartEnable1 => exec (jl_safepoint_enable 1) (goto th StartEnable2) s
  | StartEnable2 => exec (jl_safepoint_enable 2) (goto th StartWinUnlock) s
  | StartWinUnlock => unlock t (return_ th 1) s
  | WaitEntry =>
      if negb (gc_state th =? 0) then TNext (goto th WaitLoadRelaxed) s false
      else TFail
  | WaitLoadRelaxed =>
      if negb (running =? 0) then TNext (goto th WaitLock) s false
      else TNext (goto th WaitLoadAcquire) s false
  | WaitLoadAcquire =>
      if negb (running =? 0) then TNext (goto th WaitLock) s false
      else TNext (return_ th 0) s false
  | WaitLock => lock t th s WaitCheck
  | WaitCheck =>
      if negb (running =? 0) then unlock t (goto th WaitCond) s
      else TNext (goto th WaitUnlock) s false
  | WaitCond => TStuck
  | WaitWoken => lock t th s WaitUnlock
  | WaitUnlock => unlock t (goto th WaitLoadRelaxed) s
  | Returned =>
      match retval th with
      | Some r => if negb (r =? 0) then TNext (goto th EndEntry) s false
                  else TStuck
      | None => TStuck
      end
  | EndEntry =>
      if negb (running =? 0) then
        if jl_n_threads =? 1 then
          exec (emit (EvStoreRelaxed 0) ;; set_gc_running 0) (goto th Finished) s
        else TNext (goto th EndLock) s false
      else TFail
  | EndLock => lock t th s EndDisable2
  | EndDisable2 => exec (jl_safepoint_disable 2) (goto th EndDisable1) s
  | EndDisable1 => exec (jl_safepoint_disable 1) (goto th EndStore) s
  | EndStore =>
      exec (emit (EvStoreRelease 0) ;; set_gc_running 0) (goto th EndUnlock) s
  | EndUnlock => unlock t (goto th EndBroadcast) s
  | EndBroadcast =>
      match emit EvBroadcast (sp s) with
      | Ok (_, sp') =>
          TNext (goto th Finished) (mkShared sp' (safepoint_lock s)) true
      | AssertFail => TFail
      end
  | Finished => TStuck
  end.

(** A sleeper leaves [uv_cond_wait]'s sleep and goes for the lock. *)
Definition wake (th : thread) : thread :=
  match at_pc th with
  | WaitCond => goto th WaitWoken
  | _ => th
  end.

(** The scheduler runs a thread for one step, or a sleeper wakes up
    without a broadcast, which [uv_cond_wait] permits. *)
Inductive move : Type := Run (t : nat) | Spurious (t : nat).

Inductive outcome : Type := Next (g : gstate) | Stuck | Fail.

Definition step (jl_n_threads : Z) (m : move) (g : gstate) : outcome :=
  match m with
  | Run t =>
      match threads g !! t with
      | Some th =>
          match tstep jl_n_threads t th (sh g) with
          | TNext th' s' w =>
              let ths := if w then wake <$> threads g else threads g in
              Next (mkG s' (<[t := th']> ths))
          | TStuck => Stuck
          | TFail => Fail
          end
      | None => Stuck
      end
  | Spurious t =>
      match threads g !! t with
      | Some th =>
          match at_pc th with
          | WaitCond => Next (mkG (sh g) (<[t := wake th]> (threads g)))
          | _ => Stuck
          end
      | None => Stuck
      end
  end.

(** A schedule is run move by move; a move that cannot be made leaves
    the state as it is. *)
Fixpoint run (jl_n_threads : Z) (sched : list move) (g : gstate) : outcome :=
  match sched with
  | [] => Next g
  | m :: sched' =>
      match step jl_n_threads m g with
      | Next g' => run jl_n_threads sched' g'
      | Stuck => run jl_n_threads sched' g
      | Fail => Fail
      end
  end.

(** [k] threads about to call [jl_safepoint_start_gc], each in the
    WAITING state, with no collection running. *)
Definition ginit (k : nat) : gstate :=
  mkG (mkShared Safepoint.init None)
      (replicate k (mkThread StartEntry JL_GC_STATE_WAITING None)).

(** A thread holds the collection from the moment its compare-and-swap
    succeeds until it clears [jl_gc_running]. *)
Definition holds_gc (th : thread) : bool :=
  match at_pc th with
  | StartEnable1 | StartEnable2 | StartWinUnlock
  | EndEntry | EndLock | EndDisable2 | EndDisable1 | EndStore => true
  | Returned => match retval th with
                | Some r => negb (r =? 0)
                | None => false
                end
  | _ => false
  end.

Definition holds_lock (th : thread) : bool :=
  match at_pc th with
  | StartCas | StartLoseUnlock | StartEnable1 | StartEnable2 | StartWinUnlock
  | WaitCheck | WaitUnlock
  | EndDisable2 | EndDisable1 | EndStore | EndUnlock => true
  | _ => false
  end.


End GC.

(** ** src/signals-unix.c: the per-thread signal rendezvous

    [jl_thread_suspend_and_get_state] and [jl_thread_resume], run by the
    listener for one target thread, against [usr2_handler], run by that
    thread whenever a SIGUSR2 is delivered to it.  A step is one statement
    of the source.  SIGUSR2 is blocked while its handler runs, and a
    signal sent while one is pending is merged with it.  A wait on a
    condition ends by a broadcast, by the timeout of
    [pthread_cond_timedwait], or without either, which POSIX permits; the
    assertions of the source rely on the first two. *)

Module Rendezvous.

Inductive party : Type := Listener | Target.

(** The only context there is: the one [usr2_handler] was entered with. *)
Inductive context : Type := TargetContext.

(** The listener, in [jl_thread_suspend_and_get_state] and then in
    [jl_thread_resume]. *)
Inductive lpc : Type :=
| L_Start                   (* clock_gettime(..); ts.tv_sec += 1 *)
| L_Lock                    (* pthread_mutex_lock(&in_signal_lock) *)
| L_StoreRequest            (* jl_atomic_store_release(&signal_request, 1) *)
| L_Kill                    (* pthread_kill(ptls2->system_id, SIGUSR2) *)
| L_TimedWait               (* pthread_cond_timedwait(&signal_caught_cond, ..) *)
| L_TimedSleep              (*   asleep in it, lock released *)
| L_TimedWake (timedout : bool)   (* taking the lock again; err == ETIMEDOUT? *)
| L_Cas                     (* request = 1; jl_atomic_cmpswap(.., &request, 0) *)
| L_FailUnlock              (* *ctx = NULL; pthread_mutex_unlock; return *)
| L_CheckRequest (request : Z)    (* if (request == -1) *)
| L_Wait2                   (* pthread_cond_wait(&signal_caught_cond, ..) *)
| L_Wait2Sleep
| L_Wait2Wake
| L_LoadAck                 (* request = load_acquire; assert(request == 0) *)
| L_SetCtx                  (* *ctx = signal_context *)
| L_Returned (ctx : option context)
                            (* suspend_and_get_state has returned *ctx *)
| L_ResumeStore             (* store_release(&signal_request, sig == -1 ? 3 : 1) *)
| L_ResumeBroadcast         (* pthread_cond_broadcast(&exit_signal_cond) *)
| L_ResumeWait              (* pthread_cond_wait(&signal_caught_cond, ..) *)
| L_ResumeSleep
| L_ResumeWake
| L_ResumeLoad              (* request = load_acquire; assert(request == 0) *)
| L_ResumeUnlock            (* pthread_mutex_unlock(&in_signal_lock) *)
| L_Done.                   (* jl_thread_resume has returned *)

(** The target thread, in [usr2_handler]. *)
Inductive tpc : Type :=
| T_Running                 (* not in the handler *)
| T_Entry                   (* ct == NULL or ptls == NULL: return *)
| T_Claim                   (* request = exchange(&signal_request, -1) *)
| T_Lock                    (* request == 1: pthread_mutex_lock *)
| T_Publish                 (* signal_context = jl_to_bt_context(ctx) *)
| T_Ack                     (* request = exchange(.., 0); assert(request == -1) *)
| T_BroadcastCaught1        (* pthread_cond_broadcast(&signal_caught_cond) *)
| T_WaitExit                (* pthread_cond_wait(&exit_signal_cond, ..) *)
| T_ExitSleep
| T_ExitWake
| T_Resume                  (* request = exchange(.., 0); assert(1 or 3) *)
| T_BroadcastCaught2 (request : Z)
| T_Unlock (request : Z)    (* pthread_mutex_unlock(&in_signal_lock) *)
| T_Clear (request : Z)     (* else: exchange(&signal_request, 0) *)
| T_Tail (request : Z)      (* if (request == 2) .. else if (request == 3) .. *)
| T_Sigint                  (* the request == 2 branch *)
| T_ExitCb.                 (* context rewritten to run jl_exit_thread0_cb *)

Record rstate : Type := mkR {
  signal_request : Z;                 (* ptls2->signal_request *)
  in_signal_lock : option party;
  signal_context : option context;    (* static unw_context_t *signal_context *)
  sigusr2_pending : bool;             (* sent to the target, not yet delivered *)
  has_task : bool;                    (* the target has a current task and ptls *)
  l_pc : lpc;
  t_pc : tpc
}.

#[global] Instance party_eq_dec : EqDecision party.
Proof. solve_decision. Defined.
#[global] Instance context_eq_dec : EqDecision context.
Proof. solve_decision. Defined.
#[global] Instance lpc_eq_dec : EqDecision lpc.
Proof. solve_decision. Defined.
#[global] Instance tpc_eq_dec : EqDecision tpc.
Proof. solve_decision. Defined.
#[global] Instance rstate_eq_dec : EqDecision rstate.
Proof. solve_decision. Defined.

Inductive outcome : Type := Next (s : rstate) | Stuck | Fail.

Definition set_l (s : rstate) (p : lpc) : rstate :=
  mkR (signal_request s) (in_signal_lock s) (signal_context s)
      (sigusr2_pending s) (has_task s) p (t_pc s).

Definition set_t (s : rstate) (p : tpc) : rstate :=
  mkR (signal_request s) (in_signal_lock s) (signal_context s)
      (sigusr2_pending s) (has_task s) (l_pc s) p.

Definition set_request (s : rstate) (v : Z) : rstate :=
  mkR v (in_signal_lock s) (signal_context s)
      (sigusr2_pending s) (has_task s) (l_pc s) (t_pc s).

Definition set_lock (s : rstate) (o : option party) : rstate :=
  mkR (signal_request s) o (signal_context s)
      (sigusr2_pending s) (has_task s) (l_pc s) (t_pc s).

Definition set_context (s : rstate) (c : option context) : rstate :=
  mkR (signal_request s) (in_signal_lock s) c
      (sigusr2_pending s) (has_task s) (l_pc s) (t_pc s).

Definition set_pending (s : rstate) (b : bool) : rstate :=
  mkR (signal_request s) (in_signal_lock s) (signal_context s)
      b (has_task s) (l_pc s) (t_pc s).

(** [pthread_mutex_lock(&in_signal_lock)] by [p], then [k]. *)
Definition acquire (p : party) (s : rstate) (k : rstate -> rstate) : outcome :=
  match in_signal_lock s with
  | None => Next (k (set_lock s (Some p)))
  | Some _ => Stuck
  end.

(** [pthread_mutex_unlock], also the release inside a condition wait. *)
Definition release (p : party) (s : rstate) (k : rstate -> rstate) : outcome :=
  match in_signal_lock s with
  | Some q => if decide (q = p) then Next (k (set_lock s None)) else Fail
  | None => Fail
  end.

(** [pthread_cond_broadcast(&signal_caught_cond)]: only the listener
    ever sleeps on it. *)
Definition broadcast_caught (s : rstate) : rstate :=
  match l_pc s with
  | L_TimedSleep => set_l s (L_TimedWake false)
  | L_Wait2Sleep => set_l s L_Wait2Wake
  | L_ResumeSleep => set_l s L_ResumeWake
  | _ => s
  end.

(** [pthread_cond_broadcast(&exit_signal_cond)]: only the target ever
    sleeps on it. *)
Definition broadcast_exit (s : rstate) : rstate :=
  match t_pc s with
  | T_ExitSleep => set_t s T_ExitWake
  | _ => s
  end.

(** One step of the listener; [exit_req] is [sig == -1]. *)
Definition lstep (exit_req : bool) (s : rstate) : outcome :=
  match l_pc s with
  | L_Start => Next (set_l s L_Lock)
  | L_Lock => acquire Listener s (fun s => set_l s L_StoreRequest)
  | L_StoreRequest => Next (set_l (set_request s 1) L_Kill)
  | L_Kill => Next (set_l (set_pending s true) L_TimedWait)
  | L_TimedWait => release Listener s (fun s => set_l s L_TimedSleep)
  | L_TimedSleep => Stuck
  | L_TimedWake timedout =>
      acquire Listener s (fun s => set_l s (if timedout then L_Cas else L_LoadAck))
  | L_Cas =>
      if signal_request s =? 1 then Next (set_l (set_request s 0) L_FailUnlock)
      else Next (set_l s (L_CheckRequest (signal_request s)))
  | L_FailUnlock => release Listener s (fun s => set_l s (L_Returned None))
  | L_CheckRequest request =>
      if request =? -1 then Next (set_l s L_Wait2) else Next (set_l s L_LoadAck)
  | L_Wait2 => release Listener s (fun s => set_l s L_Wait2Sleep)
  | L_Wait2Sleep => Stuck
  | L_Wait2Wake => acquire Listener s (fun s => set_l s L_LoadAck)
  | L_LoadAck =>
      if signal_request s =? 0 then Next (set_l s L_SetCtx) else Fail
  | L_SetCtx => Next (set_l s (L_Returned (signal_context s)))
  | L_Returned ctx =>
      match ctx with
      | Some _ => Next (set_l s L_ResumeStore)   (* the caller resumes it *)
      | None => Stuck                            (* the caller skips it *)
      end
  | L_ResumeStore =>
      Next (set_l (set_request s (if exit_req then 3 else 1)) L_ResumeBroadcast)
  | L_ResumeBroadcast => Next (set_l (broadcast_exit s) L_ResumeWait)
  | L_ResumeWait => release Listener s (fun s => set_l s L_ResumeSleep)
  | L_ResumeSleep => Stuck
  | L_ResumeWake => acquire Listener s (fun s => set_l s L_ResumeLoad)
  | L_ResumeLoad =>
      if signal_request s =? 0 then Next (set_l s L_ResumeUnlock) else Fail
  | L_ResumeUnlock => release Listener s (fun s => set_l s L_Done)
  | L_Done => Stuck
  end.

(** One step of the target: delivery of a pending SIGUSR2, or one
    statement of [usr2_handler]. *)
Definition tstep (s : rstate) : outcome :=
  match t_pc s with
  | T_Running =>
      if sigusr2_pending s then Next (set_t (set_pending s false) T_Entry)
      else Stuck
  | T_Entry =>
      if has_task s then Next (set_t s T_Claim) else Next (set_t s T_Running)
  | T_Claim =>
      let request := signal_request s in
      Next (set_t (set_request s (-1))
                  (if request =? 1 then T_Lock else T_Clear request))
  | T_Lock => acquire Target s (fun s => set_t s T_Publish)
  | T_Publish => Next (set_t (set_context s (Some TargetContext)) T_Ack)
  | T_Ack =>
      if signal_request s =? -1 then Next (set_t (set_request s 0) T_BroadcastCaught1)
      else Fail
  | T_BroadcastCaught1 => Next (set_t (broadcast_caught s) T_WaitExit)
  | T_WaitExit => release Target s (fun s => set_t s T_ExitSleep)
  | T_ExitSleep => Stuck
  | T_ExitWake => acquire Target s (fun s => set_t s T_Resume)
  | T_Resume =>
      let request := signal_request s in
      if (request =? 1) || (request =? 3)
      then Next (set_t (set_request s 0) (T_BroadcastCaught2 request))
      else Fail
  | T_BroadcastCaught2 request => Next (set_t (broadcast_caught s) (T_Unlock request))
  | T_Unlock request => release Target s (fun s => set_t s (T_Tail request))
  | T_Clear request => Next (set_t (set_request s 0) (T_Tail request))
  | T_Tail request =>
      if request =? 2 then Next (set_t s T_Sigint)
      else if request =? 3 then Next (set_t s T_ExitCb)
      else Next (set_t s T_Running)
  | T_Sigint => Next (set_t s T_Running)
  | T_ExitCb => Stuck
  end.

(** The scheduler runs one of the two; or the listener's timed wait runs
    out; or the listener, back in its loop, turns to the same thread
    again, after a suspension that returned [NULL] or after a resumption;
    or a wait on a condition returns without a broadcast, which POSIX
    permits ([pthread_cond_timedwait] then returns 0, as after a
    broadcast). *)
Inductive move : Type :=
| Run (p : party)
| Timeout
| NextRound
| Spurious (p : party).

Definition step_core (exit_req : bool) (m : move) (s : rstate) : outcome :=
  match m with
  | Run Listener => lstep exit_req s
  | Run Target => tstep s
  | Timeout =>
      match l_pc s with
      | L_TimedSleep => Next (set_l s (L_TimedWake true))
      | _ => Stuck
      end
  | NextRound =>
      match l_pc s with
      | L_Returned None | L_Done => Next (set_l s L_Start)
      | _ => Stuck
      end
  | Spurious Listener =>
      match l_pc s with
      | L_TimedSleep => Next (set_l s (L_TimedWake false))
      | L_Wait2Sleep => Next (set_l s L_Wait2Wake)
      | L_ResumeSleep => Next (set_l s L_ResumeWake)
      | _ => Stuck
      end
  | Spurious Target =>
      match t_pc s with
      | T_ExitSleep => Next (set_t s T_ExitWake)
      | _ => Stuck
      end
  end.

(** Rounds of [jl_thread_suspend_and_get_state(tid, &ctx)] followed, if
    [ctx] is not [NULL], by [jl_thread_resume(tid, sig)]. *)
Definition step (sig : Z) : move -> rstate -> outcome := step_core (sig =? -1).

Fixpoint run_core (exit_req : bool) (sched : list move) (s : rstate) : outcome :=
  match sched with
  | [] => Next s
  | m :: sched' =>
      match step_core exit_req m s with
      | Next s' => run_core exit_req sched' s'
      | Stuck => run_core exit_req sched' s
      | Fail => Fail
      end
  end.

Definition run (sig : Z) : list move -> rstate -> outcome := run_core (sig =? -1).

(** Before the first round: nothing requested, nobody in the handler. *)
Definition init (task : bool) : rstate :=
  mkR 0 None None false task L_Start T_Running.

(** The moves of a single round and of any number of rounds in which
    no wait returns without a broadcast or a timeout; the wake-ups
    without either; and all moves, of a single round and of any number. *)
Definition round_moves : list move := [Run Listener; Run Target; Timeout].

Definition moves : list move := round_moves ++ [NextRound].

Definition wake_moves : list move := [Spurious Listener; Spurious Target].

Definition round_moves_all : list move := round_moves ++ wake_moves.

Definition moves_all : list move := moves ++ wake_moves.

(** The states that can be passed through with the moves [ms], found by
    search. *)
Definition succs (exit_req : bool) (ms : list move) (s : rstate) : list rstate :=
  flat_map (fun m => match step_core exit_req m s with
                     | Next s' => [s']
                     | _ => []
                     end) ms.

Fixpoint explore (exit_req : bool) (ms : list move) (fuel : nat)
    (todo seen : list rstate) : list rstate :=
  match fuel with
  | O => seen
  | S fuel' =>
      match todo with
      | [] => seen
      | s :: todo' =>
          if bool_decide (s ∈ seen) then explore exit_req ms fuel' todo' seen
          else explore exit_req ms fuel' (succs exit_req ms s ++ todo') (s :: seen)
      end
  end.

Definition reach_round (exit_req : bool) : list rstate :=
  explore exit_req round_moves 4000 [init true; init false] [].

Definition reach (exit_req : bool) : list rstate :=
  explore exit_req moves 4000 [init true; init false] [].

Definition reach_round_all (exit_req : bool) : list rstate :=
  explore exit_req round_moves_all 4000 [init true; init false] [].

(** A set of states that no move of [ms] leads out of; when [strict], no
    move of [ms] fails an assertion in it either. *)
Definition closed (exit_req strict : bool) (ms : list move) (R : list rstate) : bool :=
  forallb (fun s =>
    forallb (fun m =>
      match step_core exit_req m s with
      | Next s' => bool_decide (s' ∈ R)
      | Stuck => true
      | Fail => negb strict
      end) ms) R.

End Rendezvous.

(** * Vocabulary of the properties *)

Module Props.
Import Safepoint.

(** Counters and protections have one entry per page. *)
Definition wf (s : state) : Prop :=
  length (jl_safepoint_enable_cnt s) = 3%nat /\ length (page_prot s) = 3%nat.

(** The protection that belongs to a counter value. *)
Definition prot_of (c : Z) : prot := if c =? 0 then PROT_READ else PROT_NONE.

(** Slot [idx] has counter [c] and the protection that goes with it. *)
Definition slot_is (s : state) (idx c : Z) : Prop :=
  cnt_at s idx = c /\ prot_at s idx = prot_of c.

(** A sequence of calls on slot [idx] that starts with the counter at
    [c], never takes it below 0 or above 2, and ends with it at the
    value returned. *)
Fixpoint nested (idx c : Z) (cs : list call) : option Z :=
  match cs with
  | [] => Some c
  | Enable i :: cs' =>
      if (i =? idx) && (c <? 2) then nested idx (c + 1) cs' else None
  | Disable i :: cs' =>
      if (i =? idx) && (0 <? c) then nested idx (c - 1) cs' else None
  end.

(** The interrupt level is [lam] and the collector holds [g] of the
    enables of slot 1: slot 0 is enabled once iff an interrupt is
    pending, slot 1 once more iff the level is 2. *)
Definition sigint_state (lam g : Z) (s : state) : Prop :=
  wf s /\ 0 <= lam <= 2 /\ 0 <= g <= 1 /\
  jl_signal_pending s = lam /\
  slot_is s 0 (if 1 <=? lam then 1 else 0) /\
  slot_is s 1 (g + (if lam =? 2 then 1 else 0)).

(** [jl_safepoint_enable_sigint(); jl_safepoint_consume_sigint();] *)
Definition sigint_round : M Z :=
  jl_safepoint_enable_sigint ;; jl_safepoint_consume_sigint.

(** The calls and stores in a trace, without the page protection
    changes they caused. *)
Definition is_mprotect (e : event) : bool :=
  match e with EvMprotect _ _ => true | _ => false end.

Definition calls_of (tr : list event) : list event :=
  List.filter (fun e => negb (is_mprotect e)) tr.

(** An interrupt level 1 state outside a collection. *)
Definition level1 : state :=
  mkState 1 0 [1; 0; 0] [PROT_NONE; PROT_READ; PROT_READ] [].

(** A collection is running in a process with several threads. *)
Definition collecting : state :=
  mkState 0 1 [0; 1; 1] [PROT_READ; PROT_NONE; PROT_NONE] [].

(** Writing [vs] into a buffer from index [i] on. *)
Fixpoint fill (buf : list Z) (i : Z) (vs : list Z) : list Z :=
  match vs with
  | [] => buf
  | v :: vs' => fill (<[Z.to_nat i := v]> buf) (i + 1) vs'
  end.

(** The entries of the profile buffer between two fill levels. *)
Definition written (lo hi : Z) (buf : list Z) : list Z :=
  take (Z.to_nat (hi - lo)) (drop (Z.to_nat lo) buf).


(** What holds in every state of a single rendezvous round. *)
Definition round_ok (exit_req : bool) (s : Rendezvous.rstate) : bool :=
  let req := Rendezvous.signal_request s in
  (match Rendezvous.l_pc s with
   | Rendezvous.L_Returned (Some _) =>
       (req =? 0) && bool_decide (Rendezvous.in_signal_lock s = Some Rendezvous.Listener)
       && bool_decide (Rendezvous.t_pc s = Rendezvous.T_ExitSleep)
   | Rendezvous.L_Returned None =>
       bool_decide (Rendezvous.in_signal_lock s <> Some Rendezvous.Listener)
   | Rendezvous.L_Done => req =? 0
   | Rendezvous.L_Cas | Rendezvous.L_FailUnlock =>
       bool_decide (Rendezvous.in_signal_lock s = Some Rendezvous.Listener)
   | Rendezvous.L_CheckRequest r => (r =? -1) || (r =? 0)
   | Rendezvous.L_Wait2Wake | Rendezvous.L_LoadAck | Rendezvous.L_SetCtx =>
       (req =? 0)
       && bool_decide (Rendezvous.signal_context s = Some Rendezvous.TargetContext)
       && bool_decide (Rendezvous.in_signal_lock s <> Some Rendezvous.Target
                       \/ Rendezvous.t_pc s = Rendezvous.T_WaitExit)
   | _ => true
   end)
  &&
  (match Rendezvous.t_pc s with
   | Rendezvous.T_Resume => req =? (if exit_req then 3 else 1)
   | Rendezvous.T_BroadcastCaught2 r =>
       (r =? (if exit_req then 3 else 1)) && (req =? 0)
   | _ => true
   end).

(** A task of thread 0 whose signal stack starts at 0x7f0000000000 and
    whose task stack lies below 0x7fff00000000; a fault on the master GC
    page of the safepoint pages mapped at 0x10000; a fault 100 bytes into
    the signal stack; a handler entered with the trapped stack pointer on
    the task stack. *)
Definition poll_task : Signals.jl_task :=
  Signals.mkTask 0
    (Signals.mkTls 0 0 0 0 4660 139637976727552 140733193388032 8388608) 1 0 0.

Definition poll_fault : Signals.siginfo := Signals.mkSiginfo (65536 + 4096) 1.

Definition sigstack_fault : Signals.siginfo :=
  Signals.mkSiginfo (139637976727552 + 100) 1.

Definition handler_start : Signals.hstate :=
  Signals.mkH Safepoint.init (Signals.mkUcontext 140733193383936 4198400 4) [].

(** The same, with the trapped stack pointer on the signal stack. *)
Definition handler_on_sigstack : Signals.hstate :=
  Signals.mkH Safepoint.init (Signals.mkUcontext (139637976727552 + 4096) 4198400 4) [].


Definition sample_env : Listener.sample_env :=
  Listener.mkEnv (Some 140733193383936) (fun _ => Some [111; 222]) 987654 5000.




(** What holds, in every state of any number of rounds, when the
    listener's timed wait has run out and after its second wait. *)
Definition timeout_ok (exit_req : bool) (s : Rendezvous.rstate) : bool :=
  let req := Rendezvous.signal_request s in
  let L := Rendezvous.Run Rendezvous.Listener in
  let T := Rendezvous.Run Rendezvous.Target in
  match Rendezvous.l_pc s with
  | Rendezvous.L_Cas =>
      bool_decide (Rendezvous.in_signal_lock s = Some Rendezvous.Listener) &&
      if req =? 1 then
        match Rendezvous.run_core exit_req [L; L] s with
        | Rendezvous.Next s' =>
            bool_decide (Rendezvous.l_pc s' = Rendezvous.L_Returned None)
            && bool_decide (Rendezvous.in_signal_lock s' = None)
            && (Rendezvous.signal_request s' =? 0)
        | _ => false
        end
      else if req =? -1 then
        match Rendezvous.run_core exit_req [L; L; L] s with
        | Rendezvous.Next s' =>
            bool_decide (Rendezvous.l_pc s' = Rendezvous.L_Wait2Sleep)
            && bool_decide (Rendezvous.in_signal_lock s' = None)
            && (Rendezvous.signal_request s' =? -1)
        | _ => false
        end
      else req =? 0
  | Rendezvous.L_Wait2Wake =>
      match Rendezvous.run_core exit_req [T; L; L; L] s with
      | Rendezvous.Next s' =>
          bool_decide (Rendezvous.l_pc s' =
                       Rendezvous.L_Returned (Some Rendezvous.TargetContext))
          && (Rendezvous.signal_request s' =? 0)
      | _ => false
      end
  | _ => true
  end.

(** The listener is dispatching signal 10 (SIGUSR1) to a target that
    has a current task.  Schedules that take the first round to the point
    where the target is suspended, to its end, and to the
    compare-and-swap after a timeout. *)
Definition to_suspended : list Rendezvous.move :=
  (Rendezvous.Run <$> replicate 6 Rendezvous.Listener)
  ++ (Rendezvous.Run <$> replicate 8 Rendezvous.Target)
  ++ (Rendezvous.Run <$> replicate 3 Rendezvous.Listener).

Definition to_done : list Rendezvous.move :=
  to_suspended
  ++ (Rendezvous.Run <$> replicate 4 Rendezvous.Listener)
  ++ (Rendezvous.Run <$> replicate 4 Rendezvous.Target)
  ++ (Rendezvous.Run <$> replicate 3 Rendezvous.Listener).

Definition to_cas : list Rendezvous.move :=
  (Rendezvous.Run <$> replicate 6 Rendezvous.Listener)
  ++ [Rendezvous.Timeout; Rendezvous.Run Rendezvous.Listener].

(** A request that timed out leaves its SIGUSR2 behind.  The first round
    times out and is cancelled by the compare-and-swap; the signal is
    then delivered and [usr2_handler] entered; before the handler's first
    exchange the listener starts the next round for the same thread
    (store 1, [pthread_kill]), so that a second SIGUSR2 is pending while
    the handler serves the round; the round runs to the handler's unlock
    and return; the second SIGUSR2 enters the handler again, whose
    exchange puts -1 into the word before the listener, woken in
    [jl_thread_resume], has looked at it. *)
Definition stale_signal : list Rendezvous.move :=
  (* round 1: request, timeout, cancel *)
  to_cas ++ (Rendezvous.Run <$> replicate 2 Rendezvous.Listener)
  ++ [Rendezvous.NextRound]
  (* the stale SIGUSR2 is delivered *)
  ++ [Rendezvous.Run Rendezvous.Target]
  (* round 2: lock, store 1, kill, wait *)
  ++ (Rendezvous.Run <$> replicate 6 Rendezvous.Listener)
  (* the handler claims the request, publishes, acknowledges, parks *)
  ++ (Rendezvous.Run <$> replicate 7 Rendezvous.Target)
  (* the listener returns the context and resumes the target *)
  ++ (Rendezvous.Run <$> replicate 7 Rendezvous.Listener)
  (* the handler leaves; the pending SIGUSR2 enters it again; exchange *)
  ++ (Rendezvous.Run <$> replicate 8 Rendezvous.Target)
  (* the listener takes the lock again *)
  ++ [Rendezvous.Run Rendezvous.Listener].

(** The left-over signal can also make the listener wait for a handler
    that has nothing to tell it.  The first round times out and is
    cancelled as before; the left-over SIGUSR2 enters [usr2_handler],
    whose exchange finds 0 and leaves -1; the listener starts the next
    round over it (store 1, [pthread_kill], timed wait); the handler's
    [exchange(&signal_request, 0)] wipes the 1 out and the handler
    returns; the second SIGUSR2 enters the handler again, whose exchange
    finds 0 and leaves -1; now the listener's timed wait runs out
    ([stale_to_cas]).  Then the compare-and-swap fails on the -1, the
    listener goes into its second wait, and the handler puts 0 back and
    returns ([stale_hang]). *)
Definition to_timeout : list Rendezvous.move :=
  (Rendezvous.Run <$> replicate 5 Rendezvous.Listener)
  ++ [Rendezvous.Timeout; Rendezvous.Run Rendezvous.Listener].

Definition stale_to_cas : list Rendezvous.move :=
  (* round 1: request, timeout, cancel *)
  to_timeout ++ (Rendezvous.Run <$> replicate 2 Rendezvous.Listener)
  ++ [Rendezvous.NextRound]
  (* the stale SIGUSR2 is delivered; the first exchange finds 0 *)
  ++ (Rendezvous.Run <$> replicate 3 Rendezvous.Target)
  (* round 2: lock, store 1, kill, timed wait *)
  ++ (Rendezvous.Run <$> replicate 5 Rendezvous.Listener)
  (* the handler puts 0 back and returns; the pending SIGUSR2 enters it
     again; its first exchange finds 0 *)
  ++ (Rendezvous.Run <$> replicate 5 Rendezvous.Target)
  (* the timed wait runs out; the listener takes the lock again *)
  ++ [Rendezvous.Timeout; Rendezvous.Run Rendezvous.Listener].

Definition stale_hang : list Rendezvous.move :=
  stale_to_cas
  (* the swap fails on -1; the listener waits on the caught condition *)
  ++ (Rendezvous.Run <$> replicate 3 Rendezvous.Listener)
  (* the handler puts 0 back and returns *)
  ++ (Rendezvous.Run <$> replicate 2 Rendezvous.Target).

Definition state_after (sig : Z) (sched : list Rendezvous.move) : Rendezvous.rstate :=
  match Rendezvous.run sig sched (Rendezvous.init true) with
  | Rendezvous.Next s => s
  | _ => Rendezvous.init true
  end.

(** The round trip of the request word, at a state [s] of a round in
    which the listener resumes the target with [sig]. *)
Definition round_trip (sig : Z) (s : Rendezvous.rstate) : Prop :=
  let L := Rendezvous.Run Rendezvous.Listener in
  let T := Rendezvous.Run Rendezvous.Target in
  (* the suspension has returned a context: the word is 0 *)
  (forall c, Rendezvous.l_pc s = Rendezvous.L_Returned (Some c) ->
             Rendezvous.signal_request s = 0) /\
  (* the resumption has returned: the word is 0 *)
  (Rendezvous.l_pc s = Rendezvous.L_Done -> Rendezvous.signal_request s = 0) /\
  (* the resumption stores 3 for sig == -1 and 1 otherwise *)
  (Rendezvous.l_pc s = Rendezvous.L_ResumeStore ->
     exists s', Rendezvous.step sig L s = Rendezvous.Next s' /\
                Rendezvous.signal_request s' = (if sig =? -1 then 3 else 1)) /\
  (* woken from the exit wait, the handler finds 1 or 3, puts 0 back and
     broadcasts the caught condition *)
  (Rendezvous.t_pc s = Rendezvous.T_Resume ->
     (Rendezvous.signal_request s = 1 \/ Rendezvous.signal_request s = 3) /\
     Rendezvous.signal_request s = (if sig =? -1 then 3 else 1) /\
     exists s1,
       Rendezvous.step sig T s = Rendezvous.Next s1 /\
       Rendezvous.signal_request s1 = 0 /\
       Rendezvous.t_pc s1 =
         Rendezvous.T_BroadcastCaught2 (Rendezvous.signal_request s) /\
       Rendezvous.step sig T s1 =
         Rendezvous.Next
           (Rendezvous.set_t (Rendezvous.broadcast_caught s1)
              (Rendezvous.T_Unlock (Rendezvous.signal_request s)))) /\
  (* no assertion of either side fails *)
  (forall m, Rendezvous.step sig m s <> Rendezvous.Fail).

(** The listener after its timed wait has run out, at a state [s] of a
    round. *)
Definition timed_out (sig : Z) (s : Rendezvous.rstate) : Prop :=
  let L := Rendezvous.Run Rendezvous.Listener in
  let T := Rendezvous.Run Rendezvous.Target in
  (Rendezvous.l_pc s = Rendezvous.L_Cas ->
     Rendezvous.in_signal_lock s = Some Rendezvous.Listener /\
     (* the word is still 1: the swap to 0 succeeds, the context is NULL
        and the lock is released *)
     (Rendezvous.signal_request s = 1 ->
        exists s', Rendezvous.run sig [L; L] s = Rendezvous.Next s' /\
                   Rendezvous.l_pc s' = Rendezvous.L_Returned None /\
                   Rendezvous.in_signal_lock s' = None /\
                   Rendezvous.signal_request s' = 0) /\
     (* the swap fails and leaves the word as it is *)
     (Rendezvous.signal_request s <> 1 ->
        exists s', Rendezvous.step sig L s = Rendezvous.Next s' /\
                   Rendezvous.signal_request s' = Rendezvous.signal_request s /\
                   Rendezvous.l_pc s' =
                     Rendezvous.L_CheckRequest (Rendezvous.signal_request s)) /\
     (* the word is -1: the listener waits again on the caught condition *)
     (Rendezvous.signal_request s = -1 ->
        exists s', Rendezvous.run sig [L; L; L] s = Rendezvous.Next s' /\
                   Rendezvous.l_pc s' = Rendezvous.L_Wait2Sleep /\
                   Rendezvous.in_signal_lock s' = None /\
                   Rendezvous.signal_request s' = -1)) /\
  (* woken from that second wait, it returns the captured context with
     the word at 0, once the target has let go of the lock *)
  (Rendezvous.l_pc s = Rendezvous.L_Wait2Wake ->
     exists s', Rendezvous.run sig [T; L; L; L] s = Rendezvous.Next s' /\
                Rendezvous.l_pc s' =
                  Rendezvous.L_Returned (Some Rendezvous.TargetContext) /\
                Rendezvous.signal_request s' = 0).

(** In the sampling loop a thread whose suspension returned NULL is
    passed over: nothing is recorded and it is not resumed. *)
Definition sample_skipped : Prop :=
  forall max_bt n full critical profile sig i ptls2 env p,
    Listener.signal_context env = None ->
    Listener.sample_thread max_bt n full critical profile sig i ptls2 env p =
      Ok (true, Listener.mkP (Listener.running p) (Listener.bt_size_cur p)
                (Listener.bt_size_max p) (Listener.bt_data_prof p)
                (Listener.bt_data p) (Listener.bt_size p)
                (Listener.last_timer_delete_time p)
                (Listener.plog p ++ [Listener.PSuspend i])).

End Props.

(** * Vocabulary of the GC rendezvous *)

Module GCProps.
Import Safepoint GC.

(** Counters and protections of the three pages. *)
Definition pages (s : shared) : list Z * list prot :=
  (jl_safepoint_enable_cnt (sp s), page_prot (sp s)).

Definition idle_pages : list Z * list prot :=
  ([0; 0; 0], [PROT_READ; PROT_READ; PROT_READ]).

Definition gc_pages : list Z * list prot :=
  ([0; 1; 1], [PROT_READ; PROT_NONE; PROT_NONE]).

Definition master_only : list Z * list prot :=
  ([0; 1; 0], [PROT_READ; PROT_NONE; PROT_READ]).

(** The pages as the thread that holds the collection has them at each
    of its program points. *)
Definition pages_at (p : pc) : list Z * list prot :=
  match p with
  | StartEnable2 | EndDisable1 => master_only
  | StartWinUnlock | Returned | EndEntry | EndLock | EndDisable2 => gc_pages
  | _ => idle_pages
  end.

(** [retval] is set exactly when [jl_safepoint_start_gc] has returned,
    and only a thread that got 1 goes on to [jl_safepoint_end_gc]. *)
Definition retval_ok (th : thread) : bool :=
  match at_pc th with
  | Returned =>
      match retval th with
      | Some r => (r =? 0) || (r =? 1)
      | None => false
      end
  | EndEntry | EndLock | EndDisable2 | EndDisable1 | EndStore | EndUnlock
  | EndBroadcast | Finished =>
      match retval th with
      | Some r => r =? 1
      | None => false
      end
  | _ =>
      match retval th with
      | Some _ => false
      | None => true
      end
  end.

(** What holds of one thread [t] in state [th] against the shared state. *)
Definition thread_ok (s : shared) (t : nat) (th : thread) : Prop :=
  gc_state th = JL_GC_STATE_WAITING /\
  (holds_lock th = true <-> safepoint_lock s = Some t) /\
  (holds_gc th = true ->
     jl_gc_running (sp s) = 1 /\ pages s = pages_at (at_pc th)) /\
  retval_ok th = true.

Definition shared_ok (s : shared) : Prop :=
  (jl_gc_running (sp s) = 0 \/ jl_gc_running (sp s) = 1) /\
  (jl_gc_running (sp s) = 0 -> pages s = idle_pages).

(** The invariant of the rendezvous with more than one thread. *)
Definition inv (g : gstate) : Prop :=
  shared_ok (sh g) /\
  (jl_gc_running (sp (sh g)) = 1 ->
     exists t th, threads g !! t = Some th /\ holds_gc th = true) /\
  (forall t th, threads g !! t = Some th -> thread_ok (sh g) t th) /\
  (forall t t' th th',
     threads g !! t = Some th -> threads g !! t' = Some th' ->
     holds_gc th = true -> holds_gc th' = true -> t = t').

(** How one step of a thread moves the collection: the thread wins it,
    gives it up, or leaves it where it is. *)
Definition gc_step (th th' : thread) (s s' : shared) : Prop :=
  (holds_gc th = false /\ holds_gc th' = true /\
   jl_gc_running (sp s) = 0 /\ jl_gc_running (sp s') = 1 /\ pages s' = pages s)
  \/
  (holds_gc th = true /\ holds_gc th' = false /\
   jl_gc_running (sp s') = 0 /\ pages s' = idle_pages)
  \/
  (holds_gc th' = holds_gc th /\
   jl_gc_running (sp s') = jl_gc_running (sp s) /\
   (holds_gc th = false -> pages s' = pages s)).

(** The threads after thread [t] has moved to [th'], the sleepers woken
    or not. *)
Definition updated (ths : list thread) (t : nat) (th' : thread) (w : bool) :=
  <[t := th']> (if w then wake <$> ths else ths).

(** Thread [t] of [g] is in state [th]. *)
Definition thread_at (g : gstate) (t : nat) (th : thread) : Prop :=
  threads g !! t = Some th.




(** Three threads call; thread 0 has just taken the lock. *)
Definition contended : list move := [Run 1%nat; Run 2%nat; Run 0%nat; Run 0%nat].

Definition gstate_after (n : Z) (k : nat) (sched : list move) : gstate :=
  match run n sched (ginit k) with
  | Next g => g
  | _ => ginit k
  end.

End GCProps.

(** * Further vocabulary of the safepoint pages *)

Module PageProps.
Import Safepoint Props.

(** The slot a call works on. *)
Definition call_idx (c : call) : Z :=
  match c with Enable idx => idx | Disable idx => idx end.

(** The counters are bytes. *)
Definition bytes (s : state) : Prop :=
  Forall (fun c => 0 <= c < 256) (jl_safepoint_enable_cnt s).

(** Two states that differ at most in their traces. *)
Definition same_pages (s s' : state) : Prop :=
  jl_signal_pending s' = jl_signal_pending s /\
  jl_gc_running s' = jl_gc_running s /\
  jl_safepoint_enable_cnt s' = jl_safepoint_enable_cnt s /\
  page_prot s' = page_prot s.

(** An interrupt is pending at level 2 while a collection runs. *)
Definition interrupted_gc : state :=
  mkState 2 1 [1; 2; 1] [PROT_NONE; PROT_NONE; PROT_NONE] [].

End PageProps.

(** * Further vocabulary of the GC rendezvous *)

Module WakeProps.
Import Safepoint GC GCProps.

(** Asleep in [uv_cond_wait]. *)
Definition sleeping (th : thread) : bool :=
  match at_pc th with WaitCond => true | _ => false end.

(** Past the store of 0 into [jl_gc_running] in [jl_safepoint_end_gc]
    and not yet past the broadcast. *)
Definition about_to_broadcast (th : thread) : bool :=
  match at_pc th with EndUnlock | EndBroadcast => true | _ => false end.

(** No sleeper is left behind: while a thread sleeps, a collection is
    running or a broadcast is still to come. *)
Definition wakeup_pending (g : gstate) : Prop :=
  (exists t th, threads g !! t = Some th /\ sleeping th = true) ->
  jl_gc_running (sp (sh g)) <> 0 \/
  exists t th, threads g !! t = Some th /\ about_to_broadcast th = true.

(** Thread 0 wins the election and returns 1; thread 1 loses it and
    goes to sleep in [jl_safepoint_wait_gc]. *)
Definition asleep : list move :=
  replicate 6 (Run 0%nat) ++ replicate 8 (Run 1%nat).

End WakeProps.

(** ** src/signals-unix.c: what the listener does with a signal

    The head of the loop of [signal_listener], which decides what a
    signal taken from [sigwaitinfo] is for, and the code that delivers an
    interrupt or an exit request to thread 0: [jl_try_deliver_sigint],
    [jl_exit_thread0] and [jl_exit_thread0_cb]. *)

Module Thread0.

(** Linux values of the signal numbers and codes compared against. *)
Definition SIGINT : Z := 2.
Definition SIGQUIT : Z := 3.
Definition SIGABRT : Z := 6.
Definition SIGUSR1 : Z := 10.
Definition SIGUSR2 : Z := 12.
Definition SIGTERM : Z := 15.
Definition SI_TIMER : Z := -2.
Definition EINTR : Z := 4.

(** What [sigwaitinfo] handed back: its return value, [errno], and of
    [info] the code and whether [si_value.sival_ptr] is [&timerprof]. *)
Record sigwait : Type := mkSigwait {
  sw_sig : Z;
  sw_errno : Z;
  sw_code : Z;
  sw_timerprof : bool
}.

(** How an iteration of the loop goes on: back to [sigwaitinfo] with
    nothing done, back to it after [jl_try_deliver_sigint], or on to the
    sampling pass with these values of [sig], [critical], [profile] and
    [doexit], after [trigger_profile_peek] if [peek]. *)
Inductive verdict : Type :=
| Continue
| Deliver
| Handle (sig critical profile doexit : Z) (peek : bool).

(** The loop of [signal_listener] from [sigwaitinfo] to [bt_size = 0]
    ([HAVE_TIMER], POSIX.1b signals, no [SIGINFO], no kqueue).
    [ignore_sigint] is [jl_ignore_sigint()] and [grace] is
    [timer_graceperiod_elapsed()]; [exit_on_sigint] and [running] are the
    globals. *)
Definition dispatch (w : sigwait) (ignore_sigint : bool)
    (exit_on_sigint running : Z) (grace : bool) : verdict :=
  let sig := sw_sig w in
  if (sig =? -1) && (sw_errno w =? EINTR) then Continue
  else
    let sig := if sig =? -1 then SIGABRT else sig in
    let profile := Z.b2z (sig =? SIGUSR1) in
    let profile :=
      if negb (profile =? 0)
         && negb ((sw_code w =? SI_TIMER) && sw_timerprof w)
      then 0 else profile in
    let rest (critical : Z) : verdict :=
      let critical := Z.lor critical (Z.b2z (sig =? SIGTERM)) in
      let critical := Z.lor critical (Z.b2z (sig =? SIGABRT)) in
      let critical := Z.lor critical (Z.b2z (sig =? SIGQUIT)) in
      let critical :=
        Z.lor critical (Z.b2z ((sig =? SIGUSR1) && (profile =? 0))) in
      let doexit := critical in
      if sig =? SIGUSR1 then
        Handle sig critical profile 0 (negb (running =? 1) && grace)
      else
        Handle sig critical profile doexit false in
    if sig =? SIGINT then
      if ignore_sigint then Continue
      else if negb (exit_on_sigint =? 0) then rest 1
      else Deliver
    else rest 0.

(** What the listener does to thread 0 and to the process. *)
Inductive xaction : Type :=
| XWakeLibuv                          (* jl_wake_libuv() *)
| XKill (sig : Z)                     (* pthread_kill(ptls2->system_id, sig) *)
| XSuspend (tid : Z)                  (* jl_thread_suspend_and_get_state *)
| XResume (tid sig : Z)               (* jl_thread_resume *)
| XCriticalError (sig : Z)            (* jl_critical_error(sig, NULL, ..) *)
| XJlExit (status : Z)                (* jl_exit(status) *)
| XExit (status : Z)                  (* exit(status) *)
| XExitNow (status : Z)               (* _exit(status) *)
| XPrintBacktrace (sig : Z).          (* "signal (%d): %s" and the frames *)

(** The safepoint globals, thread 0's request word and backtrace
    buffer, and the exit bookkeeping. *)
Record xstate : Type := mkX {
  x_sp : Safepoint.state;
  signal_request : Z;                 (* jl_all_tls_states[0]->signal_request *)
  thread0_exit_state : Z;
  thread0_exit_count : Z;
  ptls_bt_size : Z;                   (* jl_all_tls_states[0]->bt_size *)
  ptls_bt_data : list Z;              (* jl_all_tls_states[0]->bt_data *)
  xlog : list xaction                 (* oldest first *)
}.

Definition X (A : Type) : Type := xstate -> result (A * xstate).

#[global] Instance X_bind : MBind X := fun A B k m x =>
  match m x with
  | Ok (a, x') => k a x'
  | AssertFail => AssertFail
  end.

Definition xact (a : xaction) : X unit := fun x =>
  Ok (tt, mkX (x_sp x) (signal_request x) (thread0_exit_state x)
              (thread0_exit_count x) (ptls_bt_size x) (ptls_bt_data x)
              (xlog x ++ [a])).

Definition xlift {A} (m : Safepoint.M A) : X A := fun x =>
  match m (x_sp x) with
  | Ok (a, s') =>
      Ok (a, mkX s' (signal_request x) (thread0_exit_state x)
                 (thread0_exit_count x) (ptls_bt_size x) (ptls_bt_data x)
                 (xlog x))
  | AssertFail => AssertFail
  end.

Definition store_request (v : Z) : X unit := fun x =>
  Ok (tt, mkX (x_sp x) v (thread0_exit_state x) (thread0_exit_count x)
              (ptls_bt_size x) (ptls_bt_data x) (xlog x)).




Definition xget {A} (f : xstate -> A) : X A := fun x => Ok (f x, x).

(** [static void jl_try_deliver_sigint(void)] *)
Definition jl_try_deliver_sigint : X unit :=
  xlift Safepoint.jl_safepoint_enable_sigint ;;
  xact XWakeLibuv ;;
  store_request 2 ;;
  xact (XKill SIGUSR2).

(** [static void jl_exit_thread0_cb(void)]; it does not return. *)
Definition jl_exit_thread0_cb : X unit :=
  count ← xget thread0_exit_count;
  state ← xget thread0_exit_state;
  if count <=? 1 then
    xact (XCriticalError (state - 128)) ;;
    xact (XJlExit state)
  else if count =? 2 then xact (XExit state)
  else xact (XExitNow state).




End Thread0.

(** ** src/signals-unix.c: the requests 2 and 3 in [usr2_handler] *)

Module Usr2.
Import Signals.

Section Tail.

Variable jl_page_size : Z.
Variable jl_sig_throw_addr : Z.
Variable jl_exit_thread0_cb_addr : Z.

(** The end of [usr2_handler], from [if (request == 2)] on, for the
    value of [request] that the handler got from its exchanges.
    [safe_restore] is [jl_get_safe_restore() != NULL] and [force] is
    [jl_check_force_sigint() != 0]. *)
Definition usr2_handler_tail (safe_restore force : bool) (ct : jl_task)
    (request sig : Z) : H outcome :=
  if request =? 2 then
    if force || (negb (negb (defer_signal (ptls ct) =? 0))
                 && negb (io_wait (ptls ct) =? 0)) then
      lift Safepoint.jl_safepoint_consume_sigint ;;
      (if force then act (APrintf MsgForceSigint) else mret tt) ;;
      jl_clear_force_sigint ;;
      jl_throw_in_ctx jl_page_size jl_sig_throw_addr safe_restore ct
                      jl_interrupt_exception sig
    else mret Returned
  else if request =? 3 then
    jl_call_in_ctx jl_page_size (Some (ptls ct)) jl_exit_thread0_cb
                   jl_exit_thread0_cb_addr sig
  else mret Returned.

End Tail.

(** Thread 0 asleep in a system call, with signals not deferred; the
    same thread computing. *)
Definition waiting_task : jl_task :=
  mkTask 0 (mkTls 0 0 1 0 4660 139637976727552 140733193388032 8388608) 1 0 0.

Definition busy_task : jl_task :=
  mkTask 0 (mkTls 0 0 0 0 4660 139637976727552 140733193388032 8388608) 1 0 0.

(** Thread 0 computing with signals deferred. *)
Definition deferring_task : jl_task :=
  mkTask 0 (mkTls 0 1 0 0 4660 139637976727552 140733193388032 8388608) 1 0 0.

(** The handler entered while an interrupt is pending at level 2. *)
Definition handler_at_level2 : hstate :=
  mkH (Safepoint.mkState 2 0 [1; 1; 0]
         [Safepoint.PROT_NONE; Safepoint.PROT_NONE; Safepoint.PROT_READ] [])
      (mkUcontext 140733193383936 4198400 4) [].

End Usr2.

(** * Further vocabulary of the signal rendezvous *)

Module RoundProps.
Import Rendezvous.

(** Where each side is between its [pthread_mutex_lock] and its
    [pthread_mutex_unlock], the waits on a condition excepted. *)
Definition l_locked (p : lpc) : bool :=
  match p with
  | L_StoreRequest | L_Kill | L_TimedWait | L_Cas | L_FailUnlock
  | L_CheckRequest _ | L_Wait2 | L_LoadAck | L_SetCtx | L_Returned (Some _)
  | L_ResumeStore | L_ResumeBroadcast | L_ResumeWait | L_ResumeLoad
  | L_ResumeUnlock => true
  | _ => false
  end.

Definition t_locked (p : tpc) : bool :=
  match p with
  | T_Publish | T_Ack | T_BroadcastCaught1 | T_WaitExit | T_Resume
  | T_BroadcastCaught2 _ | T_Unlock _ => true
  | _ => false
  end.

(** [in_signal_lock] is held by the side that is in its locked region,
    and the two are never there together. *)
Definition lock_ok (s : rstate) : bool :=
  bool_decide (in_signal_lock s =
               if l_locked (l_pc s) then Some Listener
               else if t_locked (t_pc s) then Some Target else None)
  && negb (l_locked (l_pc s) && t_locked (t_pc s)).

(** The target is inside the [pthread_cond_wait] of its handler: asleep
    on the exit condition, or woken from it and waiting for the lock. *)
Definition in_exit_wait (p : tpc) : bool :=
  match p with
  | T_ExitSleep | T_ExitWake => true
  | _ => false
  end.

(** While the listener has the context, the target is parked. *)
Definition parked (s : rstate) : bool :=
  match l_pc s with
  | L_Returned (Some _) | L_ResumeStore =>
      in_exit_wait (t_pc s)
      && bool_decide (in_signal_lock s = Some Listener)
      && bool_decide (signal_context s = Some TargetContext)
  | _ => true
  end.

(** The request that the handler finds when it is resumed, and where the
    target is once [jl_thread_resume] has returned. *)
Definition resumed_ok (exit_req : bool) (s : rstate) : bool :=
  let r := if exit_req then 3 else 1 in
  (match t_pc s with
   | T_ExitCb => exit_req
   | T_BroadcastCaught2 r' | T_Unlock r' => r' =? r
   | T_Tail r' | T_Clear r' => (r' =? r) || (r' =? 0)
   | T_Sigint => false
   | _ => true
   end)
  &&
  (match l_pc s with
   | L_Done =>
       bool_decide (t_pc s = T_Unlock r) || bool_decide (t_pc s = T_Tail r)
       || bool_decide (t_pc s = if exit_req then T_ExitCb else T_Running)
   | _ => true
   end).

(** Some move of [ms] can be made. *)
Definition enabled (exit_req : bool) (ms : list move) (s : rstate) : bool :=
  existsb (fun m => match step_core exit_req m s with
                    | Next _ => true
                    | _ => false
                    end) ms.

(** The round is over: the listener is back from the suspension with
    [NULL] or from the resumption, the lock is free, the request word is
    0, and the target is out of the handler with no signal pending, or in
    the exit callback. *)
Definition over (s : rstate) : bool :=
  (bool_decide (l_pc s = L_Done) || bool_decide (l_pc s = L_Returned None))
  && bool_decide (in_signal_lock s = None)
  && (signal_request s =? 0)
  && ((bool_decide (t_pc s = T_Running) && negb (sigusr2_pending s))
      || bool_decide (t_pc s = T_ExitCb)).

Definition live (exit_req : bool) (s : rstate) : bool :=
  enabled exit_req round_moves s || over s.

(** A thread without a current task never serves a request: the
    listener gets no further than the load after its timed wait, which
    it reaches only when that wait returned without a broadcast and
    before its time. *)
Definition idle_target (s : rstate) : bool :=
  has_task s ||
  (match l_pc s with
   | L_Start | L_Lock | L_StoreRequest | L_Kill | L_TimedWait | L_TimedSleep
   | L_TimedWake _ | L_Cas | L_FailUnlock | L_LoadAck
   | L_Returned None => true
   | _ => false
   end
   && match t_pc s with T_Running | T_Entry => true | _ => false end
   && bool_decide (signal_context s = None)
   && ((signal_request s =? 0) || (signal_request s =? 1))).

(** An upper bound on the steps that are left of a round. *)
Definition l_rank (p : lpc) : nat :=
  match p with
  | L_Start => 24 | L_Lock => 23 | L_StoreRequest => 22 | L_Kill => 21
  | L_TimedWait => 20 | L_TimedSleep => 19 | L_TimedWake _ => 18
  | L_Cas => 17 | L_FailUnlock => 16 | L_CheckRequest _ => 16
  | L_Wait2 => 15 | L_Wait2Sleep => 14 | L_Wait2Wake => 13
  | L_LoadAck => 12 | L_SetCtx => 11 | L_Returned _ => 10
  | L_ResumeStore => 9 | L_ResumeBroadcast => 8 | L_ResumeWait => 7
  | L_ResumeSleep => 6 | L_ResumeWake => 5 | L_ResumeLoad => 4
  | L_ResumeUnlock => 3 | L_Done => 0
  end%nat.

Definition t_rank (s : rstate) : nat :=
  match t_pc s with
  | T_Running =>
      if sigusr2_pending s || Nat.leb 21 (l_rank (l_pc s)) then 20 else 0
  | T_Entry => 19 | T_Claim => 18 | T_Lock => 17 | T_Publish => 16
  | T_Ack => 15 | T_BroadcastCaught1 => 14 | T_WaitExit => 13
  | T_ExitSleep => 12 | T_ExitWake => 11 | T_Resume => 10
  | T_BroadcastCaught2 _ => 9 | T_Unlock _ => 8 | T_Clear _ => 8
  | T_Tail _ => 7 | T_Sigint => 6 | T_ExitCb => 1
  end%nat.

Definition rank (s : rstate) : nat := (l_rank (l_pc s) + t_rank s)%nat.

(** Every move that can be made lowers the rank. *)
Definition decreasing (exit_req : bool) (R : list rstate) : bool :=
  forallb (fun s =>
    forallb (fun m =>
      match step_core exit_req m s with
      | Next s' => Nat.ltb (rank s') (rank s)
      | _ => true
      end) round_moves_all) R.

(** The moves of a schedule that were made, not skipped. *)
Fixpoint steps_made (exit_req : bool) (sched : list move) (s : rstate) : nat :=
  match sched with
  | [] => 0
  | m :: sched' =>
      match step_core exit_req m s with
      | Next s' => S (steps_made exit_req sched' s')
      | _ => steps_made exit_req sched' s
      end
  end.

(** The states that rounds with a target without a current task pass
    through, found by search. *)
Definition reach_idle (exit_req : bool) : list rstate :=
  explore exit_req moves_all 4000 [init false] [].

(** The same when no wait of the listener returns without a broadcast
    or a timeout. *)
Definition calm_moves : list move := moves ++ [Spurious Target].

Definition reach_idle_calm (exit_req : bool) : list rstate :=
  explore exit_req calm_moves 4000 [init false] [].

(** At the load after a timed wait that returned early the request is
    still 1. *)
Definition early_load_fails (exit_req : bool) (s : rstate) : bool :=
  match l_pc s with
  | L_LoadAck =>
      match step_core exit_req (Run Listener) s with
      | Fail => true
      | _ => false
      end
  | _ => true
  end.

Definition state_after_idle (sig : Z) (sched : list move) : rstate :=
  match run sig sched (init false) with
  | Next s => s
  | _ => init false
  end.

(** The target is suspended and its wait on the exit condition returns
    without a broadcast. *)
Definition woken_early : list move := Props.to_suspended ++ [Spurious Target].

(** A round run to its end: the handler has returned. *)
Definition to_end : list move := Props.to_done ++ [Run Target].

(** The listener's timed wait returns at once, without a broadcast. *)
Definition early_return : list move :=
  (Run <$> replicate 5 Listener) ++ [Spurious Listener; Run Listener].

(** The listener runs alone until its timed wait has run out and its
    compare-and-swap has cancelled the request. *)
Definition lonely_round : list move :=
  (Run <$> replicate 6 Listener) ++ [Timeout] ++ (Run <$> replicate 3 Listener).

End RoundProps.

(** * Further vocabulary of the sampling loop *)

Module SampleProps.
Import Signals Listener.

(** The suspensions and resumptions in the listener's log. *)
Definition is_handshake (a : paction) : bool :=
  match a with PSuspend _ | PResume _ _ => true | _ => false end.

Definition handshakes (l : list paction) : list paction :=
  List.filter is_handshake l.

(** What sampling thread [i] adds to them. *)
Definition handshake_of (envs : Z -> sample_env) (sig i : Z) : list paction :=
  PSuspend i ::
  match signal_context (envs i) with
  | Some _ => [PResume i sig]
  | None => []
  end.

(** For a thread that hands over its context the unwinder comes back
    when given room for [maxsize] entries. *)
Definition unwinds (maxsize : Z) (env : sample_env) : Prop :=
  is_Some (signal_context env) -> is_Some (rec_backtrace_ctx env maxsize).

(** [rec_backtrace_ctx] never returns more entries than it was given
    room for. *)
Definition bounded_backtraces (envs : Z -> sample_env) (n : Z) : Prop :=
  forall i maxsize bt, 0 <= i < n ->
    rec_backtrace_ctx (envs i) maxsize = Some bt ->
    Z.of_nat (length bt) <= maxsize.

(** Three threads, each handing over its context, the unwinder finding
    two frames in each if there is room for them. *)
Definition three_tls : list jl_tls_states :=
  [mkTls 0 0 0 0 4660 139637976727552 140733193388032 8388608;
   mkTls 1 0 0 0 4661 139637985116160 140733201776640 8388608;
   mkTls 2 0 0 1 4662 139637993504768 140733210165248 8388608].

Definition three_envs (i : Z) : sample_env :=
  mkEnv (Some (140733193383936 + i))
        (fun maxsize => if maxsize <? 0 then None
                        else Some (take (Z.to_nat maxsize) [111; 222]))
        987654 5000.

(** A thread that hands over a context on which the unwinder faults. *)
Definition faulting_env : sample_env :=
  mkEnv (Some 140733193383936) (fun _ => None) 987654 5000.


(** Before a pass for a critical signal. *)
Definition before_pass : pstate :=
  mkP 0 0 16 (replicate 16 0) (replicate 101 0) 0 0 [].

Definition never_full (cur max : Z) : bool := false.

End SampleProps.

(** * Properties of the safepoint pages and of the interrupt level *)

Section SafepointFacts.
Import Safepoint Props.

(** Unfolds the monad down to the state it computes. *)
Ltac run_sp :=
  unfold sigint_round, jl_safepoint_end_gc, jl_safepoint_enable_sigint,
    jl_safepoint_defer_sigint, jl_safepoint_consume_sigint,
    jl_safepoint_enable, jl_safepoint_disable, mbind, M_bind, bind, mret, M_ret,
    ret, assert, emit, get_cnt, set_cnt, mprotect, get_pending, set_pending,
    get_gc_running, set_gc_running, cnt_at, prot_at in *;
  cbn [jl_signal_pending jl_gc_running jl_safepoint_enable_cnt page_prot trace] in *;
  change (Z.to_nat 0) with 0%nat in *; change (Z.to_nat 1) with 1%nat in *;
  change (Z.to_nat 2) with 2%nat in *.

Ltac split_all := repeat match goal with |- _ /\ _ => split end.

(** Names the three counters and protections of a well-formed state. *)
Ltac open_state s Hwf :=
  destruct s as [pending running cnt prt tr];
  destruct Hwf as [Hcnt Hprt]; cbn in Hcnt, Hprt;
  destruct cnt as [|c0 [|c1 [|c2 [|? ?]]]]; try discriminate Hcnt;
  destruct prt as [|p0 [|p1 [|p2 [|? ?]]]]; try discriminate Hprt;
  clear Hcnt Hprt.

Lemma wrap8_small c : 0 <= c < 256 -> wrap8 c = c.
Proof. intros H. unfold wrap8. apply Z.mod_small. lia. Qed.

Lemma enable_ok s idx c :
  wf s -> 0 <= idx < 3 -> slot_is s idx c -> 0 <= c < 2 ->
  exists s', jl_safepoint_enable idx s = Ok (tt, s') /\ wf s' /\
             slot_is s' idx (c + 1) /\
             jl_signal_pending s' = jl_signal_pending s /\
             jl_gc_running s' = jl_gc_running s.
Proof.
  intros Hwf Hidx [Hc Hp] Hrange.
  assert (Hi : idx = 0 \/ idx = 1 \/ idx = 2) by lia.
  assert (Hcc : c = 0 \/ c = 1) by lia.
  open_state s Hwf. unfold slot_is, wf.
  destruct Hi as [-> | [-> | ->]]; run_sp; cbn in Hc, Hp; subst;
    destruct Hcc as [-> | ->]; cbn; rewrite ?Hp; eauto 10.
Qed.

Lemma disable_ok s idx c :
  wf s -> 0 <= idx < 3 -> slot_is s idx c -> 0 < c <= 2 ->
  exists s', jl_safepoint_disable idx s = Ok (tt, s') /\ wf s' /\
             slot_is s' idx (c - 1) /\
             jl_signal_pending s' = jl_signal_pending s /\
             jl_gc_running s' = jl_gc_running s.
Proof.
  intros Hwf Hidx [Hc Hp] Hrange.
  assert (Hi : idx = 0 \/ idx = 1 \/ idx = 2) by lia.
  assert (Hcc : c = 1 \/ c = 2) by lia.
  open_state s Hwf. unfold slot_is, wf.
  destruct Hi as [-> | [-> | ->]]; run_sp; cbn in Hc, Hp; subst;
    destruct Hcc as [-> | ->]; cbn; rewrite ?Hp; eauto 10.
Qed.

(** A properly nested sequence of enables and disables of one slot runs
    without a failed assertion and keeps counter and protection in step;
    when it is balanced the counter is back at 0 and the page readable. *)
Lemma nested_calls_ok idx cs : forall s c c',
  wf s -> 0 <= idx < 3 -> 0 <= c <= 2 -> slot_is s idx c ->
  nested idx c cs = Some c' ->
  exists s', do_calls cs s = Ok (tt, s') /\ wf s' /\ slot_is s' idx c' /\
             0 <= c' <= 2.
Proof.
  induction cs as [|call cs IH]; intros s c c' Hwf Hidx Hc Hslot Hn.
  - injection Hn as <-. exists s. auto.
  - destruct call as [i | i]; cbn in Hn;
      destruct (i =? idx) eqn:Hi; try discriminate;
      apply Z.eqb_eq in Hi; subst i.
    + destruct (c <? 2) eqn:Hlt; try discriminate. apply Z.ltb_lt in Hlt.
      destruct (enable_ok s idx c) as (s1 & E1 & Hwf1 & Hs1 & _); auto; try lia.
      destruct (IH s1 (c + 1) c') as (s2 & E2 & ?); auto; try lia.
      exists s2. split; auto.
      cbn. unfold mbind, M_bind, bind. cbn. now rewrite E1.
    + destruct (0 <? c) eqn:Hlt; try discriminate. apply Z.ltb_lt in Hlt.
      destruct (disable_ok s idx c) as (s1 & E1 & Hwf1 & Hs1 & _); auto; try lia.
      destruct (IH s1 (c - 1) c') as (s2 & E2 & ?); auto; try lia.
      exists s2. split; auto.
      cbn. unfold mbind, M_bind, bind. cbn. now rewrite E1.
Qed.

Lemma calls_of_snoc tr e :
  is_mprotect e = false -> calls_of (tr ++ [e]) = calls_of tr ++ [e].
Proof.
  intros H. unfold calls_of. rewrite List.filter_app. cbn. now rewrite H.
Qed.

Lemma calls_of_mprotect tr idx p :
  calls_of (tr ++ [EvMprotect idx p]) = calls_of tr.
Proof.
  unfold calls_of. rewrite List.filter_app. cbn. apply app_nil_r.
Qed.

(** [jl_safepoint_disable] cannot fail its second assertion: the counter
    it tests is an unsigned byte that was just found different from 0. *)
Lemma disable_total idx s :
  0 <= idx < 3 ->
  exists s', jl_safepoint_disable idx s = Ok (tt, s') /\
             jl_gc_running s' = jl_gc_running s /\
             jl_signal_pending s' = jl_signal_pending s /\
             calls_of (trace s') = calls_of (trace s) ++ [EvDisable idx].
Proof.
  intros Hidx. run_sp.
  assert (Hb : ((0 <=? idx) && (idx <? 3)) = true).
  { apply andb_true_intro. split; [apply Z.leb_le | apply Z.ltb_lt]; lia. }
  rewrite Hb. cbn.
  set (now := default 0 (_ !! Z.to_nat idx)).
  destruct (now =? 0) eqn:Hnow; cbn.
  - eexists. split; [reflexivity|]. cbn.
    rewrite calls_of_mprotect, calls_of_snoc; auto.
  - assert (Hpos : (0 <? now) = true).
    { apply Z.ltb_lt. apply Z.eqb_neq in Hnow.
      assert (0 <= now); [|lia].
      subst now. destruct (_ !! Z.to_nat idx) as [v|] eqn:Hl; cbn; [|lia].
      apply list_lookup_insert_Some in Hl as [(_ & <- & _) | (Hne & _)];
        [|congruence].
      unfold wrap8. apply Z.mod_pos_bound. lia. }
    fold now. rewrite Hpos. eexists. split; [reflexivity|]. cbn.
    rewrite calls_of_snoc; auto.
Qed.

(** C2, the defect: starting from the initial state, one
    [jl_safepoint_disable] on any slot, an unbalanced disable, fails no
    assertion.  The counter wraps to 255, so it exceeds 2 and is
    positive while the page stays readable. *)
Theorem C2_disable_underflow_unnoticed :
  jl_safepoint_disable 0 init =
    Ok (tt, mkState 0 0 [255; 0; 0] [PROT_READ; PROT_READ; PROT_READ] [EvDisable 0]) /\
  jl_safepoint_disable 1 init =
    Ok (tt, mkState 0 0 [0; 255; 0] [PROT_READ; PROT_READ; PROT_READ] [EvDisable 1]) /\
  jl_safepoint_disable 2 init =
    Ok (tt, mkState 0 0 [0; 0; 255] [PROT_READ; PROT_READ; PROT_READ] [EvDisable 2]).
Proof. repeat split. Qed.

(** C3, as it stands, fails: from interrupt level 1 the pair
    [jl_safepoint_enable_sigint]; [jl_safepoint_consume_sigint] leaves
    slot 0 with counter 0 and readable, while before the pair its
    counter was 1 and the page inaccessible. *)
Lemma C3_round_from_level1_changes_slot0 :
  sigint_state 1 0 level1 /\
  exists s2, sigint_round level1 = Ok (1, s2) /\
             cnt_at level1 0 = 1 /\ cnt_at s2 0 = 0 /\
             prot_at level1 0 = PROT_NONE /\ prot_at s2 0 = PROT_READ.
Proof.
  split.
  - unfold sigint_state, wf, slot_is.
    repeat match goal with |- _ /\ _ => split end; first [reflexivity | lia].
  - eexists. split; [vm_compute; reflexivity|].
    repeat match goal with |- _ /\ _ => split end; reflexivity.
Qed.

(** C3, amended: from every interrupt level in {0, 1, 2}, with the
    counters as that level sets them and [g] enables of slot 1 held by
    the collector, [jl_safepoint_enable_sigint] followed by
    [jl_safepoint_consume_sigint] runs without a failed assertion, ends
    at level 0 and leaves slots 0 and 1 as they are when no interrupt is
    pending: slot 0 with counter 0 and readable, slot 1 with counter [g];
    slot 2 and [jl_gc_running] are untouched.  That is the state before
    the pair when the starting level is 0.  Called in the starting
    state, [jl_safepoint_consume_sigint] returns 1 if the level is at
    least 1 and 0 otherwise. *)
Theorem C3_sigint_round lam g s :
  sigint_state lam g s ->
  exists s1 s2 r0 s0,
    jl_safepoint_enable_sigint s = Ok (tt, s1) /\
    jl_signal_pending s1 = 2 /\
    jl_safepoint_consume_sigint s1 = Ok (1, s2) /\
    sigint_state 0 g s2 /\
    cnt_at s2 2 = cnt_at s 2 /\ prot_at s2 2 = prot_at s 2 /\
    jl_gc_running s2 = jl_gc_running s /\
    (lam = 0 ->
       jl_safepoint_enable_cnt s2 = jl_safepoint_enable_cnt s /\
       page_prot s2 = page_prot s) /\
    jl_safepoint_consume_sigint s = Ok (r0, s0) /\
    jl_signal_pending s0 = 0 /\
    (r0 = 1 <-> 1 <= lam) /\ (r0 = 0 <-> lam = 0).
Proof.
  intros (Hwf & Hlam & Hg & Hp & [Hc0 Hp0] & [Hc1 Hp1]).
  assert (Hl : lam = 0 \/ lam = 1 \/ lam = 2) by lia.
  assert (Hgg : g = 0 \/ g = 1) by lia.
  open_state s Hwf.
  unfold cnt_at, prot_at in Hc0, Hp0, Hc1, Hp1.
  change (Z.to_nat 0) with 0%nat in *. change (Z.to_nat 1) with 1%nat in *.
  cbn in Hp, Hc0, Hp0, Hc1, Hp1. subst pending c0 p0 c1 p1.
  destruct Hl as [-> | [-> | ->]]; destruct Hgg as [-> | ->];
    do 4 eexists; unfold sigint_state, wf, slot_is; split_all;
    try (vm_compute; reflexivity); try lia;
    try (intros; lia); try (split; intros; (lia || discriminate));
    intros _; split; reflexivity.
Qed.

Lemma C3_sigint_round_witness :
  exists s1 s2 r0 s0,
    jl_safepoint_enable_sigint level1 = Ok (tt, s1) /\
    jl_signal_pending s1 = 2 /\
    jl_safepoint_consume_sigint s1 = Ok (1, s2) /\
    sigint_state 0 0 s2 /\
    cnt_at s2 2 = cnt_at level1 2 /\ prot_at s2 2 = prot_at level1 2 /\
    jl_gc_running s2 = jl_gc_running level1 /\
    (1 = 0 ->
       jl_safepoint_enable_cnt s2 = jl_safepoint_enable_cnt level1 /\
       page_prot s2 = page_prot level1) /\
    jl_safepoint_consume_sigint level1 = Ok (r0, s0) /\
    jl_signal_pending s0 = 0 /\
    (r0 = 1 <-> 1 <= 1) /\ (r0 = 0 <-> 1 = 0).
Proof.
  apply (C3_sigint_round 1 0 level1).
  unfold sigint_state, wf, slot_is.
  repeat match goal with |- _ /\ _ => split end; first [reflexivity | lia].
Defined.

(** C5, as it stands, fails: in a process with two threads the collector's
    [jl_safepoint_end_gc] unlocks the safepoint lock and only then
    broadcasts the condition variable. *)
Lemma C5_unlock_precedes_broadcast :
  exists s', jl_safepoint_end_gc 2 collecting = Ok (tt, s') /\
    calls_of (trace s') =
      [EvLock; EvDisable 2; EvDisable 1; EvStoreRelease 0; EvUnlock; EvBroadcast] /\
    calls_of (trace s') <>
      [EvLock; EvDisable 2; EvDisable 1; EvStoreRelease 0; EvBroadcast; EvUnlock].
Proof.
  eexists. split; [vm_compute; reflexivity|]. split; [reflexivity|].
  cbn. discriminate.
Qed.

(** C5, amended: with more than one thread and a collection running,
    [jl_safepoint_end_gc] fails no assertion and performs, in this
    order: lock the safepoint lock, disable slot 2, disable slot 1, store
    0 into [jl_gc_running] with a release store, unlock the safepoint
    lock, broadcast the condition variable. *)
Theorem C5_end_gc_order n s :
  n <> 1 -> jl_gc_running s <> 0 ->
  exists s', jl_safepoint_end_gc n s = Ok (tt, s') /\
    jl_gc_running s' = 0 /\
    calls_of (trace s') =
      calls_of (trace s) ++
      [EvLock; EvDisable 2; EvDisable 1; EvStoreRelease 0; EvUnlock; EvBroadcast].
Proof.
  intros Hn Hrun.
  unfold jl_safepoint_end_gc, mbind, M_bind, bind, get_gc_running, assert.
  apply Z.eqb_neq in Hn, Hrun. rewrite Hrun, Hn. cbn [negb].
  unfold emit at 1.
  match goal with |- context [jl_safepoint_disable 2 ?st] =>
    destruct (disable_total 2 st) as (s1 & E1 & R1 & _ & T1); [lia|]; rewrite E1
  end.
  destruct (disable_total 1 s1) as (s2 & E2 & R2 & _ & T2); [lia|]; rewrite E2.
  eexists. split; [reflexivity|]. split; [reflexivity|].
  cbn [trace jl_gc_running jl_signal_pending jl_safepoint_enable_cnt page_prot].
  rewrite !calls_of_snoc by reflexivity. rewrite T2, T1. cbn [trace].
  rewrite calls_of_snoc by reflexivity.
  rewrite <- !app_assoc. reflexivity.
Qed.

Lemma C5_end_gc_order_witness :
  exists s', jl_safepoint_end_gc 2 collecting = Ok (tt, s') /\
    jl_gc_running s' = 0 /\
    calls_of (trace s') =
      calls_of (trace collecting) ++
      [EvLock; EvDisable 2; EvDisable 1; EvStoreRelease 0; EvUnlock; EvBroadcast].
Proof. apply (C5_end_gc_order 2 collecting); cbn; lia. Defined.

(** C10: [jl_safepoint_defer_sigint] fails no assertion and never
    touches [jl_gc_running] or slots 0 and 2.  At a pending level other
    than 2 it changes nothing: level, the three counters and the three
    protections are as before.  At level 2 it disables slot 1 and sets
    the level to 1. *)
Theorem C10_defer_sigint_frame s :
  wf s ->
  exists s', jl_safepoint_defer_sigint s = Ok (tt, s') /\
    jl_gc_running s' = jl_gc_running s /\
    cnt_at s' 0 = cnt_at s 0 /\ cnt_at s' 2 = cnt_at s 2 /\
    prot_at s' 0 = prot_at s 0 /\ prot_at s' 2 = prot_at s 2 /\
    (jl_signal_pending s <> 2 ->
       jl_signal_pending s' = jl_signal_pending s /\
       jl_safepoint_enable_cnt s' = jl_safepoint_enable_cnt s /\
       page_prot s' = page_prot s /\
       trace s' = trace s ++ [EvLock; EvUnlock]) /\
    (jl_signal_pending s = 2 ->
       jl_signal_pending s' = 1 /\
       cnt_at s' 1 = wrap8 (cnt_at s 1 - 1) /\
       prot_at s' 1 = (if cnt_at s' 1 =? 0 then PROT_READ else prot_at s 1) /\
       calls_of (trace s') = calls_of (trace s) ++ [EvLock; EvDisable 1; EvUnlock]).
Proof.
  intros Hwf. open_state s Hwf. run_sp.
  destruct (pending =? 2) eqn:Hp; cbn.
  - apply Z.eqb_eq in Hp. subst pending.
    destruct (wrap8 (c1 - 1) =? 0) eqn:Hz; cbn.
    + eexists. split; [reflexivity|]. cbn. rewrite Hz.
      split_all; try reflexivity; try (intros; lia).
      intros _. split_all; try reflexivity.
      rewrite <- !app_assoc. cbn.
      unfold calls_of. rewrite !List.filter_app. reflexivity.
    + assert (Hpos : (0 <? wrap8 (c1 - 1)) = true).
      { apply Z.ltb_lt. apply Z.eqb_neq in Hz.
        pose proof (Z.mod_pos_bound (c1 - 1) 256 eq_refl). unfold wrap8 in *. lia. }
      rewrite Hpos. eexists. split; [reflexivity|]. cbn. rewrite Hz.
      split_all; try reflexivity; try (intros; lia).
      intros _. split_all; try reflexivity.
      rewrite <- !app_assoc. cbn.
      unfold calls_of. rewrite !List.filter_app. reflexivity.
  - eexists. split; [reflexivity|]. cbn.
    split_all; try reflexivity; try (intros; apply Z.eqb_neq in Hp; lia).
    intros _. split_all; try reflexivity. now rewrite <- app_assoc.
Qed.

Lemma C10_defer_sigint_frame_witness :
  exists s', jl_safepoint_defer_sigint level1 = Ok (tt, s') /\
    jl_gc_running s' = jl_gc_running level1 /\
    cnt_at s' 0 = cnt_at level1 0 /\ cnt_at s' 2 = cnt_at level1 2 /\
    prot_at s' 0 = prot_at level1 0 /\ prot_at s' 2 = prot_at level1 2 /\
    (jl_signal_pending level1 <> 2 ->
       jl_signal_pending s' = jl_signal_pending level1 /\
       jl_safepoint_enable_cnt s' = jl_safepoint_enable_cnt level1 /\
       page_prot s' = page_prot level1 /\
       trace s' = trace level1 ++ [EvLock; EvUnlock]) /\
    (jl_signal_pending level1 = 2 ->
       jl_signal_pending s' = 1 /\
       cnt_at s' 1 = wrap8 (cnt_at level1 1 - 1) /\
       prot_at s' 1 = (if cnt_at s' 1 =? 0 then PROT_READ else prot_at level1 1) /\
       calls_of (trace s') = calls_of (trace level1) ++ [EvLock; EvDisable 1; EvUnlock]).
Proof. apply (C10_defer_sigint_frame level1). split; reflexivity. Defined.

End SafepointFacts.

(** * Properties of the fault router *)

Section FaultFacts.
Import Signals Props.

Variables page_size pages throw_addr : Z.

Ltac run_h :=
  unfold segv_handler, jl_set_gc_and_wait, jl_clear_force_sigint, jl_throw_in_ctx,
    sigdie_handler, lift, act, hassert, get_uctx, mbind, H_bind, mret, H_ret;
  cbn [sp uctx log negb].

(** C4, as it stands, fails: with a safe-restore buffer installed, a
    fault on a safepoint page in a thread that has a current task does
    not enter the GC wait; the handler calls [jl_sig_throw] at once. *)
Lemma C4_safe_restore_skips_gc_wait :
  jl_addr_is_safepoint 4096 65536 (si_addr poll_fault) = true /\
  segv_handler 4096 65536 4198400 true (Some poll_task) SIGSEGV poll_fault
               handler_start =
    Ok (Escaped,
        mkH Safepoint.init (uctx handler_start)
            [ASigprocmaskUnblock SIGSEGV; ACall jl_sig_throw]).
Proof. split; reflexivity. Qed.

(** C4, amended: when no safe-restore buffer is installed, for a SIGSEGV
    or SIGBUS whose address lies in the safepoint pages, in a thread with
    a current task, [segv_handler] first enters the GC wait.  Then, on a
    thread other than thread 0, it returns.  On thread 0 with
    [defer_signal] nonzero it calls [jl_safepoint_defer_sigint] and
    returns.  Otherwise it calls [jl_safepoint_consume_sigint]; when that
    returns 0 the handler returns, and when it returns nonzero the
    handler clears the force-sigint latch, records the backtrace, stores
    [jl_interrupt_exception] as the pending exception and redirects the
    trapped context to [jl_sig_throw]. *)
Theorem C4_safepoint_poll ct sig info h :
  sig = SIGSEGV \/ sig = SIGBUS ->
  jl_addr_is_safepoint page_size pages (si_addr info) = true ->
  segv_handler page_size pages throw_addr false (Some ct) sig info h =
    if negb (tid ct =? 0) then
      Ok (Returned, mkH (sp h) (uctx h) (log h ++ [ASetGcAndWait]))
    else if negb (defer_signal (ptls ct) =? 0) then
      match Safepoint.jl_safepoint_defer_sigint (sp h) with
      | Ok (_, sp') =>
          Ok (Returned,
              mkH sp' (uctx h) (log h ++ [ASetGcAndWait; ADeferSigint]))
      | AssertFail => AssertFail
      end
    else
      match Safepoint.jl_safepoint_consume_sigint (sp h) with
      | Ok (has_signal, sp') =>
          if negb (has_signal =? 0) then
            jl_call_in_ctx page_size (Some (ptls ct)) jl_sig_throw throw_addr sig
              (mkH sp' (uctx h)
                   (log h ++ [ASetGcAndWait; AConsumeSigint has_signal;
                              AClearForceSigint; ARecordBacktrace;
                              ASetSigException jl_interrupt_exception]))
          else
            Ok (Returned,
                mkH sp' (uctx h)
                    (log h ++ [ASetGcAndWait; AConsumeSigint has_signal]))
      | AssertFail => AssertFail
      end.
Proof.
  intros Hsig Hsafe. run_h. rewrite Hsafe.
  assert (Hok : ((sig =? SIGSEGV) || (sig =? SIGBUS)) = true).
  { destruct Hsig as [-> | ->]; reflexivity. }
  rewrite Hok. cbn [sp uctx log].
  destruct (tid ct =? 0); cbn [negb]; [|reflexivity].
  destruct (defer_signal (ptls ct) =? 0); cbn [negb sp uctx log].
  - destruct (Safepoint.jl_safepoint_consume_sigint (sp h)) as [[r sp']|];
      [|reflexivity].
    cbn [sp uctx log]. rewrite <- !app_assoc. cbn [app].
    destruct (r =? 0); cbn [negb sp uctx log]; [reflexivity|].
    rewrite <- !app_assoc. reflexivity.
  - destruct (Safepoint.jl_safepoint_defer_sigint (sp h)) as [[[] sp']|];
      [|reflexivity].
    cbn [sp uctx log]. rewrite <- !app_assoc. reflexivity.
Qed.

(** C8, as it stands, fails: a fault whose address lies within the
    thread's signal stack, when the trapped stack pointer is not on the
    signal stack, does not exit the process; here the handler ends in
    [sigdie_handler] and returns. *)
Lemma C8_sigstack_address_alone_does_not_exit :
  jl_addr_is_safepoint 4096 65536 (si_addr sigstack_fault) = false /\
  is_addr_on_stack poll_task (si_addr sigstack_fault) = false /\
  is_addr_on_sigstack 4096 (ptls poll_task) (si_addr sigstack_fault) = true /\
  segv_handler 4096 65536 4198400 false (Some poll_task) SIGSEGV sigstack_fault
               handler_start =
    Ok (Returned,
        mkH Safepoint.init (uctx handler_start)
            [ASignalDefault SIGSEGV; ATtyResetMode; ACriticalError SIGSEGV]).
Proof. repeat (split; [reflexivity|]). reflexivity. Qed.

(** C8, amended: when no safe-restore buffer is installed, for a SIGSEGV
    or SIGBUS in a thread with a current task, whose address is neither
    in the safepoint pages nor on the task's stack, and for which both
    the fault address and the trapped stack pointer lie within the
    thread's signal stack (guard page included), [segv_handler] prints
    the overflow message and exits the process with status [sig + 128];
    it leaves the trapped context and the safepoint state alone. *)
Theorem C8_signal_stack_overflow ct sig info h :
  sig = SIGSEGV \/ sig = SIGBUS ->
  jl_addr_is_safepoint page_size pages (si_addr info) = false ->
  is_addr_on_stack ct (si_addr info) = false ->
  is_addr_on_sigstack page_size (ptls ct) (si_addr info) = true ->
  is_addr_on_sigstack page_size (ptls ct) (REG_RSP (uctx h)) = true ->
  segv_handler page_size pages throw_addr false (Some ct) sig info h =
    Ok (Exited (sig + 128),
        mkH (sp h) (uctx h)
            (log h ++ [APrintf MsgSignalStackOverflow; AExit (sig + 128)])).
Proof.
  intros Hsig Hsafe Hstack Haddr Hrsp. run_h. rewrite Hsafe.
  assert (Hok : ((sig =? SIGSEGV) || (sig =? SIGBUS)) = true).
  { destruct Hsig as [-> | ->]; reflexivity. }
  rewrite Hok. cbn [sp uctx log]. rewrite Hstack.
  unfold jl_is_on_sigstack, jl_get_rsp_from_ctx. rewrite Haddr, Hrsp.
  cbn [andb sp uctx log]. rewrite <- app_assoc. reflexivity.
Qed.

End FaultFacts.

Section FaultWitnesses.
Import Signals Props.

Lemma C4_safepoint_poll_witness :
  segv_handler 4096 65536 4198400 false (Some poll_task) SIGSEGV poll_fault
               handler_start =
    Ok (Returned,
        mkH (Safepoint.mkState 0 0 [0; 0; 0]
               [Safepoint.PROT_READ; Safepoint.PROT_READ; Safepoint.PROT_READ]
               [Safepoint.EvLock; Safepoint.EvUnlock])
            (uctx handler_start) [ASetGcAndWait; AConsumeSigint 0]).
Proof.
  rewrite (C4_safepoint_poll 4096 65536 4198400 poll_task SIGSEGV poll_fault handler_start);
    [reflexivity | left; reflexivity | reflexivity].
Defined.

Lemma C8_signal_stack_overflow_witness :
  segv_handler 4096 65536 4198400 false (Some poll_task) SIGSEGV sigstack_fault
               handler_on_sigstack =
    Ok (Exited (SIGSEGV + 128),
        mkH (sp handler_on_sigstack) (uctx handler_on_sigstack)
            (log handler_on_sigstack ++
             [APrintf MsgSignalStackOverflow; AExit (SIGSEGV + 128)])).
Proof.
  apply (C8_signal_stack_overflow 4096 65536 4198400 poll_task SIGSEGV sigstack_fault
           handler_on_sigstack); first [left; reflexivity | reflexivity].
Defined.

End FaultWitnesses.

(** * Properties of the profile sampler *)

Section ListenerFacts.
Import Signals Listener Props.

Lemma put_all_prof vs : forall p,
  put_all put_prof vs p =
    Ok (tt, mkP (running p) (bt_size_cur p + Z.of_nat (length vs)) (bt_size_max p)
                (fill (bt_data_prof p) (bt_size_cur p) vs)
                (bt_data p) (bt_size p) (last_timer_delete_time p) (plog p)).
Proof.
  induction vs as [|v vs IH]; intros p.
  - destruct p. cbn. now rewrite Z.add_0_r.
  - cbn [put_all]. unfold mbind, P_bind. unfold put_prof at 1.
    rewrite IH. cbn [running bt_size_cur bt_size_max bt_data_prof bt_data
                     bt_size last_timer_delete_time plog fill length].
    do 3 f_equal. lia.
Qed.

Lemma fill_length vs : forall buf i, length (fill buf i vs) = length buf.
Proof.
  induction vs as [|v vs IH]; intros buf i; cbn; [reflexivity|].
  now rewrite IH, length_insert.
Qed.

Lemma fill_app vs ws : forall buf i,
  fill buf i (vs ++ ws) = fill (fill buf i vs) (i + Z.of_nat (length vs)) ws.
Proof.
  induction vs as [|v vs IH]; intros buf i; cbn [fill app length].
  - now rewrite Z.add_0_r.
  - rewrite IH. f_equal. lia.
Qed.

(** Filling overwrites exactly the entries from [i] on. *)
Lemma fill_decomp vs : forall buf i,
  0 <= i -> (Z.to_nat i + length vs <= length buf)%nat ->
  fill buf i vs =
    take (Z.to_nat i) buf ++ vs ++ drop (Z.to_nat i + length vs) buf.
Proof.
  induction vs as [|v vs IH]; intros buf i Hi Hroom; cbn [fill length app].
  - now rewrite Nat.add_0_r, take_drop.
  - cbn [length] in Hroom.
    rewrite IH by (rewrite ?length_insert; lia).
    replace (Z.to_nat (i + 1)) with (S (Z.to_nat i)) by lia.
    rewrite (take_S_r _ _ v) by (apply list_lookup_insert_eq; lia).
    rewrite take_insert_ge by lia.
    rewrite drop_insert_lt by lia.
    rewrite <- app_assoc. cbn [app].
    now replace (S (Z.to_nat i) + length vs)%nat
      with (Z.to_nat i + S (length vs))%nat by lia.
Qed.

Lemma written_fill vs buf i :
  0 <= i -> (Z.to_nat i + length vs <= length buf)%nat ->
  written i (i + Z.of_nat (length vs)) (fill buf i vs) = vs /\
  take (Z.to_nat i) (fill buf i vs) = take (Z.to_nat i) buf.
Proof.
  intros Hi Hroom. rewrite fill_decomp by assumption. unfold written.
  assert (Hlen : length (take (Z.to_nat i) buf) = Z.to_nat i)
    by (rewrite length_take; lia).
  split.
  - rewrite drop_app_length' by (symmetry; exact Hlen).
    replace (Z.to_nat (i + Z.of_nat (length vs) - i)) with (length vs) by lia.
    apply take_app_length.
  - apply take_app_length'. symmetry; exact Hlen.
Qed.

Lemma put_prof_eq v p :
  put_prof v p =
    Ok (tt, mkP (running p) (bt_size_cur p + 1) (bt_size_max p)
                (<[Z.to_nat (bt_size_cur p) := v]> (bt_data_prof p))
                (bt_data p) (bt_size p) (last_timer_delete_time p) (plog p)).
Proof. reflexivity. Qed.

Lemma pact_eq a p :
  pact a p =
    Ok (tt, mkP (running p) (bt_size_cur p) (bt_size_max p) (bt_data_prof p)
                (bt_data p) (bt_size p) (last_timer_delete_time p)
                (plog p ++ [a])).
Proof. reflexivity. Qed.

(** Runs the writes and log entries at the head of the goal one at a
    time, so that the state stays small. *)
Ltac proj_p :=
  cbn [running bt_size_cur bt_size_max bt_data_prof bt_data bt_size
       last_timer_delete_time plog].

Ltac step_p := repeat (first [rewrite put_prof_eq | rewrite pact_eq]; proj_p).

Variables JL_MAX_BT_SIZE jl_n_threads : Z.
Variable jl_profile_is_buffer_full : Z -> Z -> bool.


End ListenerFacts.

Section ListenerWitnesses.
Import Signals Listener Props.



End ListenerWitnesses.

(** * Properties of the per-thread signal rendezvous *)

Section RendezvousFacts.
Import Rendezvous Props.

Lemma reach_closed b : closed b false moves (reach b) = true.
Proof. destruct b; vm_compute; reflexivity. Qed.

Lemma reach_round_closed b : closed b true round_moves (reach_round b) = true.
Proof. destruct b; vm_compute; reflexivity. Qed.

Lemma reach_init b task : init task ∈ reach b.
Proof.
  apply (bool_decide_unpack (init task ∈ reach b)).
  destruct b, task; vm_compute; exact I.
Qed.

Lemma reach_round_init b task : init task ∈ reach_round b.
Proof.
  apply (bool_decide_unpack (init task ∈ reach_round b)).
  destruct b, task; vm_compute; exact I.
Qed.

Lemma reach_round_ok b : forallb (round_ok b) (reach_round b) = true.
Proof. destruct b; vm_compute; reflexivity. Qed.

Lemma reach_timeout_ok b : forallb (timeout_ok b) (reach b) = true.
Proof. destruct b; vm_compute; reflexivity. Qed.

(** No move of [ms] leads out of a closed set of states, and if the set is
    strictly closed none fails an assertion there. *)
Lemma closed_step b strict ms R m s :
  closed b strict ms R = true -> s ∈ R -> In m ms ->
  match step_core b m s with
  | Next s' => s' ∈ R
  | Stuck => True
  | Fail => strict = false
  end.
Proof.
  intros Hc Hs Hm. unfold closed in Hc.
  apply (proj1 (forallb_forall _ _)) with (x := s) in Hc;
    [|now apply list_elem_of_In].
  apply (proj1 (forallb_forall _ _)) with (x := m) in Hc; [|exact Hm].
  destruct (step_core b m s); [|exact I|].
  - exact (bool_decide_eq_true_1 _ Hc).
  - now apply negb_true_iff.
Qed.

Lemma closed_run b strict ms R sched : forall s,
  closed b strict ms R = true -> s ∈ R -> Forall (fun m => In m ms) sched ->
  match run_core b sched s with
  | Next s' => s' ∈ R
  | Stuck => True
  | Fail => strict = false
  end.
Proof.
  induction sched as [|m sched IH]; intros s Hc Hs Hms; cbn; [exact Hs|].
  apply Forall_cons in Hms as [Hm Hms].
  pose proof (closed_step b strict ms R m s Hc Hs Hm) as Hstep.
  destruct (step_core b m s);
    [apply IH; assumption | apply IH; assumption | exact Hstep].
Qed.

Lemma forallb_elem (f : rstate -> bool) R s :
  forallb f R = true -> s ∈ R -> f s = true.
Proof.
  intros Hall Hs. apply (proj1 (forallb_forall _ _) Hall).
  now apply list_elem_of_In.
Qed.

(** A wait that returns without broadcast or timeout fails no assertion
    by itself. *)
Lemma wake_never_fails b p s : step_core b (Spurious p) s <> Fail.
Proof.
  destruct p; unfold step_core;
    [destruct (l_pc s) | destruct (t_pc s)]; discriminate.
Qed.

(** Every state of a run in which the waits return on broadcast or
    timeout only is among those found by the search. *)
Lemma reachable_in_reach task sig sched s :
  Forall (fun m => In m moves) sched ->
  run sig sched (init task) = Next s -> s ∈ reach (sig =? -1).
Proof.
  intros Hms Hrun.
  pose proof (closed_run (sig =? -1) false moves _ sched (init task)
                (reach_closed _) (reach_init _ task) Hms) as H.
  unfold run in Hrun. rewrite Hrun in H. exact H.
Qed.

Lemma reachable_in_reach_round task sig sched s :
  Forall (fun m => In m round_moves) sched ->
  run sig sched (init task) = Next s -> s ∈ reach_round (sig =? -1).
Proof.
  intros Hone Hrun.
  pose proof (closed_run (sig =? -1) true round_moves _ sched (init task)
                (reach_round_closed _) (reach_round_init _ task) Hone) as H.
  unfold run in Hrun. rewrite Hrun in H. exact H.
Qed.

Ltac split_bools H :=
  repeat match type of H with
         | (_ && _) = true => let H' := fresh H in apply andb_prop in H as [H H']
         end.

(** Within a single round that starts with nothing requested and nobody
    in the handler, and in which the waits return on broadcast or timeout
    only, the request word makes its round trip: it is 0 when the
    suspension has returned a context and when the resumption has
    returned, the handler woken from its exit wait finds the 1 or 3 that
    the resumption stored, and no assertion fails. *)
Lemma round_trip_in_one_round task sig sched s :
  Forall (fun m => In m round_moves) sched ->
  run sig sched (init task) = Next s -> round_trip sig s.
Proof.
  intros Hone Hrun.
  pose proof (reachable_in_reach_round _ _ _ _ Hone Hrun) as Hin.
  pose proof (forallb_elem _ _ _ (reach_round_ok _) Hin) as Hok.
  unfold round_ok in Hok. apply andb_prop in Hok as [HL HT].
  unfold round_trip. repeat apply conj.
  - intros c Hpc. rewrite Hpc in HL. split_bools HL. now apply Z.eqb_eq.
  - intros Hpc. rewrite Hpc in HL. now apply Z.eqb_eq.
  - intros Hpc. unfold step, step_core, lstep. rewrite Hpc.
    eexists. split; reflexivity.
  - intros Hpc. rewrite Hpc in HT. apply Z.eqb_eq in HT.
    assert (H13 : signal_request s = 1 \/ signal_request s = 3)
      by (destruct (sig =? -1); auto).
    split; [exact H13|]. split; [exact HT|].
    unfold step, step_core, tstep. rewrite Hpc.
    assert (Hb : ((signal_request s =? 1) || (signal_request s =? 3)) = true)
      by (destruct H13 as [-> | ->]; reflexivity).
    rewrite Hb. eexists. repeat apply conj; reflexivity.
  - intros m Hf. destruct m as [[|]| | |p].
    + pose proof (closed_step (sig =? -1) true round_moves _ (Run Listener) s
                    (reach_round_closed _) Hin) as H.
      unfold step in Hf. rewrite Hf in H. discriminate H. cbn; auto.
    + pose proof (closed_step (sig =? -1) true round_moves _ (Run Target) s
                    (reach_round_closed _) Hin) as H.
      unfold step in Hf. rewrite Hf in H. discriminate H. cbn; auto.
    + unfold step, step_core in Hf. destruct (l_pc s); discriminate.
    + unfold step, step_core in Hf. destruct (l_pc s) as [| | | | | | | | | | | | | | |[]| | | | | | | |];
        discriminate.
    + exact (wake_never_fails _ _ _ Hf).
Qed.

(** A round without timeout runs to its end: the target is suspended
    with the word at 0, and after the resumption the word is 0 again and
    the lock is free. *)
Lemma normal_round_completes :
  l_pc (state_after 10 to_suspended) = L_Returned (Some TargetContext) /\
  t_pc (state_after 10 to_suspended) = T_ExitSleep /\
  signal_request (state_after 10 to_suspended) = 0 /\
  l_pc (state_after 10 to_done) = L_Done /\
  signal_request (state_after 10 to_done) = 0 /\
  in_signal_lock (state_after 10 to_done) = None.
Proof. repeat apply conj; reflexivity. Qed.

(** C6, the defect: a SIGUSR2 left behind by a request that timed out
    breaks the round trip of the next request to the same thread.  Along
    the schedule [stale_signal] no assertion fails, the second round runs
    through suspension and resumption, and when the listener, woken in
    [jl_thread_resume], holds the lock again and is about to check the
    word, the word is -1, put there by the handler that the left-over
    signal started; the listener's [assert(request == 0)] fails. *)
Theorem C6_stale_signal_breaks_round_trip :
  run 10 stale_signal (init true) = Next (state_after 10 stale_signal) /\
  l_pc (state_after 10 stale_signal) = L_ResumeLoad /\
  t_pc (state_after 10 stale_signal) = T_Clear 0 /\
  in_signal_lock (state_after 10 stale_signal) = Some Listener /\
  signal_request (state_after 10 stale_signal) = -1 /\
  step 10 (Run Listener) (state_after 10 stale_signal) = Fail.
Proof. repeat apply conj; vm_compute; reflexivity. Qed.

(** In every state of every run of such rounds in which the waits return
    on broadcast or timeout only: when the timed wait has run out the
    listener holds the lock and tries to swap the target's
    [signal_request] from 1 to 0; if the word is 1 the swap succeeds and
    the listener returns NULL with the lock released; if the word is -1
    the swap leaves it and the listener goes into its second wait on the
    caught condition; if it is woken from that wait, it returns the
    captured context with [signal_request] equal to 0.  A thread for
    which NULL was returned is passed over by the sampling loop. *)
Lemma timed_out_in_quiet_runs task sig sched s :
  Forall (fun m => In m moves) sched ->
  run sig sched (init task) = Next s -> timed_out sig s /\ sample_skipped.
Proof.
  intros Hms Hrun. split.
  - pose proof (forallb_elem _ _ _ (reach_timeout_ok _)
                  (reachable_in_reach _ _ _ _ Hms Hrun)) as Hto.
    unfold timeout_ok in Hto. unfold timed_out, run. split.
    + intros Hpc. rewrite Hpc in Hto. apply andb_prop in Hto as [HL Hto].
      split; [|split; [|split]].
      * exact (bool_decide_eq_true_1 _ HL).
      * intros Hreq. rewrite Hreq in Hto. cbn [Z.eqb Pos.eqb] in Hto.
        destruct (run_core _ _ s) as [s'| |]; try discriminate.
        split_bools Hto. exists s'. split; [reflexivity|].
        split; [exact (bool_decide_eq_true_1 _ Hto)|].
        split; [exact (bool_decide_eq_true_1 _ Hto1)|]. now apply Z.eqb_eq.
      * intros Hreq. unfold step, step_core, lstep. rewrite Hpc.
        apply Z.eqb_neq in Hreq. rewrite Hreq.
        eexists. repeat apply conj; reflexivity.
      * intros Hreq. rewrite Hreq in Hto. cbn [Z.eqb Pos.eqb] in Hto.
        destruct (run_core _ _ s) as [s'| |]; try discriminate.
        split_bools Hto. exists s'. split; [reflexivity|].
        split; [exact (bool_decide_eq_true_1 _ Hto)|].
        split; [exact (bool_decide_eq_true_1 _ Hto1)|]. now apply Z.eqb_eq.
    + intros Hpc. rewrite Hpc in Hto.
      destruct (run_core _ _ s) as [s'| |]; try discriminate.
      split_bools Hto. exists s'. split; [reflexivity|].
      split; [exact (bool_decide_eq_true_1 _ Hto)|]. now apply Z.eqb_eq.
  - intros max_bt n full critical profile sig' i ptls2 env p Hnone.
    unfold Listener.sample_thread. rewrite Hnone. reflexivity.
Qed.

(** C7, the defect: a SIGUSR2 left behind by a request that timed out
    makes the next suspension of the same thread wait for ever.  Every
    move of the schedule [stale_hang] is made and no assertion fails.
    In its first round the timed wait runs out, the compare-and-swap
    from 1 to 0 succeeds and NULL is returned with the lock released, as
    the claim says.  In its second round the timed wait runs out with the
    word at -1, put there by a handler that found no request; the swap
    fails and the listener goes into its second wait on the caught
    condition.  The handler puts 0 back and returns without a broadcast.
    In the state reached the listener is asleep in [pthread_cond_wait],
    the target is out of the handler, no signal is pending and the lock
    is free: no step of either side and no timeout is left, so the
    listener neither returns a context nor gives up.  Were the wait to
    return without a broadcast, as POSIX permits, the listener would
    return what is in [signal_context], and no context was captured. *)
Theorem C7_stale_signal_hangs_suspend :
  (* every move of the schedule is made *)
  RoundProps.steps_made false stale_hang (init true) = length stale_hang /\
  (* round 1: the swap succeeds, NULL, lock released *)
  l_pc (state_after 10 to_timeout) = L_Cas /\
  signal_request (state_after 10 to_timeout) = 1 /\
  l_pc (state_after 10 (to_timeout ++ [Run Listener; Run Listener])) =
    L_Returned None /\
  in_signal_lock (state_after 10 (to_timeout ++ [Run Listener; Run Listener])) =
    None /\
  (* round 2: the timed wait has run out and the word is -1 *)
  run 10 stale_to_cas (init true) = Next (state_after 10 stale_to_cas) /\
  l_pc (state_after 10 stale_to_cas) = L_Cas /\
  in_signal_lock (state_after 10 stale_to_cas) = Some Listener /\
  signal_request (state_after 10 stale_to_cas) = -1 /\
  (* the second wait, from which nothing wakes the listener *)
  run 10 stale_hang (init true) = Next (state_after 10 stale_hang) /\
  l_pc (state_after 10 stale_hang) = L_Wait2Sleep /\
  t_pc (state_after 10 stale_hang) = T_Running /\
  sigusr2_pending (state_after 10 stale_hang) = false /\
  in_signal_lock (state_after 10 stale_hang) = None /\
  signal_request (state_after 10 stale_hang) = 0 /\
  signal_context (state_after 10 stale_hang) = None /\
  (forall m, In m moves -> step 10 m (state_after 10 stale_hang) = Stuck) /\
  step 10 (Spurious Target) (state_after 10 stale_hang) = Stuck /\
  (* a return of the wait without broadcast yields no captured context *)
  exists s',
    run 10 [Spurious Listener; Run Listener; Run Listener; Run Listener]
        (state_after 10 stale_hang) = Next s' /\
    l_pc s' = L_Returned None /\
    signal_context s' = None.
Proof.
  repeat apply conj; try (vm_compute; reflexivity).
  - intros m Hm. cbn in Hm.
    destruct Hm as [<-|[<-|[<-|[<-|[]]]]]; vm_compute; reflexivity.
  - eexists. repeat apply conj; vm_compute; reflexivity.
Qed.

End RendezvousFacts.

(** * Properties of the GC rendezvous *)

Section GCFacts.
Import Safepoint GC GCProps.

Lemma wake_frame th :
  holds_gc (wake th) = holds_gc th /\ holds_lock (wake th) = holds_lock th /\
  retval_ok (wake th) = retval_ok th /\ gc_state (wake th) = gc_state th /\
  retval (wake th) = retval th /\
  (holds_gc th = true -> at_pc (wake th) = at_pc th).
Proof.
  destruct th as [[] gs rv]; cbn; repeat apply conj; auto; discriminate.
Qed.

Ltac lock_facts Hlock lk t :=
  first
    [ assert (lk = Some t) by (apply Hlock; reflexivity); subst lk
    | assert (lk <> Some t)
        by (let E := fresh in intros E; apply Hlock in E; discriminate) ].

Ltac rv_facts Hrv r :=
  cbn in Hrv;
  first [ apply Z.eqb_eq in Hrv; subst r
        | apply orb_prop in Hrv as [Hrv|Hrv]; apply Z.eqb_eq in Hrv; subst r ].

Ltac gc_facts Hgc :=
  try (destruct (Hgc eq_refl) as [? Hpg]; injection Hpg as -> ->; subst).

Lemma tstep_ok n t th s :
  n <> 1 -> shared_ok s -> thread_ok s t th ->
  match tstep n t th s with
  | TFail => False
  | TStuck => True
  | TNext th' s' w =>
      thread_ok s' t th' /\
      (forall t', t' <> t ->
         (safepoint_lock s' = Some t' <-> safepoint_lock s = Some t')) /\
      gc_step th th' s s'
  end.
Proof.
  intros Hn [Hrun Hidle] (Hgs & Hlock & Hgc & Hrv).
  destruct th as [p gs rv]. destruct s as [[pend running cnt prt tr] lk].
  unfold thread_ok, gc_step, shared_ok, pages, tstep, lock, unlock, exec in *.
  cbn [at_pc gc_state retval sp safepoint_lock jl_gc_running
       jl_safepoint_enable_cnt page_prot] in *.
  apply Z.eqb_neq in Hn. rewrite ?Hn. subst gs.
  destruct p; destruct rv as [r|]; try discriminate Hrv;
    try rv_facts Hrv r;
    cbn [holds_lock holds_gc at_pc retval goto return_] in *;
    lock_facts Hlock lk t; gc_facts Hgc.
  all: cbn.
  all: try rewrite Nat.eqb_refl.
  all: try (destruct lk; [exact I|]).
  all: try (destruct (running =? 0) eqn:Hz;
            [apply Z.eqb_eq in Hz; subst running;
             try (injection (Hidle eq_refl) as -> ->)
            | apply Z.eqb_neq in Hz]).
  all: cbn.
  all: try exact I.
  all: unfold idle_pages, gc_pages, master_only.
  all: try solve [repeat apply conj; cbn; intuition (try congruence; try lia)].
Qed.


Lemma updated_self ths t th th' w :
  ths !! t = Some th -> updated ths t th' w !! t = Some th'.
Proof.
  intros Hl. apply lookup_lt_Some in Hl. unfold updated.
  apply list_lookup_insert_eq. destruct w; rewrite ?length_fmap; exact Hl.
Qed.

Lemma updated_other ths t th' w t0 th0 :
  t0 <> t -> ths !! t0 = Some th0 ->
  updated ths t th' w !! t0 = Some (if w then wake th0 else th0).
Proof.
  intros Hne Hl. unfold updated. rewrite list_lookup_insert_ne by congruence.
  destruct w; [|exact Hl]. now rewrite list_lookup_fmap, Hl.
Qed.

Lemma updated_lookup ths t th' w t1 th1 :
  updated ths t th' w !! t1 = Some th1 ->
  (t1 = t /\ th1 = th') \/
  (t1 <> t /\ exists th0, ths !! t1 = Some th0 /\
                          th1 = (if w then wake th0 else th0)).
Proof.
  unfold updated. intros Hl.
  apply list_lookup_insert_Some in Hl as [(<- & <- & _) | (Hne & Hl)]; [now left|].
  right. split; [congruence|]. destruct w; [|eauto].
  rewrite list_lookup_fmap in Hl. apply fmap_Some in Hl as (th0 & H0 & ->). eauto.
Qed.

Lemma woken_frame (w : bool) th0 :
  let th1 := if w then wake th0 else th0 in
  holds_gc th1 = holds_gc th0 /\ holds_lock th1 = holds_lock th0 /\
  retval_ok th1 = retval_ok th0 /\ gc_state th1 = gc_state th0 /\
  retval th1 = retval th0 /\
  (holds_gc th0 = true -> at_pc th1 = at_pc th0).
Proof.
  destruct w; [apply wake_frame|]. cbn. repeat apply conj; auto.
Qed.

Lemma update_inv g t th th' s' w :
  inv g -> threads g !! t = Some th ->
  thread_ok s' t th' ->
  (forall t', t' <> t ->
     (safepoint_lock s' = Some t' <-> safepoint_lock (sh g) = Some t')) ->
  gc_step th th' (sh g) s' ->
  inv (mkG s' (updated (threads g) t th' w)).
Proof.
  intros (Hsh & Hex & Hth & Huniq) Hl Hok' Hlk Hgc.
  pose proof (Hth t th Hl) as (_ & _ & Hthgc & _).
  assert (Hother : forall t0 th0, t0 <> t -> threads g !! t0 = Some th0 ->
            holds_gc th0 = true ->
            holds_gc th = false /\ jl_gc_running (sp s') = 1 /\
            pages s' = pages (sh g)).
  { intros t0 th0 Hne H0 Hh0.
    destruct (Hth t0 th0 H0) as (_ & _ & C0 & _). destruct (C0 Hh0) as [R0 _].
    destruct Hgc as [(_ & _ & Hz & _) | [(Hh & _) | (_ & Hr & Hp)]].
    - congruence.
    - exfalso. apply Hne. symmetry. eapply Huniq; eauto.
    - destruct (holds_gc th) eqn:Hh.
      + exfalso. apply Hne. symmetry. eapply Huniq; eauto.
      + split; [reflexivity|]. split; [congruence|]. now apply Hp. }
  unfold inv. cbn [sh threads]. repeat apply conj.
  - destruct Hsh as [Hrange Hidle].
    destruct Hgc as [(_ & _ & _ & Hr & _) | [(_ & _ & Hr & _) | (_ & Hr & _)]];
      rewrite Hr; auto.
  - destruct Hsh as [Hrange Hidle].
    destruct Hgc as [(_ & _ & _ & Hr & _) | [(_ & _ & _ & Hp) | (_ & Hr & Hp)]].
    + intros Hz. congruence.
    + intros _. exact Hp.
    + intros Hz. rewrite Hr in Hz. rewrite <- (Hidle Hz). apply Hp.
      destruct (holds_gc th); [|reflexivity].
      destruct (Hthgc eq_refl) as [R _]. congruence.
  - intros Hone.
    destruct Hgc as [(_ & Hh' & _) | [(_ & _ & Hr & _) | (Hh & Hr & _)]].
    + exists t, th'. split; [eapply updated_self; eauto | exact Hh'].
    + congruence.
    + rewrite Hr in Hone. destruct (Hex Hone) as (t0 & th0 & H0 & Hh0).
      destruct (decide (t0 = t)) as [-> | Hne].
      * exists t, th'. split; [eapply updated_self; eauto|].
        rewrite Hh. congruence.
      * eexists t0, _. split; [eapply updated_other; eauto|].
        destruct (woken_frame w th0) as (-> & _). exact Hh0.
  - intros t1 th1 H1.
    apply updated_lookup in H1 as [[-> ->] | (Hne & th0 & H0 & ->)]; [exact Hok'|].
    destruct (Hth t1 th0 H0) as (G & L & C & R).
    destruct (woken_frame w th0) as (Fgc & Flk & Frv & Fgs & _ & Fpc).
    unfold thread_ok. rewrite Fgc, Flk, Frv, Fgs. repeat apply conj; auto.
    + rewrite (Hlk t1 Hne). apply L.
    + rewrite (Hlk t1 Hne). apply L.
    + intros Hh. rewrite (Fpc Hh). destruct (C Hh) as [_ Cp].
      destruct (Hother t1 th0 Hne H0 Hh) as (_ & Hr' & Hp'). split; congruence.
  - intros t1 t2 th1 th2 H1 H2 G1 G2.
    apply updated_lookup in H1 as [[-> ->] | (Hne1 & a & Ha & ->)];
      apply updated_lookup in H2 as [[-> ->] | (Hne2 & b & Hb & ->)].
    + reflexivity.
    + exfalso. destruct (woken_frame w b) as (Fb & _). rewrite Fb in G2.
      destruct (Hother t2 b Hne2 Hb G2) as (Hf & _).
      destruct Hgc as [(_ & _ & Hz & _) | [(Hh & _) | (Hh & _)]]; try congruence.
      destruct (Hth t2 b Hb) as (_ & _ & C & _). destruct (C G2). congruence.
    + exfalso. destruct (woken_frame w a) as (Fa & _). rewrite Fa in G1.
      destruct (Hother t1 a Hne1 Ha G1) as (Hf & _).
      destruct Hgc as [(_ & _ & Hz & _) | [(Hh & _) | (Hh & _)]]; try congruence.
      destruct (Hth t1 a Ha) as (_ & _ & C & _). destruct (C G1). congruence.
    + destruct (woken_frame w a) as (Fa & _). rewrite Fa in G1.
      destruct (woken_frame w b) as (Fb & _). rewrite Fb in G2.
      eapply Huniq; eauto.
Qed.


Lemma init_inv k : inv (ginit k).
Proof.
  unfold inv, ginit, shared_ok, pages. cbn. repeat apply conj; auto.
  - discriminate.
  - intros t th Hl. apply lookup_replicate in Hl as [-> _].
    unfold thread_ok. cbn. repeat apply conj; auto; discriminate.
  - intros t t' th th' Hl _ Hh. apply lookup_replicate in Hl as [-> _].
    discriminate.
Qed.

Lemma step_inv n m g :
  n <> 1 -> inv g ->
  match step n m g with
  | Next g' => inv g'
  | Stuck => True
  | Fail => False
  end.
Proof.
  intros Hn Hinv. pose proof Hinv as (Hsh & _ & Hth & _).
  destruct m as [t|t]; unfold step;
    destruct (threads g !! t) as [th|] eqn:Hl; try exact I.
  - pose proof (tstep_ok n t th (sh g) Hn Hsh (Hth t th Hl)) as Hs.
    destruct (tstep n t th (sh g)) as [th' s' w| |]; [|exact I|exact Hs].
    destruct Hs as (Hok & Hlk & Hgc).
    exact (update_inv g t th th' s' w Hinv Hl Hok Hlk Hgc).
  - destruct (at_pc th) eqn:Hpc; try exact I.
    destruct g as [s ths]. cbn [sh threads] in *.
    apply (update_inv (mkG s ths) t th (wake th) s false Hinv Hl).
    + destruct (Hth t th Hl) as (G & L & C & R).
      destruct (wake_frame th) as (Fgc & Flk & Frv & Fgs & _ & Fpc).
      unfold thread_ok. rewrite Fgc, Flk, Frv, Fgs. repeat apply conj; auto.
      * apply L.
      * apply L.
      * intros Hh. rewrite (Fpc Hh). auto.
    + intros; reflexivity.
    + right. right. destruct (wake_frame th) as (Fgc & _). auto.
Qed.

Lemma run_inv n sched : forall g,
  n <> 1 -> inv g ->
  match run n sched g with
  | Next g' => inv g'
  | Stuck => True
  | Fail => False
  end.
Proof.
  induction sched as [|m sched IH]; intros g Hn Hinv; cbn; [exact Hinv|].
  pose proof (step_inv n m g Hn Hinv) as Hs.
  destruct (step n m g); [apply IH; assumption | apply IH; assumption | exact Hs].
Qed.

(** A step of thread [t] that wakes nobody, inside a run. *)
Lemma run_thread n t th th' s' sched s ths :
  ths !! t = Some th ->
  tstep n t th s = TNext th' s' false ->
  run n (Run t :: sched) (mkG s ths) = run n sched (mkG s' (<[t := th']> ths)) /\
  <[t := th']> ths !! t = Some th'.
Proof.
  intros Hl Hs. cbn [run step threads sh]. rewrite Hl, Hs. split; [reflexivity|].
  apply list_lookup_insert_eq. eapply lookup_lt_Some; eauto.
Qed.











End GCFacts.

(** * Further properties of the safepoint pages *)

Section PageFacts.
Import Safepoint Props PageProps.

Ltac run_sp :=
  unfold sigint_round, jl_safepoint_end_gc, jl_safepoint_enable_sigint,
    jl_safepoint_defer_sigint, jl_safepoint_consume_sigint,
    jl_safepoint_enable, jl_safepoint_disable, mbind, M_bind, bind, mret, M_ret,
    ret, assert, emit, get_cnt, set_cnt, mprotect, get_pending, set_pending,
    get_gc_running, set_gc_running, cnt_at, prot_at in *;
  cbn [jl_signal_pending jl_gc_running jl_safepoint_enable_cnt page_prot trace] in *;
  change (Z.to_nat 0) with 0%nat in *; change (Z.to_nat 1) with 1%nat in *;
  change (Z.to_nat 2) with 2%nat in *.

Ltac split_all := repeat match goal with |- _ /\ _ => split end.

Ltac open_state s Hwf :=
  destruct s as [pending running cnt prt tr];
  destruct Hwf as [Hcnt Hprt]; cbn in Hcnt, Hprt;
  destruct cnt as [|c0 [|c1 [|c2 [|? ?]]]]; try discriminate Hcnt;
  destruct prt as [|p0 [|p1 [|p2 [|? ?]]]]; try discriminate Hprt;
  clear Hcnt Hprt.

Lemma in_range idx : 0 <= idx < 3 -> ((0 <=? idx) && (idx <? 3)) = true.
Proof. intros H. apply andb_true_intro. split; [apply Z.leb_le | apply Z.ltb_lt]; lia. Qed.

Lemma out_of_range idx : ~ (0 <= idx < 3) -> ((0 <=? idx) && (idx <? 3)) = false.
Proof.
  intros H. apply andb_false_iff.
  destruct (Z.leb_spec 0 idx); [right; apply Z.ltb_ge; lia | now left].
Qed.

(** The outcome of an enable by the old value [c] of the counter. *)
Ltac enable_slot c :=
  destruct (c =? 0) eqn:Hz; cbn;
  [ apply Z.eqb_eq in Hz; subst c; split;
    [ split; [discriminate | intros [? | ?]; lia]
    | intros s' E; injection E as <-; cbn; auto ]
  | apply Z.eqb_neq in Hz; unfold wrap8;
    destruct (decide (c = 255)) as [-> | Hne];
    [ cbn; split; [split; [discriminate | intros [? | ?]; lia]|];
      intros s' E; injection E as <-; cbn; auto
    | rewrite Z.mod_small by lia;
      destruct (Z.leb_spec (c + 1) 2); split;
      [ split; [discriminate | intros [? | ?]; lia]
      | intros s' E; injection E as <-; cbn; auto
      | split; [intros _; right; lia | reflexivity]
      | discriminate ] ] ].

(** [jl_safepoint_enable] fails an assertion exactly when the slot index
    is out of range or the slot is already enabled twice; a counter of
    255 wraps to 0 and passes.  When it succeeds the counter is the old
    one plus 1 as a byte, and the page is made inaccessible only if the
    old counter was 0. *)
Theorem enable_fails_iff idx s :
  wf s -> bytes s ->
  (jl_safepoint_enable idx s = AssertFail <->
     ~ (0 <= idx < 3) \/ 2 <= cnt_at s idx <= 254) /\
  (forall s', jl_safepoint_enable idx s = Ok (tt, s') ->
     cnt_at s' idx = wrap8 (cnt_at s idx + 1) /\
     prot_at s' idx = (if cnt_at s idx =? 0 then PROT_NONE else prot_at s idx)).
Proof.
  intros Hwf Hb.
  destruct (decide (0 <= idx < 3)) as [Hidx | Hidx].
  - assert (Hi : idx = 0 \/ idx = 1 \/ idx = 2) by lia.
    open_state s Hwf. unfold bytes in Hb. cbn in Hb.
    apply Forall_cons in Hb as [B0 Hb]. apply Forall_cons in Hb as [B1 Hb].
    apply Forall_cons in Hb as [B2 _].
    destruct Hi as [-> | [-> | ->]]; run_sp; cbn;
      [enable_slot c0 | enable_slot c1 | enable_slot c2].
  - unfold jl_safepoint_enable, mbind, M_bind, bind, emit, assert.
    rewrite (out_of_range idx Hidx). split.
    + split; [intros _; now left | reflexivity].
    + discriminate.
Qed.


Lemma enable_fails_iff_witness :
  (jl_safepoint_enable 1 interrupted_gc = AssertFail <->
     ~ (0 <= 1 < 3) \/ 2 <= cnt_at interrupted_gc 1 <= 254) /\
  (forall s', jl_safepoint_enable 1 interrupted_gc = Ok (tt, s') ->
     cnt_at s' 1 = wrap8 (cnt_at interrupted_gc 1 + 1) /\
     prot_at s' 1 =
       (if cnt_at interrupted_gc 1 =? 0 then PROT_NONE else prot_at interrupted_gc 1)).
Proof.
  apply (enable_fails_iff 1 interrupted_gc).
  - split; reflexivity.
  - unfold bytes. cbn. repeat constructor; lia.
Defined.

(** [jl_safepoint_disable] fails an assertion exactly when the slot
    index is out of range, whatever the counters are: its second
    assertion tests a byte that was just found different from 0. *)
Theorem disable_fails_iff idx s :
  jl_safepoint_disable idx s = AssertFail <-> ~ (0 <= idx < 3).
Proof.
  split.
  - intros Hf Hidx. destruct (disable_total idx s Hidx) as (s' & E & _). congruence.
  - intros Hidx. unfold jl_safepoint_disable, mbind, M_bind, bind, emit, assert.
    now rewrite (out_of_range idx Hidx).
Qed.

Lemma call_frame c s s' j :
  do_call c s = Ok (tt, s') -> 0 <= j -> call_idx c <> j ->
  cnt_at s' j = cnt_at s j /\ prot_at s' j = prot_at s j /\
  jl_signal_pending s' = jl_signal_pending s /\
  jl_gc_running s' = jl_gc_running s.
Proof.
  intros E Hj Hne.
  assert (Hidx : 0 <= call_idx c < 3).
  { destruct (decide (0 <= call_idx c < 3)) as [H | H]; [exact H | exfalso].
    destruct c as [i | i]; cbn in *;
      unfold jl_safepoint_enable, jl_safepoint_disable, mbind, M_bind, bind,
        emit, assert in E;
      rewrite (out_of_range i H) in E; discriminate. }
  assert (Hn : Z.to_nat (call_idx c) <> Z.to_nat j) by lia.
  destruct c as [i | i]; cbn [do_call call_idx] in *; run_sp;
    rewrite (in_range i Hidx) in E; cbn in E;
    repeat match type of E with
           | context [if ?b then _ else _] => destruct b
           end;
    try discriminate E; injection E as <-; cbn;
    rewrite ?list_lookup_insert_ne by exact Hn; auto.
Qed.

(** Enabling and disabling leave every slot they are not called on as
    it is, counter and protection, and never touch the interrupt level
    or [jl_gc_running]. *)
Theorem calls_frame cs : forall s s' j,
  do_calls cs s = Ok (tt, s') -> 0 <= j ->
  Forall (fun c => call_idx c <> j) cs ->
  cnt_at s' j = cnt_at s j /\ prot_at s' j = prot_at s j /\
  jl_signal_pending s' = jl_signal_pending s /\
  jl_gc_running s' = jl_gc_running s.
Proof.
  induction cs as [|c cs IH]; intros s s' j E Hj Hall.
  - injection E as <-. auto.
  - apply Forall_cons in Hall as [Hc Hall].
    cbn [do_calls] in E. unfold mbind, M_bind, bind in E.
    destruct (do_call c s) as [[[] s1]|] eqn:E1; [|discriminate].
    destruct (call_frame c s s1 j E1 Hj Hc) as (A1 & A2 & A3 & A4).
    destruct (IH s1 s' j E Hj Hall) as (B1 & B2 & B3 & B4).
    repeat split; congruence.
Qed.

Lemma calls_frame_witness :
  cnt_at (mkState 0 0 [0; 1; 0] [PROT_READ; PROT_NONE; PROT_READ]
            [EvEnable 1; EvMprotect 1 PROT_NONE]) 0 = cnt_at init 0 /\
  prot_at (mkState 0 0 [0; 1; 0] [PROT_READ; PROT_NONE; PROT_READ]
             [EvEnable 1; EvMprotect 1 PROT_NONE]) 0 = prot_at init 0 /\
  jl_signal_pending (mkState 0 0 [0; 1; 0] [PROT_READ; PROT_NONE; PROT_READ]
                       [EvEnable 1; EvMprotect 1 PROT_NONE]) = jl_signal_pending init /\
  jl_gc_running (mkState 0 0 [0; 1; 0] [PROT_READ; PROT_NONE; PROT_READ]
                   [EvEnable 1; EvMprotect 1 PROT_NONE]) = jl_gc_running init.
Proof.
  apply (calls_frame [Enable 1] init _ 0).
  - vm_compute. reflexivity.
  - lia.
  - repeat constructor; cbn; lia.
Defined.

(** An enable followed by a disable of the same slot puts counters and
    protections back exactly as they were. *)
Theorem enable_disable_round_trip idx c s :
  wf s -> 0 <= idx < 3 -> slot_is s idx c -> 0 <= c < 2 ->
  exists s', do_calls [Enable idx; Disable idx] s = Ok (tt, s') /\
             same_pages s s'.
Proof.
  intros Hwf Hidx [Hc Hp] Hrange.
  assert (Hi : idx = 0 \/ idx = 1 \/ idx = 2) by lia.
  assert (Hcc : c = 0 \/ c = 1) by lia.
  open_state s Hwf. unfold same_pages.
  destruct Hi as [-> | [-> | ->]]; cbn [do_calls do_call]; run_sp; cbn in Hc, Hp; subst;
    destruct Hcc as [-> | ->]; cbn; eexists; (split; [reflexivity|]); cbn; auto.
Qed.

Lemma enable_disable_round_trip_witness :
  exists s', do_calls [Enable 2; Disable 2] level1 = Ok (tt, s') /\
             same_pages level1 s'.
Proof.
  apply (enable_disable_round_trip 2 0 level1).
  - split; reflexivity.
  - lia.
  - split; reflexivity.
  - lia.
Defined.


(** Opens a state at interrupt level [lam] with [g] collector enables. *)
Ltac open_sigint s H :=
  let Hwf := fresh "Hwf" in
  destruct H as (Hwf & Hlam & Hg & Hp & [Hc0 Hp0] & [Hc1 Hp1]);
  open_state s Hwf;
  unfold cnt_at, prot_at in Hc0, Hp0, Hc1, Hp1;
  change (Z.to_nat 0) with 0%nat in *; change (Z.to_nat 1) with 1%nat in *;
  cbn in Hp, Hc0, Hp0, Hc1, Hp1; subst.

(** A second [jl_safepoint_enable_sigint] changes nothing: interrupts
    that arrive while one is pending at level 2 do not stack up enables,
    so the counters stay within their bound however many arrive. *)
Theorem enable_sigint_idempotent lam g s :
  sigint_state lam g s ->
  exists s1 s2,
    jl_safepoint_enable_sigint s = Ok (tt, s1) /\ sigint_state 2 g s1 /\
    jl_safepoint_enable_sigint s1 = Ok (tt, s2) /\ same_pages s1 s2 /\
    trace s2 = trace s1 ++ [EvLock; EvUnlock].
Proof.
  intros H.
  assert (Hl : lam = 0 \/ lam = 1 \/ lam = 2) by (destruct H as (_ & ? & _); lia).
  assert (Hgg : g = 0 \/ g = 1) by (destruct H as (_ & _ & ? & _); lia).
  destruct Hl as [-> | [-> | ->]]; destruct Hgg as [-> | ->];
    open_sigint s H;
    do 2 eexists; (split; [run_sp; cbn; reflexivity|]);
    unfold sigint_state, wf, slot_is, same_pages; run_sp; cbn; split_all;
    try reflexivity; try lia; rewrite <- ?app_assoc; reflexivity.
Qed.

Lemma enable_sigint_idempotent_witness :
  exists s1 s2,
    jl_safepoint_enable_sigint level1 = Ok (tt, s1) /\ sigint_state 2 0 s1 /\
    jl_safepoint_enable_sigint s1 = Ok (tt, s2) /\ same_pages s1 s2 /\
    trace s2 = trace s1 ++ [EvLock; EvUnlock].
Proof.
  apply (enable_sigint_idempotent 1 0 level1).
  unfold sigint_state, wf, slot_is. split_all; first [reflexivity | lia].
Defined.

(** A deferred interrupt is not lost: from level 2,
    [jl_safepoint_defer_sigint] leaves level 1 with slot 1 given back,
    and a later [jl_safepoint_consume_sigint] still reports the
    interrupt and ends in the pages that consuming at once would have
    given. *)
Theorem defer_then_consume g s :
  sigint_state 2 g s ->
  exists s1 s2 s0,
    jl_safepoint_defer_sigint s = Ok (tt, s1) /\ sigint_state 1 g s1 /\
    jl_safepoint_consume_sigint s1 = Ok (1, s2) /\ sigint_state 0 g s2 /\
    jl_safepoint_consume_sigint s = Ok (1, s0) /\ same_pages s0 s2.
Proof.
  intros H.
  assert (Hgg : g = 0 \/ g = 1) by (destruct H as (_ & _ & ? & _); lia).
  destruct Hgg as [-> | ->]; open_sigint s H;
    do 3 eexists; unfold sigint_state, wf, slot_is, same_pages; split_all;
    try (vm_compute; reflexivity); try lia.
Qed.

Lemma defer_then_consume_witness :
  exists s1 s2 s0,
    jl_safepoint_defer_sigint interrupted_gc = Ok (tt, s1) /\
    sigint_state 1 1 s1 /\
    jl_safepoint_consume_sigint s1 = Ok (1, s2) /\ sigint_state 0 1 s2 /\
    jl_safepoint_consume_sigint interrupted_gc = Ok (1, s0) /\ same_pages s0 s2.
Proof.
  apply (defer_then_consume 1 interrupted_gc).
  unfold sigint_state, wf, slot_is. split_all; first [reflexivity | lia].
Defined.

(** [jl_safepoint_end_gc] gives back the collector's enables and no
    others: with an interrupt pending at level [lam] during a collection,
    slot 2 becomes readable and [jl_gc_running] 0, while slot 0 and the
    interrupt's share of slot 1 stay as the level sets them; at level 2
    the master page stays inaccessible after the collection. *)
Theorem end_gc_keeps_sigint n lam s :
  n <> 1 -> jl_gc_running s <> 0 ->
  sigint_state lam 1 s -> slot_is s 2 1 ->
  exists s', jl_safepoint_end_gc n s = Ok (tt, s') /\
    jl_gc_running s' = 0 /\ sigint_state lam 0 s' /\ slot_is s' 2 0 /\
    (lam = 2 -> prot_at s' 1 = PROT_NONE).
Proof.
  intros Hn Hrun H [Hc2 Hp2].
  assert (Hl : lam = 0 \/ lam = 1 \/ lam = 2) by (destruct H as (_ & ? & _); lia).
  apply Z.eqb_neq in Hn, Hrun.
  destruct Hl as [-> | [-> | ->]]; open_sigint s H;
    unfold cnt_at, prot_at in Hc2, Hp2; change (Z.to_nat 2) with 2%nat in *;
    cbn in Hc2, Hp2; subst;
    unfold jl_safepoint_end_gc, mbind, M_bind, bind, get_gc_running, assert;
    cbn [jl_gc_running] in *; rewrite Hrun, Hn; cbn [negb];
    eexists; unfold sigint_state, wf, slot_is; split_all;
    try (vm_compute; reflexivity); try lia; intros; try lia.
Qed.

Lemma end_gc_keeps_sigint_witness :
  exists s', jl_safepoint_end_gc 4 interrupted_gc = Ok (tt, s') /\
    jl_gc_running s' = 0 /\ sigint_state 2 0 s' /\ slot_is s' 2 0 /\
    (2 = 2 -> prot_at s' 1 = PROT_NONE).
Proof.
  apply (end_gc_keeps_sigint 4 2 interrupted_gc).
  - lia.
  - cbn. lia.
  - unfold sigint_state, wf, slot_is. split_all; first [reflexivity | lia].
  - split; reflexivity.
Defined.

(** The collector's enables nest inside an interrupt's: slot 1 goes
    up to 2 and back without a failed assertion. *)
Lemma nested_calls_ok_witness :
  exists s', do_calls [Enable 1; Enable 1; Disable 1; Disable 1] init = Ok (tt, s') /\
             wf s' /\ slot_is s' 1 0 /\ 0 <= 0 <= 2.
Proof.
  apply (nested_calls_ok 1 [Enable 1; Enable 1; Disable 1; Disable 1] init 0 0).
  - split; reflexivity.
  - lia.
  - lia.
  - split; reflexivity.
  - reflexivity.
Defined.

End PageFacts.

(** * Further properties of the GC rendezvous *)

Section WakeFacts.
Import Safepoint GC GCProps WakeProps.

Lemma call_running c s s' :
  do_call c s = Ok (tt, s') -> jl_gc_running s' = jl_gc_running s.
Proof.
  intros E.
  destruct c as [i | i]; cbn [do_call] in E;
    unfold jl_safepoint_enable, jl_safepoint_disable, mbind, M_bind, bind, ret,
      assert, emit, get_cnt, set_cnt, mprotect in E;
    cbn [jl_signal_pending jl_gc_running jl_safepoint_enable_cnt page_prot trace] in E;
    repeat match type of E with
           | context [if ?b then _ else _] => destruct b
           end;
    try discriminate E; injection E as <-; reflexivity.
Qed.

(** What one step of a thread does to the sleepers' prospects. *)
Lemma tstep_wake n t th s th' s' w :
  n <> 1 -> tstep n t th s = TNext th' s' w ->
  sleeping th = false /\
  (w = true -> sleeping th' = false) /\
  (w = false ->
     (sleeping th' = true -> jl_gc_running (sp s') <> 0) /\
     (about_to_broadcast th = true -> about_to_broadcast th' = true) /\
     (jl_gc_running (sp s) <> 0 ->
        jl_gc_running (sp s') <> 0 \/ about_to_broadcast th' = true)).
Proof.
  intros Hn Hs. apply Z.eqb_neq in Hn.
  destruct th as [p gs rv]. destruct s as [st lk].
  unfold tstep, lock, unlock, exec in Hs.
  cbn [at_pc gc_state retval sp safepoint_lock] in Hs. rewrite ?Hn in Hs.
  unfold emit, set_gc_running, mbind, M_bind, bind in Hs.
  cbn [jl_signal_pending jl_gc_running jl_safepoint_enable_cnt page_prot trace] in Hs.
  destruct p; cbn [sleeping about_to_broadcast at_pc];
    repeat match type of Hs with
           | context [if ?c then _ else _] => destruct c eqn:?
           | context [match ?x with _ => _ end] => destruct x as [[[] ?]|] eqn:?
           | context [match ?x with _ => _ end] => destruct x eqn:?
           end;
    try discriminate Hs; injection Hs as <- <- <-;
    cbn [sleeping about_to_broadcast at_pc goto return_ sp jl_gc_running];
    repeat match goal with
           | H : jl_safepoint_enable ?i ?s0 = Ok (tt, _) |- _ =>
               apply (call_running (Enable i)) in H
           | H : jl_safepoint_disable ?i ?s0 = Ok (tt, _) |- _ =>
               apply (call_running (Disable i)) in H
           | H : negb (_ =? 0) = true |- _ =>
               apply negb_true_iff, Z.eqb_neq in H
           end;
    repeat apply conj; try reflexivity; try discriminate; intros;
    repeat apply conj; intros; try discriminate; try congruence; auto;
    try (left; congruence).
Qed.

Lemma wake_not_sleeping th : sleeping (wake th) = false.
Proof. destruct th as [[] gs rv]; reflexivity. Qed.

Lemma wake_broadcaster th : about_to_broadcast (wake th) = about_to_broadcast th.
Proof. destruct th as [[] gs rv]; reflexivity. Qed.

Lemma init_wakeup k : wakeup_pending (ginit k).
Proof.
  intros (t & th & Hl & Hs). apply lookup_replicate in Hl as [-> _]. discriminate.
Qed.

Lemma step_wakeup n m g :
  n <> 1 -> wakeup_pending g ->
  match step n m g with
  | Next g' => wakeup_pending g'
  | _ => True
  end.
Proof.
  intros Hn Hw. destruct m as [t | t]; unfold step;
    destruct (threads g !! t) as [th|] eqn:Hl; try exact I.
  - destruct (tstep n t th (sh g)) as [th' s' w| |] eqn:Hs; try exact I.
    destruct (tstep_wake n t th (sh g) th' s' w Hn Hs) as (Hth & Hwt & Hwf).
    intros (t1 & th1 & H1 & Hs1). cbn [sh threads] in *.
    apply (updated_lookup (threads g) t th' w) in H1
      as [[-> ->] | (Hne & th0 & H0 & ->)].
    + destruct w; [rewrite (Hwt eq_refl) in Hs1; discriminate|].
      left. now apply (Hwf eq_refl).
    + destruct w; [rewrite wake_not_sleeping in Hs1; discriminate|].
      destruct (Hwf eq_refl) as (_ & Hb & Hr).
      destruct Hw as [Hrun | (tb & thb & Hlb & Hbb)]; [eauto| |].
      * destruct (Hr Hrun) as [? | Hb']; [now left | right].
        exists t, th'. split; [|exact Hb'].
        exact (updated_self (threads g) t th th' false Hl).
      * right. destruct (decide (tb = t)) as [-> | Hnb].
        -- exists t, th'. split; [exact (updated_self (threads g) t th th' false Hl)|].
           apply Hb. congruence.
        -- exists tb, thb. split; [|exact Hbb].
           exact (updated_other (threads g) t th' false tb thb Hnb Hlb).
  - destruct (at_pc th) eqn:Hpc; try exact I.
    intros (t1 & th1 & H1 & Hs1). cbn [sh threads] in *.
    apply (updated_lookup (threads g) t (wake th) false) in H1
      as [[-> ->] | (Hne & th0 & H0 & ->)].
    + rewrite wake_not_sleeping in Hs1. discriminate.
    + destruct Hw as [Hrun | (tb & thb & Hlb & Hbb)]; [eauto | now left | right].
      destruct (decide (tb = t)) as [-> | Hnb].
      * assert (thb = th) by congruence. subst thb.
        unfold about_to_broadcast in Hbb. rewrite Hpc in Hbb. discriminate.
      * exists tb, thb. split; [|exact Hbb].
        exact (updated_other (threads g) t (wake th) false tb thb Hnb Hlb).
Qed.

Lemma run_wakeup n sched : forall g,
  n <> 1 -> wakeup_pending g ->
  match run n sched g with
  | Next g' => wakeup_pending g'
  | _ => True
  end.
Proof.
  induction sched as [|m sched IH]; intros g Hn Hw; cbn; [exact Hw|].
  pose proof (step_wakeup n m g Hn Hw) as Hs.
  destruct (step n m g); [apply IH; assumption | apply IH; assumption | exact I].
Qed.

(** No wake-up is lost: in every state of every interleaving with more
    than one thread, while a thread is asleep in the [uv_cond_wait] of
    [jl_safepoint_wait_gc] some thread still has the broadcast of
    [jl_safepoint_end_gc] ahead of it: one that holds the collection, or
    one that has stored 0 into [jl_gc_running] and not yet broadcast.
    The sleeper does not hold the safepoint lock. *)
Theorem no_lost_wakeup n k sched g t th :
  n <> 1 -> run n sched (ginit k) = Next g ->
  thread_at g t th -> at_pc th = WaitCond ->
  safepoint_lock (sh g) <> Some t /\
  exists t' th', thread_at g t' th' /\
    (holds_gc th' = true \/ at_pc th' = EndUnlock \/ at_pc th' = EndBroadcast).
Proof.
  intros Hn Hrun Hl Hpc.
  pose proof (run_inv n sched (ginit k) Hn (init_inv k)) as Hinv.
  pose proof (run_wakeup n sched (ginit k) Hn (init_wakeup k)) as Hw.
  rewrite Hrun in Hinv, Hw. destruct Hinv as ((Hrange & _) & Hex & Hth & _).
  split.
  - destruct (Hth t th Hl) as (_ & Hlock & _). intros E. apply Hlock in E.
    unfold holds_lock in E. rewrite Hpc in E. discriminate.
  - destruct Hw as [Hrun1 | (tb & thb & Hlb & Hbb)].
    + exists t, th. split; [exact Hl|]. unfold sleeping. now rewrite Hpc.
    + destruct Hex as (t' & th' & Hl' & Hh); [lia|]. exists t', th'. auto.
    + exists tb, thb. split; [exact Hlb|]. right.
      unfold about_to_broadcast in Hbb. destruct (at_pc thb); try discriminate; auto.
Qed.

Lemma no_lost_wakeup_witness :
  safepoint_lock (sh (gstate_after 2 2 asleep)) <> Some 1%nat /\
  exists t' th', thread_at (gstate_after 2 2 asleep) t' th' /\
    (holds_gc th' = true \/ at_pc th' = EndUnlock \/ at_pc th' = EndBroadcast).
Proof.
  apply (no_lost_wakeup 2 2 asleep (gstate_after 2 2 asleep) 1%nat
           (mkThread WaitCond JL_GC_STATE_WAITING None)).
  - discriminate.
  - vm_compute. reflexivity.
  - vm_compute. reflexivity.
  - reflexivity.
Defined.

(** The safepoint lock protects what it should: in every state of
    every interleaving with more than one thread, the lock is held by
    thread [t] exactly when [t] is inside one of the locked regions of
    [jl_safepoint_start_gc], [jl_safepoint_wait_gc] or
    [jl_safepoint_end_gc], so no two threads are inside at once; and
    whenever [jl_gc_running] is 0 all three pages are readable with
    their counters at 0. *)
Theorem lock_mutual_exclusion n k sched g :
  n <> 1 -> run n sched (ginit k) = Next g ->
  (forall t th, thread_at g t th ->
     (holds_lock th = true <-> safepoint_lock (sh g) = Some t)) /\
  (forall t t' th th', thread_at g t th -> thread_at g t' th' ->
     holds_lock th = true -> holds_lock th' = true -> t = t') /\
  (jl_gc_running (sp (sh g)) = 0 -> pages (sh g) = idle_pages).
Proof.
  intros Hn Hrun.
  pose proof (run_inv n sched (ginit k) Hn (init_inv k)) as Hinv.
  rewrite Hrun in Hinv. destruct Hinv as ((_ & Hidle) & _ & Hth & _).
  repeat apply conj.
  - intros t th Hl. now destruct (Hth t th Hl) as (_ & Hlock & _).
  - intros t t' th th' Hl Hl' Hh Hh'.
    destruct (Hth t th Hl) as (_ & Hlock & _).
    destruct (Hth t' th' Hl') as (_ & Hlock' & _).
    apply Hlock in Hh. apply Hlock' in Hh'. congruence.
  - exact Hidle.
Qed.

Lemma lock_mutual_exclusion_witness :
  (forall t th, thread_at (gstate_after 2 3 contended) t th ->
     (holds_lock th = true <->
      safepoint_lock (sh (gstate_after 2 3 contended)) = Some t)) /\
  (forall t t' th th', thread_at (gstate_after 2 3 contended) t th ->
     thread_at (gstate_after 2 3 contended) t' th' ->
     holds_lock th = true -> holds_lock th' = true -> t = t') /\
  (jl_gc_running (sp (sh (gstate_after 2 3 contended))) = 0 ->
   pages (sh (gstate_after 2 3 contended)) = idle_pages).
Proof.
  apply (lock_mutual_exclusion 2 3 contended (gstate_after 2 3 contended)).
  - discriminate.
  - vm_compute. reflexivity.
Defined.

Lemma wake_sleeper th : at_pc th = WaitCond -> at_pc (wake th) = WaitWoken.
Proof. destruct th as [p gs rv]. cbn. now intros ->. Qed.

(** [jl_safepoint_end_gc] wakes every sleeper: from any state of an
    interleaving in which thread [t] holds a collection it has returned
    from [jl_safepoint_start_gc] with and the safepoint lock is free,
    the eight steps of [t]'s [jl_safepoint_end_gc] fail no assertion,
    leave [jl_gc_running] at 0, the pages readable and the lock free, and
    every thread that was asleep in [uv_cond_wait] is on its way out of
    it; no thread is left asleep. *)
Theorem end_gc_wakes_sleepers n k sched g t th :
  n <> 1 -> run n sched (ginit k) = Next g ->
  thread_at g t th -> at_pc th = Returned -> retval th = Some 1 ->
  safepoint_lock (sh g) = None ->
  exists g',
    run n (replicate 8 (Run t)) g = Next g' /\
    jl_gc_running (sp (sh g')) = 0 /\ pages (sh g') = idle_pages /\
    safepoint_lock (sh g') = None /\
    (exists th', thread_at g' t th' /\ at_pc th' = Finished) /\
    (forall t0 th0, thread_at g t0 th0 -> at_pc th0 = WaitCond ->
       exists th1, thread_at g' t0 th1 /\ at_pc th1 = WaitWoken) /\
    (forall t0 th1, thread_at g' t0 th1 -> at_pc th1 <> WaitCond).
Proof.
  intros Hn Hrun Hl Hpc Hrv Hfree. unfold thread_at in *.
  pose proof (run_inv n sched (ginit k) Hn (init_inv k)) as Hinv.
  rewrite Hrun in Hinv. destruct Hinv as (_ & _ & Hth & _).
  destruct (Hth t th Hl) as (_ & _ & Hgc & _).
  destruct g as [[[pend running cnt prt tr] lk] ths].
  destruct th as [p gs rv]. unfold pages in *.
  cbn [sh sp threads safepoint_lock jl_gc_running jl_safepoint_enable_cnt
       page_prot at_pc retval holds_gc] in *.
  subst p rv lk. destruct (Hgc eq_refl) as [-> Hpg]. injection Hpg as -> ->.
  apply Z.eqb_neq in Hn. cbn [replicate].
  edestruct (run_thread n t) as [-> Hl1]; [exact Hl | reflexivity |].
  edestruct (run_thread n t) as [-> Hl2];
    [exact Hl1 | unfold tstep; cbn; rewrite Hn; reflexivity |].
  edestruct (run_thread n t) as [-> Hl3]; [exact Hl2 | vm_compute; reflexivity |].
  edestruct (run_thread n t) as [-> Hl4]; [exact Hl3 | vm_compute; reflexivity |].
  edestruct (run_thread n t) as [-> Hl5]; [exact Hl4 | vm_compute; reflexivity |].
  edestruct (run_thread n t) as [-> Hl6]; [exact Hl5 | vm_compute; reflexivity |].
  edestruct (run_thread n t) as [-> Hl7];
    [exact Hl6
    | unfold tstep, unlock; cbn [at_pc safepoint_lock];
      rewrite Nat.eqb_refl; vm_compute; reflexivity |].
  cbn [run step threads sh]. rewrite Hl7.
  unfold tstep, emit. cbn [at_pc sp].
  eexists. split; [reflexivity|]. cbn [sh sp threads safepoint_lock jl_gc_running
    jl_safepoint_enable_cnt page_prot].
  rewrite !list_insert_insert_eq.
  repeat apply conj; try reflexivity.
  - exists (mkThread Finished gs (Some 1)). split; [|reflexivity].
    apply list_lookup_insert_eq. rewrite length_fmap, length_insert.
    eapply lookup_lt_Some; eauto.
  - intros t0 th0 H0 Hs0.
    assert (t0 <> t) by (intros ->; rewrite Hl in H0; injection H0 as <-; discriminate).
    exists (wake th0). split; [|now apply wake_sleeper].
    rewrite list_lookup_insert_ne by congruence.
    rewrite list_lookup_fmap, list_lookup_insert_ne by congruence.
    now rewrite H0.
  - intros t0 th1 H1 Hs1.
    apply list_lookup_insert_Some in H1 as [(_ & <- & _) | (_ & H1)];
      [discriminate|].
    rewrite list_lookup_fmap in H1. apply fmap_Some in H1 as (th0 & _ & ->).
    pose proof (wake_not_sleeping th0) as Hw. unfold sleeping in Hw.
    rewrite Hs1 in Hw. discriminate.
Qed.

Lemma end_gc_wakes_sleepers_witness :
  exists g',
    run 2 (replicate 8 (Run 0%nat)) (gstate_after 2 2 asleep) = Next g' /\
    jl_gc_running (sp (sh g')) = 0 /\ pages (sh g') = idle_pages /\
    safepoint_lock (sh g') = None /\
    (exists th', thread_at g' 0%nat th' /\ at_pc th' = Finished) /\
    (forall t0 th0, thread_at (gstate_after 2 2 asleep) t0 th0 ->
       at_pc th0 = WaitCond ->
       exists th1, thread_at g' t0 th1 /\ at_pc th1 = WaitWoken) /\
    (forall t0 th1, thread_at g' t0 th1 -> at_pc th1 <> WaitCond).
Proof.
  apply (end_gc_wakes_sleepers 2 2 asleep (gstate_after 2 2 asleep) 0%nat
           (mkThread Returned JL_GC_STATE_WAITING (Some 1))).
  - discriminate.
  - vm_compute. reflexivity.
  - vm_compute. reflexivity.
  - reflexivity.
  - reflexivity.
  - vm_compute. reflexivity.
Defined.

End WakeFacts.

(** * Further properties of the fault router *)

Section ContextFacts.
Import Signals Props.

Variables page_size pages throw_addr : Z.

(** Clearing the low four bits of an address, as [rsp & ~15] does. *)
Lemma land_not_15 x :
  0 <= x < 2 ^ 64 -> Z.land x (wrap64 (Z.lnot 15)) = x - x mod 16.
Proof.
  intros Hx. change (wrap64 (Z.lnot 15)) with (Z.shiftl (Z.ones 60) 4).
  replace (x - x mod 16) with (Z.shiftl (Z.shiftr x 4) 4).
  2:{ rewrite Z.shiftl_mul_pow2, Z.shiftr_div_pow2 by lia.
      change (2 ^ 4) with 16. pose proof (Z.div_mod x 16). lia. }
  apply Z.bits_inj'. intros i Hi. rewrite Z.land_spec.
  destruct (Z.ltb_spec i 4).
  - rewrite !Z.shiftl_spec_low by lia. apply andb_false_r.
  - rewrite !Z.shiftl_spec by lia. rewrite Z.shiftr_spec by lia.
    replace (i - 4 + 4) with i by lia.
    destruct (Z.ltb_spec (i - 4) 60).
    + rewrite Z.ones_spec_low by lia. apply andb_true_r.
    + rewrite Z.ones_spec_high by lia. rewrite andb_false_r. symmetry.
      destruct (decide (x = 0)) as [-> | Hnz]; [apply Z.bits_0|].
      apply Z.bits_above_log2; [lia|].
      apply Z.lt_le_trans with 64; [|lia].
      apply Z.log2_lt_pow2; lia.
Qed.

(** When the trapped stack pointer is on the signal stack,
    [jl_call_in_ctx] fails no assertion and redirects the context to
    [fptr] below the 256-byte red zone: the new stack pointer is between
    264 and 279 bytes under the trapped one and is 8 modulo 16, as on
    entry to a function that was called; the error register and the
    safepoint state are left alone. *)
Theorem call_in_ctx_on_sigstack p fptr addr sig h :
  signal_stack p <> 0 ->
  is_addr_on_sigstack page_size p (REG_RSP (uctx h)) = true ->
  272 <= REG_RSP (uctx h) < 2 ^ 64 ->
  exists rsp',
    jl_call_in_ctx page_size (Some p) fptr addr sig h =
      Ok (Returned, mkH (sp h) (mkUcontext rsp' addr (REG_ERR (uctx h)))
                        (log h ++ [ASetContext rsp' addr])) /\
    rsp' mod 16 = 8 /\
    REG_RSP (uctx h) - 279 <= rsp' <= REG_RSP (uctx h) - 264.
Proof.
  intros Hss Hon Hrsp.
  unfold jl_call_in_ctx, jl_get_rsp_from_ctx, mbind, H_bind, mret, H_ret,
    get_uctx, set_uctx, hassert, act.
  apply Z.eqb_neq in Hss. rewrite Hss, Hon. cbn [sp uctx log].
  set (rsp := REG_RSP (uctx h)) in *.
  assert (Hw : wrap64 (rsp - 256) = rsp - 256) by (apply Z.mod_small; lia).
  rewrite Hw, land_not_15 by lia.
  pose proof (Z.div_mod (rsp - 256) 16 ltac:(lia)) as Hdm.
  pose proof (Z.mod_pos_bound (rsp - 256) 16 ltac:(lia)) as Hmb.
  set (r := rsp - 256 - (rsp - 256) mod 16) in *.
  assert (Hr : r = 16 * ((rsp - 256) / 16)) by (subst r; lia).
  assert (Hr0 : r mod 16 = 0) by (rewrite Hr, Z.mul_comm; apply Z.mod_mul; lia).
  assert (Hr16 : 16 <= r) by (rewrite Hr; pose proof (Z.div_le_lower_bound (rsp - 256) 16 1); lia).
  rewrite Hr0. cbn [Z.eqb].
  assert (Hw8 : wrap64 (r - 8) = r - 8) by (apply Z.mod_small; subst r; lia).
  rewrite Hw8. exists (r - 8). split; [reflexivity|]. split.
  - replace (r - 8) with (8 + (r / 16 - 1) * 16).
    + rewrite Z.mod_add by lia. reflexivity.
    + pose proof (Z.div_mod r 16 ltac:(lia)). lia.
  - subst r. lia.
Qed.

(** When the trapped stack pointer is not on the signal stack,
    [jl_call_in_ctx] moves the thread onto it: the new stack pointer is
    8 bytes under the top of the signal stack, provided the signal stack
    is aligned to 16 bytes; if it is not, the assertion fails. *)
Theorem call_in_ctx_switches_stack p fptr addr sig h :
  signal_stack p <> 0 ->
  is_addr_on_sigstack page_size p (REG_RSP (uctx h)) = false ->
  0 < signal_stack p -> signal_stack p + sig_stack_size < 2 ^ 64 ->
  (signal_stack p mod 16 = 0 ->
     jl_call_in_ctx page_size (Some p) fptr addr sig h =
       Ok (Returned,
           mkH (sp h)
               (mkUcontext (signal_stack p + sig_stack_size - 8) addr
                           (REG_ERR (uctx h)))
               (log h ++ [ASetContext (signal_stack p + sig_stack_size - 8) addr]))) /\
  (signal_stack p mod 16 <> 0 ->
     jl_call_in_ctx page_size (Some p) fptr addr sig h = AssertFail).
Proof.
  intros Hss Hoff Hpos Htop.
  unfold jl_call_in_ctx, jl_get_rsp_from_ctx, mbind, H_bind, mret, H_ret,
    get_uctx, set_uctx, hassert, act.
  apply Z.eqb_neq in Hss. rewrite Hss, Hoff. cbn [sp uctx log].
  assert (Hsz : sig_stack_size = 16 * 524288) by reflexivity.
  assert (Hw : wrap64 (signal_stack p + sig_stack_size) = signal_stack p + sig_stack_size)
    by (apply Z.mod_small; rewrite Hsz; lia).
  rewrite Hw.
  assert (Hm : (signal_stack p + sig_stack_size) mod 16 = signal_stack p mod 16).
  { rewrite Hsz, (Z.mul_comm 16). apply Z.mod_add. lia. }
  rewrite Hm. split; intros Ha.
  - rewrite Ha. cbn [Z.eqb].
    assert (Hw8 : wrap64 (signal_stack p + sig_stack_size - 8)
                  = signal_stack p + sig_stack_size - 8)
      by (apply Z.mod_small; rewrite Hsz; lia).
    rewrite Hw8. reflexivity.
  - apply Z.eqb_neq in Ha. rewrite Ha. reflexivity.
Qed.

(** [jl_call_in_ctx] leaves the safepoint state alone; it either calls
    [fptr] on the spot, with the context as it was, or returns with the
    context redirected to [fptr] and the error register unchanged. *)
Lemma call_in_ctx_frame p fptr addr sig h o h' :
  jl_call_in_ctx page_size p fptr addr sig h = Ok (o, h') ->
  sp h' = sp h /\
  ((o = Escaped /\ uctx h' = uctx h) \/
   (o = Returned /\ REG_RIP (uctx h') = addr /\
    REG_ERR (uctx h') = REG_ERR (uctx h))).
Proof.
  unfold jl_call_in_ctx, mbind, H_bind, mret, H_ret, get_uctx, set_uctx,
    hassert, act.
  intros E. destruct p as [p|]; cbn [sp uctx log] in E.
  - destruct (signal_stack p =? 0); cbn [sp uctx log] in E.
    + injection E as <- <-. auto.
    + match type of E with
      | context [if ?b then _ else _] => destruct b
      end; [|discriminate]. cbn [sp uctx log] in E.
      injection E as <- <-. cbn. auto.
  - injection E as <- <-. auto.
Qed.

Lemma sigdie_frame sig h :
  exists l, sigdie_handler sig h = Ok (tt, mkH (sp h) (uctx h) (log h ++ l)).
Proof.
  unfold sigdie_handler, mbind, H_bind, mret, H_ret, act. cbn [sp uctx log].
  destruct (sig =? SIGILL);
    destruct (negb (sig =? SIGSEGV) && negb (sig =? SIGBUS) && _);
    cbn [sp uctx log]; rewrite <- ?app_assoc; eexists; reflexivity.
Qed.

(** [segv_handler] changes the safepoint state only on thread 0 at a
    safepoint page: with a safe-restore buffer installed, without a
    current task, on a worker thread, or for a fault elsewhere, the
    interrupt level, the counters and the pages are as before. *)
Theorem segv_handler_frame safe_restore current sig info h o h' :
  segv_handler page_size pages throw_addr safe_restore current sig info h
    = Ok (o, h') ->
  (safe_restore = false ->
   forall ct, current = Some ct ->
     tid ct <> 0 \/ jl_addr_is_safepoint page_size pages (si_addr info) = false) ->
  sp h' = sp h.
Proof.
  intros E Hcase. unfold segv_handler in E.
  destruct safe_restore.
  - now apply call_in_ctx_frame in E as [? _].
  - specialize (Hcase eq_refl). destruct current as [ct|].
    + specialize (Hcase ct eq_refl).
      unfold jl_set_gc_and_wait, jl_throw_in_ctx, act, hassert, get_uctx,
        mbind, H_bind, mret, H_ret in E.
      destruct ((sig =? SIGSEGV) || (sig =? SIGBUS)); [|discriminate].
      cbn [sp uctx log negb] in E.
      destruct (jl_addr_is_safepoint page_size pages (si_addr info)).
      * destruct Hcase as [Ht | ?]; [|discriminate].
        apply Z.eqb_neq in Ht. rewrite Ht in E. cbn in E. now injection E as <- <-.
      * destruct (is_addr_on_stack ct (si_addr info));
          [now apply call_in_ctx_frame in E as [? _]|].
        destruct (jl_is_on_sigstack page_size (ptls ct) (si_addr info) (uctx h));
          [cbn in E; now injection E as <- <-|].
        destruct ((sig =? SIGSEGV) && (si_code info =? SEGV_ACCERR) && _);
          [now apply call_in_ctx_frame in E as [? _]|].
        destruct (sigdie_frame sig h) as (l & El).
        rewrite El in E. now injection E as <- <-.
    + destruct (sigdie_frame sig h) as (l & El).
      unfold mbind, H_bind, mret, H_ret in E. rewrite El in E. now injection E as <- <-.
Qed.

Lemma lift_uctx {A} (m : Safepoint.M A) h a h1 :
  lift m h = Ok (a, h1) -> uctx h1 = uctx h /\ log h1 = log h.
Proof.
  unfold lift. destruct (m (sp h)) as [[a' s']|]; [|discriminate].
  intros E. injection E as <- <-. auto.
Qed.

(** Whatever the fault, [segv_handler] never touches the error
    register, leaves the trapped context alone unless it returns, and
    then either leaves it alone too or redirects it to [jl_sig_throw] and
    to nothing else; when it exits the process the status is the signal
    number plus 128. *)
Theorem segv_handler_context safe_restore current sig info h o h' :
  segv_handler page_size pages throw_addr safe_restore current sig info h
    = Ok (o, h') ->
  REG_ERR (uctx h') = REG_ERR (uctx h) /\
  match o with
  | Returned => uctx h' = uctx h \/ REG_RIP (uctx h') = throw_addr
  | Exited status => status = sig + 128 /\ uctx h' = uctx h
  | Escaped => uctx h' = uctx h
  end.
Proof.
  assert (Hcall : forall p h0 o0 h0',
    jl_call_in_ctx page_size p jl_sig_throw throw_addr sig h0 = Ok (o0, h0') ->
    uctx h0 = uctx h ->
    REG_ERR (uctx h0') = REG_ERR (uctx h) /\
    match o0 with
    | Returned => uctx h0' = uctx h \/ REG_RIP (uctx h0') = throw_addr
    | Exited status => status = sig + 128 /\ uctx h0' = uctx h
    | Escaped => uctx h0' = uctx h
    end).
  { intros p h0 o0 h0' E0 Hu.
    apply call_in_ctx_frame in E0 as (_ & [(-> & E1) | (-> & E1 & E2)]).
    - rewrite E1, Hu. auto.
    - rewrite E2, Hu. auto. }
  intros E. unfold segv_handler in E.
  destruct safe_restore; [now apply (Hcall _ _ _ _ E)|].
  destruct current as [ct|].
  - unfold jl_set_gc_and_wait, jl_clear_force_sigint, jl_throw_in_ctx, act,
      hassert, get_uctx, mbind, H_bind, mret, H_ret in E.
    destruct ((sig =? SIGSEGV) || (sig =? SIGBUS)); [|discriminate].
    cbn [sp uctx log negb] in E.
    destruct (jl_addr_is_safepoint page_size pages (si_addr info)).
    + destruct (tid ct =? 0); cbn [negb] in E;
        [|injection E as <- <-; cbn; auto].
      destruct (defer_signal (ptls ct) =? 0); cbn [negb sp uctx log] in E.
      * match type of E with
        | context [lift ?m ?h0] => destruct (lift m h0) as [[r h1]|] eqn:El
        end; [|discriminate].
        apply lift_uctx in El as [Hu _]. cbn [sp uctx log] in E, Hu.
        destruct (r =? 0); cbn [negb sp uctx log] in E.
        -- injection E as <- <-. cbn. rewrite Hu. auto.
        -- apply (Hcall _ _ _ _ E). cbn. exact Hu.
      * match type of E with
        | context [lift ?m ?h0] => destruct (lift m h0) as [[r h1]|] eqn:El
        end; [|discriminate].
        apply lift_uctx in El as [Hu _]. cbn [sp uctx log] in Hu.
        injection E as <- <-. rewrite Hu. auto.
    + destruct (is_addr_on_stack ct (si_addr info));
        [now apply (Hcall _ _ _ _ E)|].
      destruct (jl_is_on_sigstack page_size (ptls ct) (si_addr info) (uctx h));
        [cbn in E; injection E as <- <-; cbn; auto|].
      destruct ((sig =? SIGSEGV) && (si_code info =? SEGV_ACCERR) && _);
        [now apply (Hcall _ _ _ _ E)|].
      destruct (sigdie_frame sig h) as (l & El).
      rewrite El in E. injection E as <- <-. cbn. auto.
  - destruct (sigdie_frame sig h) as (l & El).
    unfold mbind, H_bind, mret, H_ret in E. rewrite El in E.
    injection E as <- <-. cbn. auto.
Qed.

(** The order in which [segv_handler] classifies a fault that is not a
    safepoint poll, in a thread with a current task and no safe-restore
    buffer: an address on the task's stack is a stack overflow, whatever
    else holds; failing that, an address and a trapped stack pointer on
    the signal stack end the process; failing that, a SIGSEGV for a
    protection violation whose error code has the write bit (bit 1) set
    is a write to read-only memory, and a SIGBUS never is; anything else
    is fatal: the default action is restored, the error reported, and the
    handler returns without raising the signal again. *)
Theorem fault_classification ct sig info h :
  sig = SIGSEGV \/ sig = SIGBUS ->
  jl_addr_is_safepoint page_size pages (si_addr info) = false ->
  segv_handler page_size pages throw_addr false (Some ct) sig info h =
    if is_addr_on_stack ct (si_addr info) then
      jl_call_in_ctx page_size (Some (ptls ct)) jl_sig_throw throw_addr sig
        (mkH (sp h) (uctx h)
             (log h ++ [ARecordBacktrace; ASetSigException jl_stackovf_exception]))
    else if jl_is_on_sigstack page_size (ptls ct) (si_addr info) (uctx h) then
      Ok (Exited (sig + 128),
          mkH (sp h) (uctx h)
              (log h ++ [APrintf MsgSignalStackOverflow; AExit (sig + 128)]))
    else if (sig =? SIGSEGV) && (si_code info =? SEGV_ACCERR)
            && Z.testbit (REG_ERR (uctx h)) 1 then
      jl_call_in_ctx page_size (Some (ptls ct)) jl_sig_throw throw_addr sig
        (mkH (sp h) (uctx h)
             (log h ++ [ARecordBacktrace;
                        ASetSigException jl_readonlymemory_exception]))
    else
      Ok (Returned,
          mkH (sp h) (uctx h)
              (log h ++ [ASignalDefault sig; ATtyResetMode; ACriticalError sig])).
Proof.
  intros Hsig Hsafe.
  assert (Hbit : forall err, negb (is_write_fault (mkUcontext 0 0 err) =? 0)
                             = Z.testbit err 1).
  { intros err. unfold is_write_fault, exc_reg_is_write_fault, WRITE_FAULT.
    cbn [REG_ERR]. change 2 with (2 ^ 1).
    destruct (Z.testbit err 1) eqn:Hb.
    - apply negb_true_iff, Z.eqb_neq. intros Hz.
      apply (f_equal (fun z => Z.testbit z 1)) in Hz.
      rewrite Z.land_spec, Hb, Z.pow2_bits_true in Hz by lia. discriminate.
    - apply negb_false_iff, Z.eqb_eq. apply Z.bits_inj'. intros i Hi.
      rewrite Z.land_spec, Z.bits_0. destruct (decide (i = 1)) as [-> | Hne].
      + now rewrite Hb.
      + rewrite Z.pow2_bits_false by lia. apply andb_false_r. }
  unfold segv_handler, jl_throw_in_ctx, sigdie_handler, act, hassert, get_uctx,
    mbind, H_bind, mret, H_ret.
  cbn [sp uctx log negb]. rewrite Hsafe.
  assert (Hok : ((sig =? SIGSEGV) || (sig =? SIGBUS)) = true).
  { destruct Hsig as [-> | ->]; reflexivity. }
  rewrite Hok. cbn [sp uctx log].
  destruct (is_addr_on_stack ct (si_addr info));
    [rewrite <- app_assoc; reflexivity|].
  destruct (jl_is_on_sigstack page_size (ptls ct) (si_addr info) (uctx h));
    [cbn [sp uctx log]; rewrite <- app_assoc; reflexivity|].
  assert (Hw : negb (is_write_fault (uctx h) =? 0) = Z.testbit (REG_ERR (uctx h)) 1).
  { rewrite <- Hbit. reflexivity. }
  rewrite Hw.
  destruct ((sig =? SIGSEGV) && (si_code info =? SEGV_ACCERR)
            && Z.testbit (REG_ERR (uctx h)) 1);
    [rewrite <- app_assoc; reflexivity|].
  destruct Hsig as [-> | ->]; cbn [Z.eqb Pos.eqb SIGSEGV SIGBUS SIGILL negb andb
                                   sp uctx log];
    rewrite <- !app_assoc; reflexivity.
Qed.

End ContextFacts.

Section ContextWitnesses.
Import Signals Props.

Lemma call_in_ctx_on_sigstack_witness :
  exists rsp',
    jl_call_in_ctx 4096 (Some (ptls poll_task)) jl_sig_throw 4198400 SIGSEGV
                   handler_on_sigstack =
      Ok (Returned,
          mkH (sp handler_on_sigstack)
              (mkUcontext rsp' 4198400 (REG_ERR (uctx handler_on_sigstack)))
              (log handler_on_sigstack ++ [ASetContext rsp' 4198400])) /\
    rsp' mod 16 = 8 /\
    REG_RSP (uctx handler_on_sigstack) - 279 <= rsp'
      <= REG_RSP (uctx handler_on_sigstack) - 264.
Proof.
  apply (call_in_ctx_on_sigstack 4096 (ptls poll_task) jl_sig_throw 4198400
           SIGSEGV handler_on_sigstack).
  - discriminate.
  - reflexivity.
  - cbn. lia.
Defined.

Lemma call_in_ctx_switches_stack_witness :
  (signal_stack (ptls poll_task) mod 16 = 0 ->
     jl_call_in_ctx 4096 (Some (ptls poll_task)) jl_sig_throw 4198400 SIGSEGV
                    handler_start =
       Ok (Returned,
           mkH (sp handler_start)
               (mkUcontext (signal_stack (ptls poll_task) + sig_stack_size - 8)
                           4198400 (REG_ERR (uctx handler_start)))
               (log handler_start ++
                [ASetContext (signal_stack (ptls poll_task) + sig_stack_size - 8)
                             4198400]))) /\
  (signal_stack (ptls poll_task) mod 16 <> 0 ->
     jl_call_in_ctx 4096 (Some (ptls poll_task)) jl_sig_throw 4198400 SIGSEGV
                    handler_start = AssertFail).
Proof.
  apply (call_in_ctx_switches_stack 4096 (ptls poll_task) jl_sig_throw 4198400
           SIGSEGV handler_start).
  - discriminate.
  - reflexivity.
  - reflexivity.
  - reflexivity.
Defined.

Lemma segv_handler_frame_witness :
  sp (mkH Safepoint.init (uctx handler_start)
          [ASignalDefault SIGSEGV; ATtyResetMode; ACriticalError SIGSEGV])
    = sp handler_start.
Proof.
  apply (segv_handler_frame 4096 65536 4198400 false (Some poll_task) SIGSEGV
           sigstack_fault handler_start Returned).
  - reflexivity.
  - intros _ ct E. injection E as <-. right. reflexivity.
Defined.

Lemma segv_handler_context_witness :
  REG_ERR (uctx (mkH Safepoint.init (uctx handler_on_sigstack)
                     [APrintf MsgSignalStackOverflow; AExit (SIGSEGV + 128)]))
    = REG_ERR (uctx handler_on_sigstack) /\
  SIGSEGV + 128 = SIGSEGV + 128 /\
  uctx (mkH Safepoint.init (uctx handler_on_sigstack)
            [APrintf MsgSignalStackOverflow; AExit (SIGSEGV + 128)])
    = uctx handler_on_sigstack.
Proof.
  apply (segv_handler_context 4096 65536 4198400 false (Some poll_task) SIGSEGV
           sigstack_fault handler_on_sigstack (Exited (SIGSEGV + 128))).
  reflexivity.
Defined.

Lemma fault_classification_witness :
  segv_handler 4096 65536 4198400 false (Some poll_task) SIGSEGV sigstack_fault
               handler_start =
    Ok (Returned,
        mkH (sp handler_start) (uctx handler_start)
            (log handler_start ++
             [ASignalDefault SIGSEGV; ATtyResetMode; ACriticalError SIGSEGV])).
Proof.
  rewrite (fault_classification 4096 65536 4198400 poll_task SIGSEGV
             sigstack_fault handler_start);
    [reflexivity | left; reflexivity | reflexivity].
Defined.

End ContextWitnesses.


(** * Properties of the listener's dispatch and of the exit requests *)

Section DispatchFacts.
Import Thread0.

(** Decides a comparison of the signal number. *)
Ltac decide_sig s k :=
  let E := fresh "E" in
  destruct (s =? k) eqn:E;
  [apply Z.eqb_eq in E; try subst s | apply Z.eqb_neq in E].

(** Settles the decidable propositions of the goal. *)
Ltac decide_props :=
  repeat match goal with
         | |- context [bool_decide ?P] =>
             first [ rewrite (bool_decide_eq_true_2 P) by (intuition lia)
                   | rewrite (bool_decide_eq_false_2 P) by (intuition lia) ]
         end.

(** The verdicts of [dispatch], case by case. *)
Lemma dispatch_cases w ignore_sigint exit_on_sigint running grace :
  match dispatch w ignore_sigint exit_on_sigint running grace with
  | Continue =>
      (sw_sig w = -1 /\ sw_errno w = EINTR) \/
      (sw_sig w = SIGINT /\ ignore_sigint = true)
  | Deliver =>
      sw_sig w = SIGINT /\ ignore_sigint = false /\ exit_on_sigint = 0
  | Handle sig critical profile doexit peek =>
      sig = (if sw_sig w =? -1 then SIGABRT else sw_sig w) /\
      (sig = SIGINT -> ignore_sigint = false /\ exit_on_sigint <> 0) /\
      profile =
        Z.b2z (bool_decide (sig = SIGUSR1) && (sw_code w =? SI_TIMER)
               && sw_timerprof w) /\
      critical =
        Z.b2z (bool_decide (sig = SIGTERM \/ sig = SIGABRT \/ sig = SIGQUIT \/
                            sig = SIGINT \/ (sig = SIGUSR1 /\ profile = 0))) /\
      doexit =
        Z.b2z (bool_decide (sig = SIGTERM \/ sig = SIGABRT \/ sig = SIGQUIT \/
                            sig = SIGINT)) /\
      peek = bool_decide (sig = SIGUSR1 /\ running <> 1 /\ grace = true) /\
      (profile = 1 -> critical = 0)
  end.
Proof.
  unfold dispatch, SIGINT, SIGUSR1, SIGTERM, SIGABRT, SIGQUIT.
  destruct w as [s errno code timerprof]. cbn [sw_sig sw_errno sw_code sw_timerprof].
  destruct (s =? -1) eqn:Em; cbn [andb].
  - apply Z.eqb_eq in Em.
    destruct (errno =? EINTR) eqn:Ee; [apply Z.eqb_eq in Ee; auto|].
    cbn [Z.eqb Pos.eqb Z.b2z negb andb Z.lor].
    decide_props. cbn. repeat apply conj; try reflexivity; intros; lia.
  - apply Z.eqb_neq in Em.
    decide_sig s 2.
    + destruct ignore_sigint; [auto|].
      destruct (exit_on_sigint =? 0) eqn:Ex; cbn [negb];
        [apply Z.eqb_eq in Ex; auto|]. apply Z.eqb_neq in Ex.
      cbn [Z.eqb Pos.eqb Z.b2z negb andb Z.lor].
      decide_props. cbn. repeat apply conj; try reflexivity; intros; auto; lia.
    + decide_sig s 10.
      * cbn [Z.eqb Pos.eqb Z.b2z negb andb Z.lor].
        destruct (running =? 1) eqn:Er;
          [apply Z.eqb_eq in Er | apply Z.eqb_neq in Er];
          destruct grace, (code =? SI_TIMER), timerprof;
          cbn [Z.eqb Pos.eqb Z.b2z negb andb Z.lor];
          decide_props; cbn; repeat apply conj; try reflexivity; intros; lia.
      * cbn [Z.b2z Z.eqb negb andb].
        decide_sig s 15; [|decide_sig s 6; [|decide_sig s 3]];
          cbn [Z.eqb Pos.eqb Z.b2z negb andb Z.lor];
          decide_props; cbn; repeat apply conj; try reflexivity; intros; lia.
Qed.


(** What [signal_listener] makes of a signal.  It goes back to
    [sigwaitinfo] with nothing done exactly when the wait was
    interrupted or the signal is a SIGINT to be ignored, and delivers an
    interrupt to thread 0 exactly for a SIGINT that is neither ignored
    nor fatal.  Otherwise the signal is handled, and then the wait was
    not interrupted: a failed wait counts as SIGABRT; the signal is a
    profile tick exactly when it is a SIGUSR1 sent by the profile timer,
    and a tick is never critical; it is critical exactly for SIGTERM,
    SIGABRT, SIGQUIT, a fatal SIGINT and a SIGUSR1 that is not a tick; it
    ends the process exactly for the first four of these, never for a
    SIGUSR1; and a profile peek is triggered exactly by a SIGUSR1 while
    the profiler is not running and the grace period is over. *)
Theorem dispatch_table w ignore_sigint exit_on_sigint running grace :
  (dispatch w ignore_sigint exit_on_sigint running grace = Continue <->
     (sw_sig w = -1 /\ sw_errno w = EINTR) \/
     (sw_sig w = SIGINT /\ ignore_sigint = true)) /\
  (dispatch w ignore_sigint exit_on_sigint running grace = Deliver <->
     sw_sig w = SIGINT /\ ignore_sigint = false /\ exit_on_sigint = 0) /\
  match dispatch w ignore_sigint exit_on_sigint running grace with
  | Continue | Deliver => True
  | Handle sig critical profile doexit peek =>
      ~ (sw_sig w = -1 /\ sw_errno w = EINTR) /\
      sig = (if sw_sig w =? -1 then SIGABRT else sw_sig w) /\
      (sig = SIGINT -> ignore_sigint = false /\ exit_on_sigint <> 0) /\
      profile =
        Z.b2z (bool_decide (sig = SIGUSR1) && (sw_code w =? SI_TIMER)
               && sw_timerprof w) /\
      critical =
        Z.b2z (bool_decide (sig = SIGTERM \/ sig = SIGABRT \/ sig = SIGQUIT \/
                            sig = SIGINT \/ (sig = SIGUSR1 /\ profile = 0))) /\
      doexit =
        Z.b2z (bool_decide (sig = SIGTERM \/ sig = SIGABRT \/ sig = SIGQUIT \/
                            sig = SIGINT)) /\
      peek = bool_decide (sig = SIGUSR1 /\ running <> 1 /\ grace = true) /\
      (profile = 1 -> critical = 0)
  end.
Proof.
  pose proof (dispatch_cases w ignore_sigint exit_on_sigint running grace) as Hc.
  assert (Hcont :
    (sw_sig w = -1 /\ sw_errno w = EINTR) \/
    (sw_sig w = SIGINT /\ ignore_sigint = true) ->
    dispatch w ignore_sigint exit_on_sigint running grace = Continue).
  { unfold dispatch. intros [[Hs He] | [Hs Hi]].
    - rewrite Hs, He. reflexivity.
    - rewrite Hs, Hi. reflexivity. }
  assert (Hdel :
    sw_sig w = SIGINT /\ ignore_sigint = false /\ exit_on_sigint = 0 ->
    dispatch w ignore_sigint exit_on_sigint running grace = Deliver).
  { unfold dispatch. intros (Hs & Hi & Hx). rewrite Hs, Hi, Hx. reflexivity. }
  split; [|split].
  - split; [|exact Hcont].
    intros E. rewrite E in Hc. exact Hc.
  - split; [|exact Hdel].
    intros E. rewrite E in Hc. exact Hc.
  - destruct (dispatch w ignore_sigint exit_on_sigint running grace) eqn:E;
      [exact I | exact I |].
    split; [|exact Hc].
    intros Hint. pose proof (Hcont (or_introl Hint)) as E'. congruence.
Qed.

Lemma dispatch_table_witness :
  dispatch (mkSigwait (-1) EINTR 0 false) false 0 1 false = Continue /\
  dispatch (mkSigwait SIGINT 0 0 false) false 0 1 false = Deliver.
Proof.
  split.
  - apply (dispatch_table (mkSigwait (-1) EINTR 0 false) false 0 1 false).
    left. split; reflexivity.
  - apply (dispatch_table (mkSigwait SIGINT 0 0 false) false 0 1 false).
    repeat split; reflexivity.
Defined.

End DispatchFacts.

Section ExitFacts.
Import Thread0.






End ExitFacts.

(** * Properties of the delivery of an interrupt to thread 0 *)

Section SigintSteps.
Import Safepoint Props.

Ltac run_sp :=
  unfold jl_safepoint_enable_sigint, jl_safepoint_defer_sigint,
    jl_safepoint_consume_sigint, jl_safepoint_enable, jl_safepoint_disable,
    mbind, M_bind, bind, mret, M_ret, ret, assert, emit, get_cnt, set_cnt,
    mprotect, get_pending, set_pending, cnt_at, prot_at in *;
  cbn [jl_signal_pending jl_gc_running jl_safepoint_enable_cnt page_prot trace] in *;
  change (Z.to_nat 0) with 0%nat in *; change (Z.to_nat 1) with 1%nat in *;
  change (Z.to_nat 2) with 2%nat in *.

Ltac split_all := repeat match goal with |- _ /\ _ => split end.

Ltac open_sigint s H :=
  let Hwf := fresh "Hwf" in
  destruct H as (Hwf & Hlam & Hg & Hp & [Hc0 Hp0] & [Hc1 Hp1]);
  destruct s as [pending running cnt prt tr];
  destruct Hwf as [Hcnt Hprt]; cbn in Hcnt, Hprt;
  destruct cnt as [|c0 [|c1 [|c2 [|? ?]]]]; try discriminate Hcnt;
  destruct prt as [|p0 [|p1 [|p2 [|? ?]]]]; try discriminate Hprt;
  clear Hcnt Hprt;
  unfold cnt_at, prot_at in Hc0, Hp0, Hc1, Hp1;
  change (Z.to_nat 0) with 0%nat in *; change (Z.to_nat 1) with 1%nat in *;
  cbn in Hp, Hc0, Hp0, Hc1, Hp1; subst.

Ltac by_levels lam g H :=
  assert (Hl : lam = 0 \/ lam = 1 \/ lam = 2) by (destruct H as (_ & ? & _); lia);
  assert (Hgg : g = 0 \/ g = 1) by (destruct H as (_ & _ & ? & _); lia);
  destruct Hl as [-> | [-> | ->]]; destruct Hgg as [-> | ->].

Lemma enable_sigint_step lam g s :
  sigint_state lam g s ->
  exists s1, jl_safepoint_enable_sigint s = Ok (tt, s1) /\ sigint_state 2 g s1.
Proof.
  intros H. by_levels lam g H; open_sigint s H;
    eexists; (split; [run_sp; cbn; reflexivity|]);
    unfold sigint_state, wf, slot_is; run_sp; cbn; split_all;
    try reflexivity; lia.
Qed.

Lemma consume_sigint_step lam g s :
  sigint_state lam g s ->
  exists s0, jl_safepoint_consume_sigint s = Ok (if lam =? 0 then 0 else 1, s0) /\
             sigint_state 0 g s0.
Proof.
  intros H. by_levels lam g H; open_sigint s H;
    eexists; (split; [run_sp; cbn; reflexivity|]);
    unfold sigint_state, wf, slot_is; run_sp; cbn; split_all;
    try reflexivity; lia.
Qed.

Lemma defer_sigint_step g s :
  sigint_state 2 g s ->
  exists s1, jl_safepoint_defer_sigint s = Ok (tt, s1) /\ sigint_state 1 g s1.
Proof.
  intros H.
  assert (Hgg : g = 0 \/ g = 1) by (destruct H as (_ & _ & ? & _); lia).
  destruct Hgg as [-> | ->]; open_sigint s H;
    eexists; (split; [run_sp; cbn; reflexivity|]);
    unfold sigint_state, wf, slot_is; run_sp; cbn; split_all;
    try reflexivity; lia.
Qed.

End SigintSteps.

Section DeliveryFacts.
Import Safepoint Signals Props Thread0 Usr2.

Variables page_size pages throw_addr exit_cb_addr : Z.

(** An interrupt sent through SIGUSR2.  From any interrupt level,
    [jl_try_deliver_sigint] arms the pages at level 2, stores request 2
    for thread 0, wakes the event loop and signals the thread.  The
    handler then throws at once only if the throw is forced or the
    thread is waiting for input with signals not deferred: it consumes
    the interrupt, so that the pages are back at level 0, and redirects
    the context to [jl_sig_throw]; otherwise it returns and changes
    nothing, and the interrupt stays pending in the pages. *)
Theorem sigint_delivery lam g x :
  sigint_state lam g (x_sp x) ->
  exists x',
    jl_try_deliver_sigint x = Ok (tt, x') /\
    signal_request x' = 2 /\ sigint_state 2 g (x_sp x') /\
    xlog x' = xlog x ++ [XWakeLibuv; XKill SIGUSR2] /\
    forall safe_restore force ct sig h,
      sp h = x_sp x' ->
      if force || ((defer_signal (ptls ct) =? 0) && negb (io_wait (ptls ct) =? 0))
      then
        exists s0,
          sigint_state 0 g s0 /\
          usr2_handler_tail page_size throw_addr exit_cb_addr safe_restore
                            force ct (signal_request x') sig h =
            jl_call_in_ctx page_size (Some (ptls ct)) jl_sig_throw throw_addr sig
              (mkH s0 (uctx h)
                   (log h ++ (if force then [APrintf MsgForceSigint] else [])
                    ++ [AClearForceSigint]
                    ++ (if safe_restore then []
                        else [ARecordBacktrace;
                              ASetSigException jl_interrupt_exception])))
      else
        usr2_handler_tail page_size throw_addr exit_cb_addr safe_restore
                          force ct (signal_request x') sig h = Ok (Returned, h).
Proof.
  intros H. destruct (enable_sigint_step lam g _ H) as (s1 & E1 & H1).
  unfold jl_try_deliver_sigint, xlift, xact, store_request, mbind, X_bind.
  rewrite E1. cbn [x_sp signal_request thread0_exit_state thread0_exit_count
                   ptls_bt_size ptls_bt_data xlog].
  eexists. split; [reflexivity|].
  cbn [x_sp signal_request thread0_exit_state thread0_exit_count
       ptls_bt_size ptls_bt_data xlog].
  split; [reflexivity|]. split; [exact H1|].
  split; [now rewrite <- app_assoc|].
  intros safe_restore force ct sig h Hsp.
  unfold usr2_handler_tail. cbn [Z.eqb Pos.eqb]. rewrite negb_involutive.
  destruct (force || _); [|reflexivity].
  rewrite <- Hsp in H1.
  destruct (consume_sigint_step 2 g _ H1) as (s0 & E0 & H0). cbn in E0.
  exists s0. split; [exact H0|].
  unfold jl_throw_in_ctx, jl_clear_force_sigint, lift, act,
    mbind, H_bind, mret, H_ret.
  rewrite E0. cbn [sp uctx log].
  destruct force, safe_restore; cbn [negb sp uctx log app];
    rewrite <- ?app_assoc; reflexivity.
Qed.

(** An interrupt that the SIGUSR2 handler left pending is delivered at
    the next safepoint poll of thread 0, once.  At level 2 a poll with
    signals deferred gives slot 1 back and leaves level 1; the next poll
    with signals not deferred consumes the interrupt and redirects the
    context to [jl_sig_throw] with [jl_interrupt_exception] pending; a
    poll after that finds nothing and returns. *)
Theorem deferred_interrupt_chain g ct0 ct1 sig info h u3 l3 :
  sig = SIGSEGV \/ sig = SIGBUS ->
  jl_addr_is_safepoint page_size pages (si_addr info) = true ->
  tid ct0 = 0 -> defer_signal (ptls ct0) <> 0 ->
  tid ct1 = 0 -> defer_signal (ptls ct1) = 0 ->
  sigint_state 2 g (sp h) ->
  exists s1 s2 s3,
    sigint_state 1 g s1 /\ sigint_state 0 g s2 /\ sigint_state 0 g s3 /\
    segv_handler page_size pages throw_addr false (Some ct0) sig info h =
      Ok (Returned, mkH s1 (uctx h) (log h ++ [ASetGcAndWait; ADeferSigint])) /\
    segv_handler page_size pages throw_addr false (Some ct1) sig info
                 (mkH s1 (uctx h) (log h ++ [ASetGcAndWait; ADeferSigint])) =
      jl_call_in_ctx page_size (Some (ptls ct1)) jl_sig_throw throw_addr sig
        (mkH s2 (uctx h)
             (log h ++ [ASetGcAndWait; ADeferSigint; ASetGcAndWait;
                        AConsumeSigint 1; AClearForceSigint; ARecordBacktrace;
                        ASetSigException jl_interrupt_exception])) /\
    segv_handler page_size pages throw_addr false (Some ct1) sig info
                 (mkH s2 u3 l3) =
      Ok (Returned, mkH s3 u3 (l3 ++ [ASetGcAndWait; AConsumeSigint 0])).
Proof.
  intros Hsig Hsafe Ht0 Hd0 Ht1 Hd1 H2.
  destruct (defer_sigint_step g _ H2) as (s1 & E1 & H1).
  destruct (consume_sigint_step 1 g _ H1) as (s2 & E2 & H0). cbn in E2.
  destruct (consume_sigint_step 0 g _ H0) as (s3 & E3 & H3). cbn in E3.
  exists s1, s2, s3. split; [exact H1|]. split; [exact H0|]. split; [exact H3|].
  assert (Hok : ((sig =? SIGSEGV) || (sig =? SIGBUS)) = true).
  { destruct Hsig as [-> | ->]; reflexivity. }
  apply Z.eqb_neq in Hd0. apply Z.eqb_eq in Hd1, Ht0, Ht1.
  unfold segv_handler, jl_set_gc_and_wait, jl_clear_force_sigint, jl_throw_in_ctx,
    lift, act, hassert, get_uctx, mbind, H_bind, mret, H_ret.
  cbn [sp uctx log negb]. rewrite Hsafe, Hok, Ht0, Ht1, Hd0, Hd1.
  cbn [sp uctx log negb]. rewrite E1, E2, E3. cbn [sp uctx log negb Z.eqb].
  rewrite <- !app_assoc. cbn [app]. repeat split.
Qed.

End DeliveryFacts.

Section DeliveryWitnesses.
Import Safepoint Signals Props Thread0 Usr2.

Lemma sigint_delivery_witness :
  exists x',
    jl_try_deliver_sigint (mkX Safepoint.init 0 0 0 0 [] []) = Ok (tt, x') /\
    signal_request x' = 2 /\ sigint_state 2 0 (x_sp x') /\
    xlog x' = [] ++ [XWakeLibuv; XKill SIGUSR2] /\
    forall safe_restore force ct sig h,
      sp h = x_sp x' ->
      if force || ((defer_signal (ptls ct) =? 0) && negb (io_wait (ptls ct) =? 0))
      then
        exists s0,
          sigint_state 0 0 s0 /\
          usr2_handler_tail 4096 4198400 4202496 safe_restore
                            force ct (signal_request x') sig h =
            jl_call_in_ctx 4096 (Some (ptls ct)) jl_sig_throw 4198400 sig
              (mkH s0 (uctx h)
                   (log h ++ (if force then [APrintf MsgForceSigint] else [])
                    ++ [AClearForceSigint]
                    ++ (if safe_restore then []
                        else [ARecordBacktrace;
                              ASetSigException jl_interrupt_exception])))
      else
        usr2_handler_tail 4096 4198400 4202496 safe_restore
                          force ct (signal_request x') sig h = Ok (Returned, h).
Proof.
  apply (sigint_delivery 4096 4198400 4202496 0 0
           (mkX Safepoint.init 0 0 0 0 [] [])).
  unfold sigint_state, wf, slot_is.
  repeat match goal with |- _ /\ _ => split end; first [reflexivity | lia].
Defined.

Lemma deferred_interrupt_chain_witness :
  exists s1 s2 s3,
    sigint_state 1 0 s1 /\ sigint_state 0 0 s2 /\ sigint_state 0 0 s3 /\
    segv_handler 4096 65536 4198400 false (Some deferring_task) SIGSEGV
                 poll_fault handler_at_level2 =
      Ok (Returned, mkH s1 (uctx handler_at_level2)
                        (log handler_at_level2 ++ [ASetGcAndWait; ADeferSigint])) /\
    segv_handler 4096 65536 4198400 false (Some busy_task) SIGSEGV poll_fault
                 (mkH s1 (uctx handler_at_level2)
                      (log handler_at_level2 ++ [ASetGcAndWait; ADeferSigint])) =
      jl_call_in_ctx 4096 (Some (ptls busy_task)) jl_sig_throw 4198400 SIGSEGV
        (mkH s2 (uctx handler_at_level2)
             (log handler_at_level2 ++
              [ASetGcAndWait; ADeferSigint; ASetGcAndWait;
               AConsumeSigint 1; AClearForceSigint; ARecordBacktrace;
               ASetSigException jl_interrupt_exception])) /\
    segv_handler 4096 65536 4198400 false (Some busy_task) SIGSEGV poll_fault
                 (mkH s2 (uctx handler_at_level2) []) =
      Ok (Returned, mkH s3 (uctx handler_at_level2)
                        ([] ++ [ASetGcAndWait; AConsumeSigint 0])).
Proof.
  apply (deferred_interrupt_chain 4096 65536 4198400 0 deferring_task busy_task
           SIGSEGV poll_fault handler_at_level2 (uctx handler_at_level2) []).
  - left. reflexivity.
  - reflexivity.
  - reflexivity.
  - discriminate.
  - reflexivity.
  - reflexivity.
  - unfold sigint_state, wf, slot_is.
    repeat match goal with |- _ /\ _ => split end; first [reflexivity | lia].
Defined.

End DeliveryWitnesses.

(** * Further properties of the signal rendezvous *)

Section RoundFacts.
Import Rendezvous Props RoundProps.

Lemma reach_round_all_closed b :
  closed b false round_moves_all (reach_round_all b) = true.
Proof. destruct b; vm_compute; reflexivity. Qed.

Lemma reach_round_all_init b task : init task ∈ reach_round_all b.
Proof.
  apply (bool_decide_unpack (init task ∈ reach_round_all b)).
  destruct b, task; vm_compute; exact I.
Qed.

Lemma reach_round_lock_ok b : forallb lock_ok (reach_round_all b) = true.
Proof. destruct b; vm_compute; reflexivity. Qed.

Lemma reach_round_parked b : forallb parked (reach_round_all b) = true.
Proof. destruct b; vm_compute; reflexivity. Qed.

Lemma reach_round_resumed_ok b :
  forallb (resumed_ok b) (reach_round_all b) = true.
Proof. destruct b; vm_compute; reflexivity. Qed.

Lemma reach_round_decreasing b : decreasing b (reach_round_all b) = true.
Proof. destruct b; vm_compute; reflexivity. Qed.

Lemma reach_round_live b : forallb (live b) (reach_round b) = true.
Proof. destruct b; vm_compute; reflexivity. Qed.

Lemma reach_idle_closed b : closed b false moves_all (reach_idle b) = true.
Proof. destruct b; vm_compute; reflexivity. Qed.

Lemma reach_idle_init b : init false ∈ reach_idle b.
Proof.
  apply (bool_decide_unpack (init false ∈ reach_idle b)).
  destruct b; vm_compute; exact I.
Qed.

Lemma reach_idle_target b :
  forallb (fun s => negb (has_task s) && idle_target s
                    && early_load_fails b s) (reach_idle b) = true.
Proof. destruct b; vm_compute; reflexivity. Qed.

Lemma reach_idle_calm_closed b :
  closed b true calm_moves (reach_idle_calm b) = true.
Proof. destruct b; vm_compute; reflexivity. Qed.

Lemma reach_idle_calm_pcs b :
  forallb (fun s => match l_pc s with
                    | L_TimedWake false | L_LoadAck => false
                    | _ => true
                    end) (reach_idle_calm b) = true.
Proof. destruct b; vm_compute; reflexivity. Qed.

Lemma reach_idle_calm_init b : init false ∈ reach_idle_calm b.
Proof.
  apply (bool_decide_unpack (init false ∈ reach_idle_calm b)).
  destruct b; vm_compute; exact I.
Qed.

(** The moves of one round are all moves but the turn to the next. *)
Lemma one_round_moves sched :
  Forall (fun m => m <> NextRound) sched ->
  Forall (fun m => In m round_moves_all) sched.
Proof.
  intros H. eapply Forall_impl; [exact H|].
  intros [[|]| | |[|]] Hne; try congruence; cbv; auto 10.
Qed.

Lemma all_moves sched : Forall (fun m => In m moves_all) sched.
Proof.
  apply Forall_forall. intros [[|]| | |[|]] _; cbv; auto 10.
Qed.

Lemma calm_schedule sched :
  ~ In (Spurious Listener) sched -> Forall (fun m => In m calm_moves) sched.
Proof.
  intros Hno. apply Forall_forall. intros m Hm.
  apply list_elem_of_In in Hm.
  destruct m as [[|]| | |[|]]; try contradiction; cbv; auto 10.
Qed.

(** Every state of a round is among those found by the search, the
    waits returning with or without a broadcast. *)
Lemma reachable_in_round task sig sched s :
  Forall (fun m => m <> NextRound) sched ->
  run sig sched (init task) = Next s -> s ∈ reach_round_all (sig =? -1).
Proof.
  intros Hone Hrun.
  pose proof (closed_run (sig =? -1) false round_moves_all _ sched (init task)
                (reach_round_all_closed _) (reach_round_all_init _ task)
                (one_round_moves sched Hone)) as H.
  unfold run in Hrun. rewrite Hrun in H. exact H.
Qed.

(** The lock discipline of a round: in every state of a round that
    starts with nothing requested and no signal pending, whether or not
    its waits return without a broadcast, [in_signal_lock] is held by the
    listener exactly when the listener is inside its locked region, by
    the target exactly when the handler is inside its own, and the two
    are never inside together. *)
Theorem round_lock_discipline task sig sched s :
  Forall (fun m => m <> NextRound) sched ->
  run sig sched (init task) = Next s ->
  (in_signal_lock s = Some Listener <-> l_locked (l_pc s) = true) /\
  (in_signal_lock s = Some Target <-> t_locked (t_pc s) = true) /\
  ~ (l_locked (l_pc s) = true /\ t_locked (t_pc s) = true).
Proof.
  intros Hone Hrun.
  pose proof (forallb_elem _ _ _ (reach_round_lock_ok _)
                (reachable_in_round _ _ _ _ Hone Hrun)) as Hok.
  unfold lock_ok in Hok. apply andb_prop in Hok as [Hl Hx].
  apply bool_decide_eq_true_1 in Hl. apply negb_true_iff in Hx.
  destruct (l_locked (l_pc s)), (t_locked (t_pc s)); try discriminate Hx;
    rewrite Hl; repeat apply conj; try split; try discriminate; try reflexivity;
    intros [? ?]; discriminate.
Qed.

Lemma round_lock_discipline_witness :
  (in_signal_lock (state_after 10 woken_early) = Some Listener <->
   l_locked (l_pc (state_after 10 woken_early)) = true) /\
  (in_signal_lock (state_after 10 woken_early) = Some Target <->
   t_locked (t_pc (state_after 10 woken_early)) = true) /\
  ~ (l_locked (l_pc (state_after 10 woken_early)) = true /\
     t_locked (t_pc (state_after 10 woken_early)) = true).
Proof.
  apply (round_lock_discipline true 10 woken_early).
  - repeat constructor; discriminate.
  - vm_compute. reflexivity.
Defined.

(** The context is read only while its owner cannot move: in every
    state of such a round, from the return of
    [jl_thread_suspend_and_get_state] with a context until
    [jl_thread_resume] stores its request, the target is inside the
    handler's [pthread_cond_wait] on the exit condition, asleep or, if
    that wait has returned without a broadcast, waiting for the lock;
    the listener holds the lock, so that the target can make no step;
    and the published context is the target's. *)
Theorem context_read_while_parked task sig sched s :
  Forall (fun m => m <> NextRound) sched ->
  run sig sched (init task) = Next s ->
  (exists c, l_pc s = L_Returned (Some c)) \/ l_pc s = L_ResumeStore ->
  (t_pc s = T_ExitSleep \/ t_pc s = T_ExitWake) /\
  step sig (Run Target) s = Stuck /\
  in_signal_lock s = Some Listener /\
  signal_context s = Some TargetContext.
Proof.
  intros Hone Hrun Hpc.
  pose proof (forallb_elem _ _ _ (reach_round_parked _)
                (reachable_in_round _ _ _ _ Hone Hrun)) as Hok.
  unfold parked in Hok.
  assert (H : in_exit_wait (t_pc s) = true /\
              in_signal_lock s = Some Listener /\
              signal_context s = Some TargetContext).
  { destruct Hpc as [[c Hpc] | Hpc]; rewrite Hpc in Hok;
      apply andb_prop in Hok as [Hok H3]; apply andb_prop in Hok as [H1 H2];
      apply bool_decide_eq_true_1 in H2, H3; auto. }
  destruct H as (Hw & Hl & Hc).
  split; [|split; [|split; assumption]].
  - destruct (t_pc s); try discriminate Hw; auto.
  - unfold step, step_core, tstep, acquire. rewrite Hl.
    destruct (t_pc s); try discriminate Hw; reflexivity.
Qed.

Lemma context_read_while_parked_witness :
  l_pc (state_after 10 woken_early) = L_Returned (Some TargetContext) /\
  t_pc (state_after 10 woken_early) = T_ExitWake /\
  ((t_pc (state_after 10 woken_early) = T_ExitSleep \/
    t_pc (state_after 10 woken_early) = T_ExitWake) /\
   step 10 (Run Target) (state_after 10 woken_early) = Stuck /\
   in_signal_lock (state_after 10 woken_early) = Some Listener /\
   signal_context (state_after 10 woken_early) = Some TargetContext).
Proof.
  split; [reflexivity|]. split; [reflexivity|].
  apply (context_read_while_parked true 10 woken_early).
  - repeat constructor; discriminate.
  - vm_compute. reflexivity.
  - left. exists TargetContext. reflexivity.
Defined.

(** What [jl_thread_resume] asks for is what the handler does: in every
    state of such a round, whether or not its waits return without a
    broadcast, the request the resumed handler holds is 3 if [sig] is -1
    and 1 otherwise; the handler goes on to the exit callback only in the
    first case and never to the interrupt branch; and when
    [jl_thread_resume] has returned, the target is past its last
    broadcast: about to unlock, at the test of the request, or, for
    [sig] equal to -1, in the exit callback, else back in its code. *)
Theorem resume_request_served task sig sched s :
  Forall (fun m => m <> NextRound) sched ->
  run sig sched (init task) = Next s ->
  let r := if sig =? -1 then 3 else 1 in
  (t_pc s = T_ExitCb -> sig = -1) /\
  t_pc s <> T_Sigint /\
  (forall r', t_pc s = T_BroadcastCaught2 r' \/ t_pc s = T_Unlock r' -> r' = r) /\
  (l_pc s = L_Done ->
     t_pc s = T_Unlock r \/ t_pc s = T_Tail r \/
     t_pc s = (if sig =? -1 then T_ExitCb else T_Running)).
Proof.
  intros Hone Hrun r.
  pose proof (forallb_elem _ _ _ (reach_round_resumed_ok _)
                (reachable_in_round _ _ _ _ Hone Hrun)) as Hok.
  unfold resumed_ok in Hok. apply andb_prop in Hok as [HT HL].
  fold r in HT, HL |- *.
  repeat apply conj.
  - intros Hpc. rewrite Hpc in HT. destruct (sig =? -1) eqn:E; [|discriminate].
    now apply Z.eqb_eq.
  - intros Hpc. rewrite Hpc in HT. discriminate.
  - intros r' [Hpc | Hpc]; rewrite Hpc in HT; now apply Z.eqb_eq.
  - intros Hpc. rewrite Hpc in HL.
    apply orb_prop in HL as [HL | HL]; [apply orb_prop in HL as [HL | HL]|];
      apply bool_decide_eq_true_1 in HL; auto.
Qed.

Lemma resume_request_served_witness :
  (t_pc (state_after (-1) to_done) = T_ExitCb -> -1 = -1) /\
  t_pc (state_after (-1) to_done) <> T_Sigint /\
  (forall r', t_pc (state_after (-1) to_done) = T_BroadcastCaught2 r' \/
              t_pc (state_after (-1) to_done) = T_Unlock r' -> r' = 3) /\
  (l_pc (state_after (-1) to_done) = L_Done ->
     t_pc (state_after (-1) to_done) = T_Unlock 3 \/
     t_pc (state_after (-1) to_done) = T_Tail 3 \/
     t_pc (state_after (-1) to_done) = T_ExitCb).
Proof.
  apply (resume_request_served true (-1) to_done).
  - repeat constructor; discriminate.
  - vm_compute. reflexivity.
Defined.

Lemma run_core_not_stuck b sched : forall s, run_core b sched s <> Stuck.
Proof.
  induction sched as [|m sched IH]; intros s; cbn [run_core]; [discriminate|].
  destruct (step_core b m s); [apply IH | apply IH | discriminate].
Qed.

Lemma steps_bounded b strict R sched : forall s,
  closed b strict round_moves_all R = true -> decreasing b R = true ->
  s ∈ R -> Forall (fun m => In m round_moves_all) sched ->
  (steps_made b sched s <= rank s)%nat.
Proof.
  induction sched as [|m sched IH]; intros s Hc Hdec Hs Hms; cbn [steps_made];
    [lia|].
  apply Forall_cons in Hms as [Hm Hms].
  pose proof (closed_step b strict round_moves_all R m s Hc Hs Hm) as Hstep.
  pose proof Hdec as Hd. unfold decreasing in Hd.
  apply (proj1 (forallb_forall _ _)) with (x := s) in Hd;
    [|now apply list_elem_of_In].
  apply (proj1 (forallb_forall _ _)) with (x := m) in Hd; [|exact Hm].
  destruct (step_core b m s) as [s'| |].
  - apply Nat.ltb_lt in Hd. specialize (IH s' Hc Hdec Hstep Hms). lia.
  - now apply IH.
  - now apply IH.
Qed.

(** In a round whose waits return on broadcast or timeout only no
    assertion fails. *)
Lemma quiet_round_runs b sched : forall s,
  s ∈ reach_round b -> Forall (fun m => In m round_moves) sched ->
  exists s', run_core b sched s = Next s' /\ s' ∈ reach_round b.
Proof.
  intros s Hs Hms.
  pose proof (closed_run b true round_moves _ sched s
                (reach_round_closed b) Hs Hms) as H.
  pose proof (run_core_not_stuck b sched s) as Hns.
  destruct (run_core b sched s) as [s'| |];
    [exists s'; auto | congruence | discriminate].
Qed.

(** A round comes to an end.  Whatever the schedule, and whether or not
    waits return without a broadcast, a round that starts with nothing
    requested and no signal pending makes at most 44 steps.  If its
    waits return on broadcast or timeout only, no assertion fails, and
    in the state reached either some step can be made, by the listener,
    by the target or by the timeout, or the round is over: the listener
    is back, from [jl_thread_resume] or from a suspension that returned
    [NULL], the lock is free, the request word is 0, and the target is
    out of the handler with no signal pending, or in the exit callback. *)
Theorem round_terminates task sig sched :
  Forall (fun m => m <> NextRound) sched ->
  (steps_made (sig =? -1)%Z sched (init task) <= 44)%nat /\
  (Forall (fun m => In m round_moves) sched ->
   exists s,
     run sig sched (init task) = Next s /\
     ((forall m, In m round_moves -> step sig m s = Stuck) ->
      (l_pc s = L_Done \/ l_pc s = L_Returned None) /\
      in_signal_lock s = None /\ signal_request s = 0 /\
      ((t_pc s = T_Running /\ sigusr2_pending s = false) \/
       t_pc s = T_ExitCb))).
Proof.
  intros Hone. split.
  - apply (steps_bounded _ false _ sched (init task) (reach_round_all_closed _)
             (reach_round_decreasing _) (reach_round_all_init _ task)
             (one_round_moves sched Hone)).
  - intros Hquiet.
    destruct (quiet_round_runs (sig =? -1) sched (init task)
                (reach_round_init _ task) Hquiet) as (s & Hrun & Hin).
    exists s. split; [exact Hrun|]. intros Hstuck.
    pose proof (forallb_elem _ _ _ (reach_round_live _) Hin) as Hlive.
    unfold live in Hlive. apply orb_prop in Hlive as [Hen | Hov].
    + exfalso. unfold enabled in Hen. apply existsb_exists in Hen as (m & Hm & Hn).
      specialize (Hstuck m Hm). unfold step in Hstuck. rewrite Hstuck in Hn.
      discriminate.
    + unfold over in Hov.
      apply andb_prop in Hov as [Hov HT]. apply andb_prop in Hov as [Hov HR].
      apply andb_prop in Hov as [HL HK].
      repeat apply conj.
      * apply orb_prop in HL as [HL | HL]; apply bool_decide_eq_true_1 in HL; auto.
      * now apply bool_decide_eq_true_1 in HK.
      * now apply Z.eqb_eq.
      * apply orb_prop in HT as [HT | HT].
        -- apply andb_prop in HT as [HT HP]. apply bool_decide_eq_true_1 in HT.
           apply negb_true_iff in HP. auto.
        -- apply bool_decide_eq_true_1 in HT. auto.
Qed.

Lemma round_terminates_witness :
  (steps_made (10 =? -1)%Z woken_early (init true) <= 44)%nat /\
  (forall m, In m round_moves -> step 10 m (state_after 10 to_end) = Stuck) /\
  exists s,
    run 10 to_end (init true) = Next s /\
    ((forall m, In m round_moves -> step 10 m s = Stuck) ->
     (l_pc s = L_Done \/ l_pc s = L_Returned None) /\
     in_signal_lock s = None /\ signal_request s = 0 /\
     ((t_pc s = T_Running /\ sigusr2_pending s = false) \/
      t_pc s = T_ExitCb)).
Proof.
  split; [|split].
  - apply (round_terminates true 10 woken_early).
    repeat constructor; discriminate.
  - intros m Hm. cbn in Hm.
    destruct Hm as [<-|[<-|[<-|[]]]]; vm_compute; reflexivity.
  - apply (round_terminates true 10 to_end).
    + repeat constructor; discriminate.
    + repeat (constructor; [cbv; auto 10|]). constructor.
Defined.

(** A thread without a current task is never sampled.  Over any number
    of rounds, with any schedule, waits returning without a broadcast
    included: the handler returns at its first test and never touches the
    request word, so the word is 0 or 1 and no context is ever
    published; every suspension the listener comes back from has
    returned [NULL]; and if the timed wait returns early, the listener's
    load finds the 1 it stored and its assertion fails.  No assertion
    fails unless a wait of the listener has returned without a broadcast
    or a timeout. *)
Theorem no_task_no_context sig sched :
  (forall s, run sig sched (init false) = Next s ->
     signal_context s = None /\
     (signal_request s = 0 \/ signal_request s = 1) /\
     (t_pc s = T_Running \/ t_pc s = T_Entry) /\
     (forall c, l_pc s = L_Returned c -> c = None) /\
     l_pc s <> L_Done /\
     (l_pc s = L_LoadAck -> step sig (Run Listener) s = Fail)) /\
  (~ In (Spurious Listener) sched ->
   exists s, run sig sched (init false) = Next s /\
             l_pc s <> L_TimedWake false /\ l_pc s <> L_LoadAck).
Proof.
  split.
  - intros s Hrun.
    pose proof (closed_run (sig =? -1) false moves_all _ sched (init false)
                  (reach_idle_closed _) (reach_idle_init _) (all_moves sched)) as H.
    unfold run in Hrun. rewrite Hrun in H.
    pose proof (forallb_elem _ _ _ (reach_idle_target _) H) as Hok.
    cbv beta in Hok. apply andb_prop in Hok as [Hok He].
    apply andb_prop in Hok as [Hno Hok].
    apply negb_true_iff in Hno. unfold idle_target in Hok. rewrite Hno in Hok.
    cbn [orb] in Hok.
    apply andb_prop in Hok as [Hok HR]. apply andb_prop in Hok as [Hok HC].
    apply andb_prop in Hok as [HL HT].
    repeat apply conj.
    + now apply bool_decide_eq_true_1 in HC.
    + apply orb_prop in HR as [HR | HR]; apply Z.eqb_eq in HR; auto.
    + destruct (t_pc s); try discriminate HT; auto.
    + intros c Hpc. rewrite Hpc in HL. destruct c; [discriminate|reflexivity].
    + intros Hpc. rewrite Hpc in HL. discriminate.
    + intros Hpc. unfold early_load_fails in He. rewrite Hpc in He.
      unfold step. destruct (step_core _ _ s); [discriminate|discriminate|reflexivity].
  - intros Hcalm.
    pose proof (closed_run (sig =? -1) true calm_moves _ sched (init false)
                  (reach_idle_calm_closed _) (reach_idle_calm_init _)
                  (calm_schedule sched Hcalm)) as H.
    pose proof (run_core_not_stuck (sig =? -1) sched (init false)) as Hns.
    unfold run. destruct (run_core (sig =? -1) sched (init false)) as [s| |];
      [|congruence|discriminate].
    exists s. split; [reflexivity|].
    pose proof (forallb_elem _ _ _ (reach_idle_calm_pcs _) H) as Hok.
    cbv beta in Hok.
    split; intros Hpc; rewrite Hpc in Hok; discriminate.
Qed.

Lemma no_task_no_context_witness :
  (* the timed wait runs out *)
  l_pc (state_after_idle 10 lonely_round) = L_Returned None /\
  (exists s, run 10 lonely_round (init false) = Next s /\
             l_pc s <> L_TimedWake false /\ l_pc s <> L_LoadAck) /\
  (* the timed wait returns early *)
  l_pc (state_after_idle 10 early_return) = L_LoadAck /\
  step 10 (Run Listener) (state_after_idle 10 early_return) = Fail.
Proof.
  split; [reflexivity|]. split; [|split; [reflexivity|]].
  - apply (no_task_no_context 10 lonely_round).
    cbn. intros H. repeat (destruct H as [H|H]; [discriminate H|]). exact H.
  - apply (no_task_no_context 10 early_return).
    + vm_compute. reflexivity.
    + reflexivity.
Defined.

End RoundFacts.

(** * Further properties of the sampling loop *)

Section SampleFacts.
Import Signals Listener Props SampleProps.

Ltac proj_p :=
  cbn [running bt_size_cur bt_size_max bt_data_prof bt_data bt_size
       last_timer_delete_time plog].

Lemma put_all_bt vs : forall p,
  put_all put_bt vs p =
    Ok (tt, mkP (running p) (bt_size_cur p) (bt_size_max p) (bt_data_prof p)
                (fill (bt_data p) (bt_size p) vs)
                (bt_size p + Z.of_nat (length vs))
                (last_timer_delete_time p) (plog p)).
Proof.
  induction vs as [|v vs IH]; intros p.
  - destruct p. cbn. now rewrite Z.add_0_r.
  - cbn [put_all]. unfold mbind, P_bind. unfold put_bt at 1.
    rewrite IH. proj_p. cbn [fill length].
    do 3 f_equal. lia.
Qed.

Lemma handshakes_snoc l a :
  handshakes (l ++ [a]) = handshakes l ++ (if is_handshake a then [a] else []).
Proof.
  unfold handshakes. rewrite List.filter_app. cbn. now destruct (is_handshake a).
Qed.

Variables JL_MAX_BT_SIZE jl_n_threads : Z.
Variable jl_profile_is_buffer_full : Z -> Z -> bool.

(** Sampling one thread for a critical signal that is not a profile
    tick. *)
Lemma sample_thread_critical sig i ptls2 env p :
  sample_thread JL_MAX_BT_SIZE jl_n_threads jl_profile_is_buffer_full
                true false sig i ptls2 env p =
    match signal_context env with
    | None =>
        Ok (true,
            mkP (running p) (bt_size_cur p) (bt_size_max p) (bt_data_prof p)
                (bt_data p) (bt_size p) (last_timer_delete_time p)
                (plog p ++ [PSuspend i]))
    | Some _ =>
        match rec_backtrace_ctx env (JL_MAX_BT_SIZE `quot` jl_n_threads - 1) with
        | Some bt =>
            Ok (true,
                mkP (running p) (bt_size_cur p) (bt_size_max p) (bt_data_prof p)
                    (fill (bt_data p) (bt_size p) (bt ++ [0]))
                    (bt_size p + Z.of_nat (length bt) + 1)
                    (last_timer_delete_time p)
                    (plog p ++ [PSuspend i; PResume i sig]))
        | None =>
            Ok (false,
                mkP (running p) (bt_size_cur p) (bt_size_max p) (bt_data_prof p)
                    (bt_data p) (bt_size p) (last_timer_delete_time p)
                    (plog p ++ [PSuspend i; PUnwinderFault]))
        end
    end.
Proof.
  unfold sample_thread.
  destruct (signal_context env) as [c|]; [|reflexivity].
  unfold mbind, P_bind, mret, P_ret, get. unfold pact at 1. proj_p.
  destruct (rec_backtrace_ctx env _) as [bt|].
  - rewrite put_all_bt. proj_p. unfold put_bt at 1. proj_p.
    cbn [andb]. unfold pact. proj_p.
    rewrite fill_app. cbn [fill]. rewrite <- app_assoc. reflexivity.
  - unfold pact. proj_p. rewrite <- app_assoc. reflexivity.
Qed.

(** The record that a critical signal leaves of a thread that handed
    over its context.  If the unwinder comes back and the record fits
    into the buffer, the record is the backtrace followed by one 0; the
    profile buffer is not touched and the thread is resumed with the
    signal.  If the unwinder faults, the fault is taken outside any
    safe-restore region: nothing is recorded, the thread is not resumed
    and the listener does not go on. *)
Theorem critical_record sig i ptls2 env p c :
  signal_context env = Some c ->
  match rec_backtrace_ctx env (JL_MAX_BT_SIZE `quot` jl_n_threads - 1) with
  | Some bt =>
      0 <= bt_size p ->
      (Z.to_nat (bt_size p) + length bt + 1 <= length (bt_data p))%nat ->
      exists p',
        sample_thread JL_MAX_BT_SIZE jl_n_threads jl_profile_is_buffer_full
                      true false sig i ptls2 env p = Ok (true, p') /\
        bt_size p' = bt_size p + Z.of_nat (length bt) + 1 /\
        written (bt_size p) (bt_size p') (bt_data p') = bt ++ [0] /\
        take (Z.to_nat (bt_size p)) (bt_data p') =
          take (Z.to_nat (bt_size p)) (bt_data p) /\
        bt_data_prof p' = bt_data_prof p /\ bt_size_cur p' = bt_size_cur p /\
        running p' = running p /\
        plog p' = plog p ++ [PSuspend i; PResume i sig]
  | None =>
      sample_thread JL_MAX_BT_SIZE jl_n_threads jl_profile_is_buffer_full
                    true false sig i ptls2 env p =
        Ok (false,
            mkP (running p) (bt_size_cur p) (bt_size_max p) (bt_data_prof p)
                (bt_data p) (bt_size p) (last_timer_delete_time p)
                (plog p ++ [PSuspend i; PUnwinderFault]))
  end.
Proof.
  intros Hctx. rewrite sample_thread_critical, Hctx.
  destruct (rec_backtrace_ctx env _) as [bt|]; [|reflexivity].
  intros Hsz Hroom.
  eexists. split; [reflexivity|]. proj_p.
  destruct (written_fill (bt ++ [0]) (bt_data p) (bt_size p)) as [W T]; [lia| |].
  - rewrite length_app. cbn [length]. lia.
  - rewrite length_app in W. cbn [length] in W.
    replace (bt_size p + Z.of_nat (length bt) + 1)
      with (bt_size p + Z.of_nat (length bt + 1)) by lia.
    repeat apply conj; auto.
Qed.

Lemma critical_threads_fit sig tls envs order : forall p,
  0 < jl_n_threads <= JL_MAX_BT_SIZE ->
  bounded_backtraces envs jl_n_threads ->
  Forall (fun i => 0 <= i < jl_n_threads /\ is_Some (tls !! Z.to_nat i)) order ->
  exists alive p',
    sample_threads JL_MAX_BT_SIZE jl_n_threads jl_profile_is_buffer_full
                   true false sig tls envs order p = Ok (alive, p') /\
    bt_size p <= bt_size p' <=
      bt_size p + Z.of_nat (length order) * (JL_MAX_BT_SIZE `quot` jl_n_threads) /\
    bt_data_prof p' = bt_data_prof p /\ bt_size_cur p' = bt_size_cur p /\
    running p' = running p /\
    (alive = false -> last (plog p') = Some PUnwinderFault) /\
    (Forall (fun i => unwinds (JL_MAX_BT_SIZE `quot` jl_n_threads - 1) (envs i))
            order -> alive = true).
Proof.
  induction order as [|i order IH]; intros p Hn Hb Hall.
  - exists true, p. cbn. repeat apply conj; auto; try lia; discriminate.
  - apply Forall_cons in Hall as [[Hi [ptls2 Hl]] Hall].
    assert (Hq : 1 <= JL_MAX_BT_SIZE `quot` jl_n_threads).
    { rewrite Z.quot_div_nonneg by lia. apply Z.div_le_lower_bound; lia. }
    cbn [sample_threads]. rewrite Hl. unfold mbind, P_bind at 1.
    rewrite sample_thread_critical.
    cbn [length]. rewrite Nat2Z.inj_succ, Z.mul_succ_l.
    destruct (signal_context (envs i)) as [c|] eqn:Hc;
      [destruct (rec_backtrace_ctx (envs i) _) as [bt|] eqn:Hbt|].
    + match goal with
      | |- context [sample_threads _ _ _ _ _ _ _ _ _ ?q] =>
          destruct (IH q Hn Hb Hall)
            as (alive & p' & E & Hsz & Hprof & Hcur & Hrun & Hlast & Hal)
      end.
      exists alive, p'. split; [exact E|]. clear E.
      cbn [bt_size bt_data_prof bt_size_cur running] in *.
      pose proof (Hb i _ bt Hi Hbt).
      repeat apply conj; auto; try lia.
      intros Hun. apply Forall_cons in Hun as [_ Hun]. auto.
    + eexists false, _. split; [reflexivity|]. proj_p.
      repeat apply conj; auto; try lia.
      * intros _. change [PSuspend i; PUnwinderFault]
          with ([PSuspend i] ++ [PUnwinderFault]).
        rewrite app_assoc. apply last_snoc.
      * intros Hun. apply Forall_cons in Hun as [Hu _].
        unfold unwinds in Hu. rewrite Hc, Hbt in Hu.
        destruct Hu as [x Hx]; [eexists; reflexivity | discriminate Hx].
    + match goal with
      | |- context [sample_threads _ _ _ _ _ _ _ _ _ ?q] =>
          destruct (IH q Hn Hb Hall)
            as (alive & p' & E & Hsz & Hprof & Hcur & Hrun & Hlast & Hal)
      end.
      exists alive, p'. split; [exact E|]. clear E.
      cbn [bt_size bt_data_prof bt_size_cur running] in *.
      repeat apply conj; auto; try lia.
      intros Hun. apply Forall_cons in Hun as [_ Hun]. auto.
Qed.

(** The pass over the threads for a critical signal never runs over
    the listener's backtrace buffer: each thread adds at most
    [JL_MAX_BT_SIZE / jl_n_threads] entries, its backtrace and the 0 that
    ends it, so that at most [JL_MAX_BT_SIZE] of the
    [JL_MAX_BT_SIZE + 1] entries are in use; the profile buffer and the
    timer are not touched.  The pass ends with the release of the
    profile lock or with a fault of the unwinder, and with the former if
    the unwinder comes back for every thread. *)
Theorem critical_pass_fits sig tls randperm envs p :
  0 < jl_n_threads <= JL_MAX_BT_SIZE ->
  length tls = Z.to_nat jl_n_threads ->
  bounded_backtraces envs jl_n_threads ->
  bt_size p = 0 ->
  exists p',
    sample_pass JL_MAX_BT_SIZE jl_n_threads jl_profile_is_buffer_full
                true false sig tls randperm envs p = Ok (tt, p') /\
    0 <= bt_size p' <= JL_MAX_BT_SIZE /\
    bt_data_prof p' = bt_data_prof p /\ bt_size_cur p' = bt_size_cur p /\
    running p' = running p /\
    (last (plog p') = Some PUnlockProfile \/
     last (plog p') = Some PUnwinderFault) /\
    ((forall i, 0 <= i < jl_n_threads ->
                unwinds (JL_MAX_BT_SIZE `quot` jl_n_threads - 1) (envs i)) ->
     last (plog p') = Some PUnlockProfile).
Proof.
  intros Hn Hlen Hb Hz.
  unfold sample_pass. cbn [orb]. unfold mbind, P_bind. unfold pact at 1.
  assert (Hrange : forall idx : nat,
            idx ∈ rev (seq 0 (Z.to_nat jl_n_threads)) ->
            0 <= Z.of_nat idx < jl_n_threads).
  { intros idx Hin. apply list_elem_of_In, in_rev, in_seq in Hin. lia. }
  match goal with
  | |- context [sample_threads _ _ _ _ _ _ _ _ ?o ?q] =>
      destruct (critical_threads_fit sig tls envs o q Hn Hb)
        as (alive & p1 & E & Hsz & Hprof & Hcur & Hrun & Hlast & Hal)
  end.
  { unfold visit_order. apply Forall_fmap, Forall_forall. intros idx Hin.
    apply Hrange in Hin. cbn.
    split; [lia|]. apply lookup_lt_is_Some. rewrite Nat2Z.id. lia. }
  rewrite E.
  cbn [bt_size bt_data_prof bt_size_cur running] in *.
  unfold visit_order in Hsz. rewrite length_fmap, length_rev, length_seq in Hsz.
  rewrite Z2Nat.id in Hsz by lia.
  pose proof (Z.mul_div_le JL_MAX_BT_SIZE jl_n_threads ltac:(lia)) as Hm.
  rewrite <- Z.quot_div_nonneg in Hm by lia.
  destruct alive.
  - unfold pact. eexists. split; [reflexivity|]. proj_p.
    repeat apply conj; auto; try lia.
    + left. apply last_snoc.
    + intros _. apply last_snoc.
  - exists p1. split; [reflexivity|].
    repeat apply conj; auto; try lia.
    intros Hun. exfalso.
    assert (false = true) as Hff; [|discriminate Hff].
    apply Hal. unfold visit_order. apply Forall_fmap, Forall_forall.
    intros idx Hin. cbn. apply Hun. now apply Hrange.
Qed.

Lemma put_bt_eq v p :
  put_bt v p =
    Ok (tt, mkP (running p) (bt_size_cur p) (bt_size_max p) (bt_data_prof p)
                (<[Z.to_nat (bt_size p) := v]> (bt_data p))
                (bt_size p + 1) (last_timer_delete_time p) (plog p)).
Proof. reflexivity. Qed.

Ltac step_p :=
  repeat (first [ rewrite put_prof_eq | rewrite put_bt_eq | rewrite pact_eq
                | rewrite put_all_prof | rewrite put_all_bt ]; proj_p).

(** Sampling a thread on which the unwinder does not fault comes back,
    and in the listener's log it is one suspension, followed by the
    resumption if the thread handed over its context. *)
Lemma sample_thread_handshake critical profile sig i ptls2 env p :
  (critical = true ->
   unwinds (JL_MAX_BT_SIZE `quot` jl_n_threads - 1) env) ->
  exists p',
    sample_thread JL_MAX_BT_SIZE jl_n_threads jl_profile_is_buffer_full
                  critical profile sig i ptls2 env p = Ok (true, p') /\
    handshakes (plog p') =
      handshakes (plog p) ++
      PSuspend i :: match signal_context env with
                    | Some _ => [PResume i sig]
                    | None => []
                    end.
Proof.
  intros Hun.
  unfold sample_thread, jl_profile_stop_timer.
  destruct (signal_context env) as [c|] eqn:Hc.
  2:{ eexists. split; [reflexivity|]. proj_p. now rewrite handshakes_snoc. }
  assert (Hbt : critical = true ->
                exists bt, rec_backtrace_ctx env
                             (JL_MAX_BT_SIZE `quot` jl_n_threads - 1) = Some bt).
  { intros Hcr. destruct (Hun Hcr) as [bt Hbt]; [|now exists bt].
    rewrite Hc. now eexists. }
  unfold mbind, P_bind, mret, P_ret, get.
  destruct critical; [destruct (Hbt eq_refl) as [bt0 ->]|].
  all: repeat (step_p; cbn [andb negb];
          match goal with
          | |- context [match rec_backtrace_ctx ?e ?m with _ => _ end] =>
              destruct (rec_backtrace_ctx e m)
          | |- context [if ?b then _ else _] => destruct b
          end).
  all: step_p; eexists; (split; [reflexivity|]); proj_p;
    rewrite !handshakes_snoc; cbn [is_handshake app];
    rewrite ?app_nil_r, <- ?app_assoc; reflexivity.
Qed.

(** Threads are stopped one at a time and none is left stopped:
    whatever the signal, if for a critical signal the unwinder comes
    back for every thread that is visited, the loop over the threads
    fails no assertion and runs to its end, and its suspensions and
    resumptions are, thread by thread in the order of the visit, the
    suspension of the thread followed at once by its resumption with the
    signal, or the suspension alone if the thread did not hand over its
    context. *)
Theorem every_suspension_resumed critical profile sig tls envs order : forall p,
  Forall (fun i => is_Some (tls !! Z.to_nat i)) order ->
  (critical = true ->
   Forall (fun i => unwinds (JL_MAX_BT_SIZE `quot` jl_n_threads - 1) (envs i))
          order) ->
  exists p',
    sample_threads JL_MAX_BT_SIZE jl_n_threads jl_profile_is_buffer_full
                   critical profile sig tls envs order p = Ok (true, p') /\
    handshakes (plog p') =
      handshakes (plog p) ++ flat_map (handshake_of envs sig) order.
Proof.
  induction order as [|i order IH]; intros p Hall Hun.
  - exists p. cbn. now rewrite app_nil_r.
  - apply Forall_cons in Hall as [[ptls2 Hl] Hall].
    assert (Hun1 : critical = true ->
                   unwinds (JL_MAX_BT_SIZE `quot` jl_n_threads - 1) (envs i)).
    { intros Hcr. specialize (Hun Hcr). now apply Forall_cons in Hun as [Hu _]. }
    assert (Hun2 : critical = true ->
                   Forall (fun i => unwinds (JL_MAX_BT_SIZE `quot` jl_n_threads - 1)
                                            (envs i)) order).
    { intros Hcr. specialize (Hun Hcr). now apply Forall_cons in Hun as [_ Hu]. }
    cbn [sample_threads]. rewrite Hl. unfold mbind, P_bind at 1.
    destruct (sample_thread_handshake critical profile sig i ptls2 (envs i) p Hun1)
      as (p1 & E1 & H1).
    rewrite E1. destruct (IH p1 Hall Hun2) as (p' & E & H).
    exists p'. split; [exact E|].
    rewrite H, H1. cbn [flat_map]. unfold handshake_of at 2.
    now rewrite <- app_assoc.
Qed.


Lemma lookups_of_all (l : list Z) :
  (fun idx : nat => default 0 (l !! idx)) <$> seq 0 (length l) = l.
Proof.
  apply list_eq. intros i. rewrite list_lookup_fmap.
  destruct (decide (i < length l)%nat) as [Hlt | Hge].
  - rewrite lookup_seq_lt by exact Hlt. cbn.
    destruct (lookup_lt_is_Some_2 l i Hlt) as [v Hv]. now rewrite Hv.
  - rewrite lookup_seq_ge by lia. cbn. symmetry. apply lookup_ge_None. lia.
Qed.

(** Every thread is visited once: for a critical signal the loop goes
    down from the last thread, so that thread 0 comes last; for a profile
    tick it follows the permutation it is given, and visits each thread
    once if that is a permutation of the thread numbers. *)
Theorem visit_order_once profile randperm :
  (profile = true -> randperm ≡ₚ Z.of_nat <$> seq 0 (Z.to_nat jl_n_threads)) ->
  visit_order jl_n_threads profile randperm
    ≡ₚ Z.of_nat <$> seq 0 (Z.to_nat jl_n_threads) /\
  (profile = false -> 0 < jl_n_threads ->
   last (visit_order jl_n_threads profile randperm) = Some 0).
Proof.
  intros Hperm. unfold visit_order. destruct profile.
  - specialize (Hperm eq_refl). split; [|discriminate].
    pose proof (Permutation_length Hperm) as Hlen.
    rewrite length_fmap, length_seq in Hlen. rewrite <- Hlen at 1.
    etransitivity;
      [apply fmap_Permutation; symmetry; apply Permutation_rev|].
    rewrite lookups_of_all. exact Hperm.
  - split.
    + apply fmap_Permutation. symmetry. apply Permutation_rev.
    + intros _ Hn. destruct (Z.to_nat jl_n_threads) as [|k] eqn:Hk; [lia|].
      cbn [seq rev]. rewrite fmap_app. cbn. apply last_snoc.
Qed.

End SampleFacts.

Section SampleWitnesses.
Import Signals Listener Props SampleProps.

Lemma three_envs_bounded : bounded_backtraces three_envs 3.
Proof.
  intros i maxsize bt _. cbn. destruct (maxsize <? 0) eqn:E; [discriminate|].
  apply Z.ltb_ge in E. intros H. injection H as <-.
  rewrite length_take. cbn. lia.
Qed.

Lemma three_envs_unwind maxsize i : 0 <= maxsize -> unwinds maxsize (three_envs i).
Proof.
  intros Hm _. cbn. apply Z.ltb_ge in Hm. rewrite Hm. now eexists.
Qed.

Lemma critical_record_witness :
  (* the unwinder finds two frames *)
  (exists p',
     sample_thread 100 3 never_full true false 15 2
                   (mkTls 2 0 0 1 4662 139637993504768 140733210165248 8388608)
                   (three_envs 2) before_pass = Ok (true, p') /\
     bt_size p' = bt_size before_pass + Z.of_nat (length [111; 222]) + 1 /\
     written (bt_size before_pass) (bt_size p') (bt_data p') = [111; 222] ++ [0] /\
     take (Z.to_nat (bt_size before_pass)) (bt_data p')
       = take (Z.to_nat (bt_size before_pass)) (bt_data before_pass) /\
     bt_data_prof p' = bt_data_prof before_pass /\
     bt_size_cur p' = bt_size_cur before_pass /\
     running p' = running before_pass /\
     plog p' = plog before_pass ++ [PSuspend 2; PResume 2 15]) /\
  (* the unwinder faults *)
  sample_thread 100 3 never_full true false 15 2
                (mkTls 2 0 0 1 4662 139637993504768 140733210165248 8388608)
                faulting_env before_pass =
    Ok (false,
        mkP (running before_pass) (bt_size_cur before_pass)
            (bt_size_max before_pass) (bt_data_prof before_pass)
            (bt_data before_pass) (bt_size before_pass)
            (last_timer_delete_time before_pass)
            (plog before_pass ++ [PSuspend 2; PUnwinderFault])).
Proof.
  split.
  - refine (critical_record 100 3 never_full 15 2
              (mkTls 2 0 0 1 4662 139637993504768 140733210165248 8388608)
              (three_envs 2) before_pass (140733193383936 + 2) _ _ _).
    + reflexivity.
    + cbn. lia.
    + apply Nat.leb_le. reflexivity.
  - refine (critical_record 100 3 never_full 15 2
              (mkTls 2 0 0 1 4662 139637993504768 140733210165248 8388608)
              faulting_env before_pass 140733193383936 _).
    reflexivity.
Defined.

Lemma critical_pass_fits_witness :
  exists p',
    sample_pass 100 3 never_full true false 15 three_tls [] three_envs
                before_pass = Ok (tt, p') /\
    0 <= bt_size p' <= 100 /\
    bt_data_prof p' = bt_data_prof before_pass /\
    bt_size_cur p' = bt_size_cur before_pass /\
    running p' = running before_pass /\
    (last (plog p') = Some PUnlockProfile \/
     last (plog p') = Some PUnwinderFault) /\
    ((forall i, 0 <= i < 3 -> unwinds (100 `quot` 3 - 1) (three_envs i)) ->
     last (plog p') = Some PUnlockProfile).
Proof.
  apply (critical_pass_fits 100 3 never_full 15 three_tls [] three_envs before_pass).
  - lia.
  - reflexivity.
  - exact three_envs_bounded.
  - reflexivity.
Defined.

Lemma every_suspension_resumed_witness :
  exists p',
    sample_threads 100 3 never_full true false 15 three_tls three_envs [2; 1; 0]
                   before_pass = Ok (true, p') /\
    handshakes (plog p') =
      handshakes (plog before_pass) ++ flat_map (handshake_of three_envs 15) [2; 1; 0].
Proof.
  apply (every_suspension_resumed 100 3 never_full true false 15 three_tls
           three_envs [2; 1; 0] before_pass).
  - repeat constructor; eexists; reflexivity.
  - intros _. repeat constructor; apply three_envs_unwind; vm_compute; discriminate.
Defined.


Lemma visit_order_once_witness :
  visit_order 3 true [1; 2; 0] ≡ₚ Z.of_nat <$> seq 0 (Z.to_nat 3) /\
  (true = false -> 0 < 3 -> last (visit_order 3 true [1; 2; 0]) = Some 0).
Proof.
  apply (visit_order_once 3 true [1; 2; 0]).
  intros _. cbn.
  change [1; 2; 0] with ([1; 2] ++ [0]).
  change [0; 1; 2] with ([0] ++ [1; 2]).
  apply Permutation_app_comm.
Defined.

End SampleWitnesses.
